(** * BinanceTradeBot: the [Database] and [Bot] classes of [my_classes/classes.py]

    A shallow embedding of the two classes and the properties their
    specification states about them.

    - Python [float] is IEEE 754 binary64.  It is modelled by [spec_float]
      at precision 53 and maximal exponent 1024, with the library's
      round-to-nearest-even operations, which compute inside Rocq.
    - Exceptions are values of [exn]; a method that can raise returns
      [exn + A].
    - The exchange is an external collaborator.  It is an [Exchange] record
      of response functions, and every request sent to it is appended to a
      log kept in the [World], so that sending nothing is a statement about
      that log.
    - The sqlite table [user_data] is the list of its rows in insertion
      order. *)

From Stdlib Require Import ZArith QArith Qround Qpower List Sorted String.
From Stdlib Require Import Lia Lqa.
From Stdlib Require Import SpecFloat.
Import ListNotations.

Local Open Scope Z_scope.

(** ** Exceptions *)

Inductive exn : Type :=
| KeyError (key : string)
| IndexError
| AttributeError (attr : string)
| TypeError
| ValueError
| ZeroDivisionError
| OverflowError
| ExchangeError (code : Z).

Definition result (A : Type) : Type := (exn + A)%type.

Abbreviation Ok a := (@inr exn _ a).
Abbreviation Raise e := (@inl exn _ e).

Definition rbind {A B : Type} (r : result A) (f : A -> result B) : result B :=
  match r with
  | inl e => inl e
  | inr a => f a
  end.

(** ** Python floats *)

Module PyFloat.

Definition prec : Z := 53.
Definition emax : Z := 1024.

Definition float : Type := spec_float.

Definition add : float -> float -> float := SFadd prec emax.
Definition sub : float -> float -> float := SFsub prec emax.
Definition mul : float -> float -> float := SFmul prec emax.
Definition div : float -> float -> float := SFdiv prec emax.
Definition sqrt : float -> float := SFsqrt prec emax.

Definition pzero : float := S754_zero false.

Definition is_nan (x : float) : bool :=
  match x with S754_nan => true | _ => false end.

Definition is_inf (x : float) : bool :=
  match x with S754_infinity _ => true | _ => false end.

Definition is_zero (x : float) : bool :=
  match x with S754_zero _ => true | _ => false end.

(** [math.isfinite]: neither an infinity nor a NaN. *)
Definition is_finite (x : float) : bool :=
  match x with
  | S754_zero _ | S754_finite _ _ _ => true
  | _ => false
  end.

(** [float(n)] for an integer [n]: the nearest double. *)
Definition of_Z (n : Z) : float := binary_normalize prec emax n 0 false.

(** The nearest double to [(-1)^s * n / d], for [0 < d]: what [strtod]
    returns for a decimal numeral. *)
Definition of_ratio (s : bool) (n : Z) (d : positive) : float :=
  match n with
  | Zpos m => div (S754_finite s m 0) (S754_finite false d 0)
  | _ => S754_zero s
  end.

(** The exact value of a double. *)
Definition to_Q (x : float) : Q :=
  match x with
  | S754_finite s m e =>
      let v := if 0 <=? e then inject_Z (Zpos m * 2 ^ e)
               else Qmake (Zpos m) (Z.to_pos (2 ^ (- e))) in
      if s then Qopp v else v
  | _ => 0%Q
  end.

(** [num / den] rounded to the nearest integer, ties to even
    ([0 <= num], [0 < den]). *)
Definition round_half_even (num den : Z) : Z :=
  let q := num / den in
  let r := num mod den in
  match 2 * r ?= den with
  | Lt => q
  | Gt => q + 1
  | Eq => if Z.even q then q else q + 1
  end.

(** [round(x, ndigits)] for [0 <= ndigits]: non-finite values round to
    themselves; a finite value is rounded, ties to even on its exact
    value, to [ndigits] decimal places, and the decimal numeral obtained
    is read back as a double, keeping the sign of [x]. *)
Definition round (x : float) (ndigits : N) : float :=
  match x with
  | S754_finite s m e =>
      let p := 10 ^ Z.of_N ndigits in
      let n := if 0 <=? e then Zpos m * 2 ^ e * p
               else round_half_even (Zpos m * p) (2 ^ (- e)) in
      of_ratio s n (Z.to_pos p)
  | _ => x
  end.

(** [int(x)]: truncation toward zero; NaN and the infinities raise. *)
Definition to_int (x : float) : result Z :=
  match x with
  | S754_nan => Raise ValueError
  | S754_infinity _ => Raise OverflowError
  | S754_zero _ => Ok 0
  | S754_finite s m e =>
      let a := if 0 <=? e then Zpos m * 2 ^ e else Zpos m / 2 ^ (- e) in
      Ok (if s then - a else a)
  end.

(** [a / b]: a zero divisor raises. *)
Definition truediv (a b : float) : result float :=
  if is_zero b then Raise ZeroDivisionError else Ok (div a b).

(** [x ** 2]: the C library's [pow(x, 2.0)], taken to be the correctly
    rounded square, which is [x * x]; a [pow] that is one unit in the
    last place off for some [x] differs from it there.  A finite [x]
    whose square overflows raises. *)
Definition pow2 (x : float) : result float :=
  let r := mul x x in
  if is_finite x && is_inf r then Raise OverflowError else Ok r.

(** [math.sqrt(x)]: a NaN result for an argument that is not NaN is a
    domain error. *)
Definition math_sqrt (x : float) : result float :=
  let r := sqrt x in
  if is_nan r && negb (is_nan x) then Raise ValueError else Ok r.

(** [sum(l)]: the accumulator starts at the integer [0] and the items are
    added from left to right in double precision, as CPython does up to
    3.11.  From 3.12 on it compensates the rounding errors of the partial
    sums; the two agree whenever every partial sum is exact. *)
Definition sum (l : list float) : float := fold_left add l pzero.

End PyFloat.

Import PyFloat.

(** ** Data received from the exchange *)

(** A price or volume as the exchange sends it: a decimal numeral,
    [(-1)^dec_neg * dec_num / 10^dec_places], transmitted as a string. *)
Record decimal : Type := {
  dec_neg : bool;
  dec_num : N;
  dec_places : N
}.

(** [float(s)] on such a numeral: the nearest double. *)
Definition float_of_decimal (d : decimal) : float :=
  of_ratio (dec_neg d) (Z.of_N (dec_num d)) (Z.to_pos (10 ^ Z.of_N (dec_places d))).

(** One row of the kline response; the source reads index 4, the close. *)
Record kline : Type := {
  kl_open_time : Z;
  kl_open : decimal;
  kl_high : decimal;
  kl_low : decimal;
  kl_close : decimal;
  kl_volume : decimal;
  kl_close_time : Z
}.

(** The interval constants of the client library, as opaque tokens. *)
Inductive interval_token : Type :=
| KLINE_INTERVAL_15MINUTE
| KLINE_INTERVAL_30MINUTE
| KLINE_INTERVAL_1HOUR
| KLINE_INTERVAL_2HOUR
| KLINE_INTERVAL_4HOUR
| KLINE_INTERVAL_6HOUR
| KLINE_INTERVAL_12HOUR
| KLINE_INTERVAL_1DAY.

(** Requests that reach the exchange. *)
Inductive request : Type :=
| GetKlines (symbol : option string) (interval : interval_token) (limit : Z)
| OrderMarketBuy (symbol : option string) (quantity : Z)
| OrderMarketSell (symbol : option string) (quantity : Z).

(** The exchange answers a request knowing the requests sent before it:
    either a value or the exception the client library raises. *)
Record Exchange : Type := {
  ex_get_klines :
    list request -> option string -> interval_token -> Z -> result (list kline);
  ex_order_market_buy : list request -> option string -> Z -> result unit;
  ex_order_market_sell : list request -> option string -> Z -> result unit
}.

(** ** The [Bot] object *)

Record Client : Type := {
  api_key : string;
  secret_key : string
}.

(** [asset] and [trade_amount] always exist and start as Python's [None].
    [client], [time_interval] and [amount] are created by [connect],
    [setup_params] and [place_market_buy]; before that reading them raises
    [AttributeError], which is [None] here.  The trade amount is a float,
    like the price it is divided by, and the amount bought is an int. *)
Record Bot : Type := {
  asset : option string;
  trade_amount : option float;
  client : option Client;
  time_interval : option string;
  amount : option Z
}.

Record World : Type := {
  bot : Bot;
  sent : list request
}.

Definition set_bot (b : Bot) (w : World) : World :=
  {| bot := b; sent := sent w |}.

Definition log (r : request) (w : World) : World :=
  {| bot := bot w; sent := sent w ++ [r] |}.

(** ** Methods: state passing with exceptions

    A raised exception keeps the state reached so far, as in Python. *)

Definition M (A : Type) : Type := World -> result A * World.

Definition ret {A : Type} (a : A) : M A := fun w => (Ok a, w).

Definition bind {A B : Type} (m : M A) (f : A -> M B) : M B :=
  fun w =>
    match m w with
    | (inl e, w') => (inl e, w')
    | (inr a, w') => f a w'
    end.

Definition lift {A : Type} (r : result A) : M A := fun w => (r, w).

Notation "x <- m ;; k" := (bind m (fun x => k))
  (at level 61, m at next level, right associativity).
Notation "m ;;; k" := (bind m (fun _ => k))
  (at level 61, right associativity).

(** [self.name] for an attribute that may not exist yet. *)
Definition getattr {A : Type} (name : string) (field : Bot -> option A) : M A :=
  fun w =>
    match field (bot w) with
    | Some a => (Ok a, w)
    | None => (Raise (AttributeError name), w)
    end.

(** [self.asset], which always exists. *)
Definition get_asset : M (option string) := fun w => (Ok (asset (bot w)), w).

Definition get_trade_amount : M (option float) :=
  fun w => (Ok (trade_amount (bot w)), w).

Definition setattr_amount (n : Z) : M unit :=
  fun w =>
    (Ok tt,
     set_bot {| asset := asset (bot w); trade_amount := trade_amount (bot w);
                client := client (bot w); time_interval := time_interval (bot w);
                amount := Some n |} w).

(** [l[i]] *)
Definition getitem {A : Type} (l : list A) (i : nat) : result A :=
  match nth_error l i with
  | Some a => Ok a
  | None => Raise IndexError
  end.

(** [[f(x) for x in l]]: the first exception ends the comprehension. *)
Fixpoint comprehension {A B : Type} (f : A -> result B) (l : list A)
  : result (list B) :=
  match l with
  | [] => Ok []
  | x :: l' =>
      rbind (f x) (fun y =>
      rbind (comprehension f l') (fun ys => Ok (y :: ys)))
  end.

(** [d[key]] for a dict with string keys, as its list of items. *)
Fixpoint dict_getitem {V : Type} (d : list (string * V)) (key : string)
  : result V :=
  match d with
  | [] => Raise (KeyError key)
  | (k, v) :: d' => if String.eqb key k then Ok v else dict_getitem d' key
  end.

Definition Bot_init : Bot :=
  {| asset := None; trade_amount := None; client := None;
     time_interval := None; amount := None |}.

Definition connect (api_key secret_key : string) : M unit :=
  fun w =>
    (Ok tt,
     set_bot {| asset := asset (bot w); trade_amount := trade_amount (bot w);
                client := Some {| api_key := api_key; secret_key := secret_key |};
                time_interval := time_interval (bot w);
                amount := amount (bot w) |} w).

Definition setup_params (asset_ : string) (trade_amount_ : float)
  (interval : string) : M unit :=
  fun w =>
    (Ok tt,
     set_bot {| asset := Some asset_; trade_amount := Some trade_amount_;
                client := client (bot w); time_interval := Some interval;
                amount := amount (bot w) |} w).

Definition kline_intervals : list (string * interval_token) :=
  [ ("15m", KLINE_INTERVAL_15MINUTE); ("30m", KLINE_INTERVAL_30MINUTE);
    ("1H", KLINE_INTERVAL_1HOUR); ("2H", KLINE_INTERVAL_2HOUR);
    ("4H", KLINE_INTERVAL_4HOUR); ("6H", KLINE_INTERVAL_6HOUR);
    ("12H", KLINE_INTERVAL_12HOUR); ("1D", KLINE_INTERVAL_1DAY) ]%string.

Section Methods.

Variable ex : Exchange.

(** The three calls on [self.client]: the request is logged, then the
    exchange's answer is returned or raised. *)
Definition client_get_klines (symbol : option string)
  (interval : interval_token) (limit : Z) : M (list kline) :=
  fun w =>
    (ex_get_klines ex (sent w) symbol interval limit,
     log (GetKlines symbol interval limit) w).

Definition client_order_market_buy (symbol : option string) (quantity : Z)
  : M unit :=
  fun w =>
    (ex_order_market_buy ex (sent w) symbol quantity,
     log (OrderMarketBuy symbol quantity) w).

Definition client_order_market_sell (symbol : option string) (quantity : Z)
  : M unit :=
  fun w =>
    (ex_order_market_sell ex (sent w) symbol quantity,
     log (OrderMarketSell symbol quantity) w).

(** [Bot.get_klines]: the callee [self.client.get_klines] is evaluated
    first, then the arguments from left to right, then the call is made;
    the list received is reversed. *)
Definition get_klines (limit_ : Z) : M (list kline) :=
  _ <- getattr "client" client ;;
  symbol <- get_asset ;;
  code <- getattr "time_interval" time_interval ;;
  interval <- lift (dict_getitem kline_intervals code) ;;
  klines <- client_get_klines symbol interval limit_ ;;
  ret (rev klines).

(** [[float(klines[i][4]) for i in range(20)]] *)
Definition last_20_closes (klines : list kline) : result (list float) :=
  comprehension
    (fun i => rbind (getitem klines i)
                (fun k => Ok (float_of_decimal (kl_close k))))
    (seq 0 20).

Definition simple_ma (closes : list float) : result float :=
  truediv (sum closes) (of_Z 20).

Definition squared_list (closes : list float) (ma : float)
  : result (list float) :=
  comprehension (fun close => pow2 (sub close ma)) closes.

Definition standard_deviation (closes : list float) (ma : float)
  : result float :=
  rbind (squared_list closes ma) (fun sq =>
  rbind (truediv (sum sq) (of_Z 20)) math_sqrt).

(** The arithmetic of [get_bbands] on the closes it gathered. *)
Definition lower_band (closes : list float) : result float :=
  rbind (simple_ma closes) (fun ma =>
  rbind (standard_deviation closes ma) (fun sd =>
  Ok (round (sub ma (mul sd (of_Z 2))) 8))).

Definition get_bbands : M float :=
  klines <- get_klines 25 ;;
  closes <- lift (last_20_closes klines) ;;
  lift (lower_band closes).

(** [Bot.place_market_buy]: the quantity is stored in [self.amount]
    before the order is sent.  Dividing [None] is a [TypeError]. *)
Definition place_market_buy (current_price : float) : M unit :=
  ta <- get_trade_amount ;;
  a <- lift (match ta with Some a => Ok a | None => Raise TypeError end) ;;
  q <- lift (truediv a current_price) ;;
  n <- lift (to_int q) ;;
  setattr_amount n ;;;
  _ <- getattr "client" client ;;
  symbol <- get_asset ;;
  quantity <- getattr "amount" amount ;;
  client_order_market_buy symbol quantity.

Definition place_market_sell : M unit :=
  _ <- getattr "client" client ;;
  symbol <- get_asset ;;
  quantity <- getattr "amount" amount ;;
  client_order_market_sell symbol quantity.

Definition get_current_asset_price : M float :=
  klines <- get_klines 1 ;;
  k <- lift (getitem klines 0) ;;
  ret (float_of_decimal (kl_close k)).

End Methods.

(** ** The [Database] object *)

Record user_row : Type := {
  username : string;
  password : string;
  row_api_key : string;
  row_secret_key : string
}.

Record trade_row : Type := {
  tr_datetime : string;
  tr_asset : string;
  tr_trade_size : string;
  tr_trade_entry : string;
  tr_trade_exit : string;
  tr_gain_percent : string
}.

(** Each table is the list of its rows, oldest first. *)
Record Database : Type := {
  user_data : list user_row;
  trade_data : list trade_row
}.

Definition Database_init : Database := {| user_data := []; trade_data := [] |}.

Definition create_user (db : Database)
  (username_ password_hash api_key_ secret_key_ : string) : Database :=
  {| user_data :=
       user_data db ++
       [ {| username := username_; password := password_hash;
            row_api_key := api_key_; row_secret_key := secret_key_ |} ];
     trade_data := trade_data db |}.

(** [SELECT * ... WHERE username=?] then [fetchone()]: the first matching
    row of the table scan, [None] when there is none. *)
Definition get_user_data (db : Database) (username_ : string) : option user_row :=
  find (fun r => String.eqb (username r) username_) (user_data db).

(** [INSERT INTO trade_data]: one more row.  The values are kept as the
    texts given.  The column [datetime] is declared [DATE], which sqlite
    gives NUMERIC affinity: a text that reads as a number is stored as
    that number, every other text unchanged. *)
Definition log_trade (db : Database)
  (datetime asset_ trade_size entry_price exit_price gain : string) : Database :=
  {| user_data := user_data db;
     trade_data :=
       trade_data db ++
       [ {| tr_datetime := datetime; tr_asset := asset_;
            tr_trade_size := trade_size; tr_trade_entry := entry_price;
            tr_trade_exit := exit_price; tr_gain_percent := gain |} ] |}.

(** ** Concrete sessions used to run the methods *)

Definition fresh_world : World := {| bot := Bot_init; sent := [] |}.

Definition dec_of_N (n : N) : decimal :=
  {| dec_neg := false; dec_num := n; dec_places := 0 |}.

(** A candle opened at time [t] whose prices are all [d]. *)
Definition flat_kline (t : Z) (d : decimal) : kline :=
  {| kl_open_time := t; kl_open := d; kl_high := d; kl_low := d;
     kl_close := d; kl_volume := dec_of_N 1; kl_close_time := t |}.

(** A candle opened at time [t] and closed at price [t]. *)
Definition kline_at (t : nat) : kline :=
  flat_kline (Z.of_nat t) (dec_of_N (N.of_nat t)).

(** An exchange that always answers a kline request with [window],
    accepts sells and answers buys with [buy_answer]. *)
Definition fixed_exchange (window : list kline) (buy_answer : result unit)
  : Exchange :=
  {| ex_get_klines := fun _ _ _ _ => Ok window;
     ex_order_market_buy := fun _ _ _ => buy_answer;
     ex_order_market_sell := fun _ _ _ => Ok tt |}.

(** The session after [Bot()], [connect] and [setup_params]. *)
Definition ready_world (trade_amount_ : float) (interval : string) : World :=
  snd (setup_params "BTCUSDT" trade_amount_ interval
         (snd (connect "key" "secret" fresh_world))).

(** ** Chronological order *)

Definition ascending (l : list kline) : Prop :=
  StronglySorted (fun a b => kl_open_time a < kl_open_time b) l.

Definition descending (l : list kline) : Prop :=
  StronglySorted (fun a b => kl_open_time b < kl_open_time a) l.

Definition close_price (k : kline) : float := float_of_decimal (kl_close k).

(** ** Inputs of the examples *)

(** Two candles, as the exchange sends them: oldest first. *)
Definition two_candles : list kline := [kline_at 1; kline_at 2].

(** Twenty-five candles as the exchange sends them, opened at times 1 to
    25 and closed at prices 1 to 25. *)
Definition window_25 : list kline := map kline_at (seq 1 25).

Definition closes_1_to_20 : list float :=
  map (fun n => of_Z (Z.of_nat n)) (seq 1 20).

(** Twenty-five candles, oldest first, whose closes fall from 25 to 1: the
    twenty most recent ones, newest first, close at 1, 2, ..., 20. *)
Definition falling_window : list kline :=
  map (fun t => flat_kline (Z.of_nat t) (dec_of_N (N.of_nat (26 - t)))) (seq 1 25).

(** Twenty-five candles that all close at 0.0009765625, which is 1/1024. *)
Definition level_window : list kline :=
  map (fun t => flat_kline (Z.of_nat t)
                  {| dec_neg := false; dec_num := 9765625; dec_places := 10 |})
      (seq 1 25).

(** A positive finite double, [m * 2^e]. *)
Definition positive_float (m : positive) (e : Z) : float := S754_finite false m e.

(** The floor of the exact value of the double quotient [a / p]. *)
Definition floor_of_quotient (a p : float) : Z := Qfloor (to_Q (div a p)).

(** The session [w] once [self.amount] holds [n]. *)
Definition with_amount (n : Z) (w : World) : World := snd (setattr_amount n w).

(** 1e300 and 1e-300 *)
Definition huge_amount : float := of_ratio false (10 ^ 300) 1.

Definition tiny_price : float := of_ratio false 1 (Z.to_pos (10 ^ 300)).

(** An exchange that refuses every buy order and accepts every sell. *)
Definition refusing_exchange : Exchange :=
  fixed_exchange [] (Raise (ExchangeError (-2010))).

(** The session after the refused buy of 250 at a price of 100. *)
Definition after_refused_buy : World :=
  snd (place_market_buy refusing_exchange (of_Z 100) (ready_world (of_Z 250) "15m")).

Definition row (u p a s : string) : user_row :=
  {| username := u; password := p; row_api_key := a; row_secret_key := s |}.

(** ** Sessions without a buy *)

(** The sessions reached from [Bot()] by calls of any method other than
    [place_market_buy]. *)
Inductive never_bought : World -> Prop :=
| nb_fresh : never_bought fresh_world
| nb_connect (k s : string) (w : World) :
    never_bought w -> never_bought (snd (connect k s w))
| nb_setup_params (a : string) (t : float) (i : string) (w : World) :
    never_bought w -> never_bought (snd (setup_params a t i w))
| nb_get_klines (ex : Exchange) (limit_ : Z) (w : World) :
    never_bought w -> never_bought (snd (get_klines ex limit_ w))
| nb_get_bbands (ex : Exchange) (w : World) :
    never_bought w -> never_bought (snd (get_bbands ex w))
| nb_get_current_asset_price (ex : Exchange) (w : World) :
    never_bought w -> never_bought (snd (get_current_asset_price ex w))
| nb_place_market_sell (ex : Exchange) (w : World) :
    never_bought w -> never_bought (snd (place_market_sell ex w)).

(** ** The other methods of [Bot] *)

(** The truth value Python gives [self.asset]: [None] and the empty string
    are false. *)
Definition truthy_asset (a : option string) : bool :=
  match a with
  | Some s => negb (String.eqb s "")
  | None => false
  end.

(** The truth value Python gives [self.trade_amount]: [None] and the two
    zeros are false, every other float, NaN included, is true. *)
Definition truthy_trade_amount (t : option float) : bool :=
  match t with
  | Some x => negb (is_zero x)
  | None => false
  end.

(** [Bot.check_params]: [Some true] is Python's [True]; when the test
    fails the method falls off its end and returns [None]. *)
Definition check_params : M (option bool) :=
  a <- get_asset ;;
  t <- get_trade_amount ;;
  ret (if truthy_asset a && truthy_trade_amount t then Some true else None).

(** One entry of the ticker listing. *)
Record ticker : Type := {
  tk_symbol : string;
  tk_price : decimal
}.

(** The answer of the exchange to [get_all_tickers], knowing the kline and
    order requests sent before; the listing request itself is not kept in
    [sent]. *)
Definition ticker_feed : Type := list request -> result (list ticker).

(** The loop of [find_ticker]: it runs over the whole listing. *)
Definition scan_tickers (selected_ticker : string) (all_tickers : list ticker)
  : bool :=
  fold_left
    (fun ticker_found ticker =>
       if String.eqb selected_ticker (tk_symbol ticker) then true
       else ticker_found)
    all_tickers false.

(** [Bot.find_ticker] *)
Definition find_ticker (get_all_tickers : ticker_feed)
  (selected_ticker : string) : M bool :=
  _ <- getattr "client" client ;;
  all_tickers <- (fun w => (get_all_tickers (sent w), w)) ;;
  ret (scan_tickers selected_ticker all_tickers).

(** ** What a method may do to the session *)

(** From [w] to [w'] the object is untouched and at most one request
    went out, a kline request for [limit] candles of the asset. *)
Definition only_queried (limit : Z) (w w' : World) : Prop :=
  bot w' = bot w
  /\ (sent w' = sent w
      \/ exists interval : interval_token,
           sent w' = sent w ++ [GetKlines (asset (bot w)) interval limit]).

(** ** Sequences of insertions *)

(** [create_user] called once for each row of [rows], in order. *)
Definition create_users (db : Database) (rows : list user_row) : Database :=
  fold_left
    (fun d r =>
       create_user d (username r) (password r) (row_api_key r) (row_secret_key r))
    rows db.

(** ** Further inputs of the examples *)

(** The session after [Bot()] and [connect] only. *)
Definition connected_world : World := snd (connect "key" "secret" fresh_world).

(** The session after [Bot()] and [setup_params] only. *)
Definition unconnected_world (trade_amount_ : float) : World :=
  snd (setup_params "BTCUSDT" trade_amount_ "15m" fresh_world).

(** A negative finite double, [- m * 2^e]. *)
Definition negative_float (m : positive) (e : Z) : float := S754_finite true m e.

(** A table that already holds one user, bob. *)
Definition table_with_bob : Database :=
  create_user Database_init "bob" "hash0" "k0" "s0".

(** An exchange that raises [e] on a kline request for [limit] candles and
    answers every other kline request with [window]. *)
Definition exchange_failing_on (limit : Z) (e : exn) (window : list kline)
  : Exchange :=
  {| ex_get_klines :=
       fun _ _ _ l => if Z.eqb l limit then Raise e else Ok window;
     ex_order_market_buy := fun _ _ _ => Ok tt;
     ex_order_market_sell := fun _ _ _ => Ok tt |}.

Definition two_tickers : list ticker :=
  [ {| tk_symbol := "ETHBTC"; tk_price := dec_of_N 1 |};
    {| tk_symbol := "BTCUSDT"; tk_price := dec_of_N 2 |} ].

(** ** Signs *)

(** A float that is not below zero: a zero, an infinity or a finite number
    with the sign bit clear, or a NaN. *)
Definition not_negative (x : float) : Prop :=
  match x with
  | S754_zero s | S754_infinity s | S754_finite s _ _ => s = false
  | S754_nan => True
  end.

(** ** Rounding errors *)

(** [2^e] as a rational number. *)
Definition pw (e : Z) : Q := (2 # 1) ^ e.

(** The distance from 1 to the next double, [2^-52], and the least
    positive double, [2^-1074]. *)
Definition eps : Q := 1 # 4503599627370496.
Definition eta : Q := pw (-1074).

(** [r] is a zero or a finite number whose sign bit is [s]. *)
Definition sign_is (s : bool) (r : float) : Prop :=
  match r with
  | S754_zero s' | S754_finite s' _ _ => s' = s
  | _ => False
  end.

(** What a [location] says of an exact value [v] truncated to [m] units
    [P]: [v] is [m * P], or lies below, at, or above the middle of
    [m * P] and [(m + 1) * P]. *)
Definition located (v : Q) (m : Z) (P : Q) (l : location) : Prop :=
  match l with
  | loc_Exact => (v == inject_Z m * P)%Q
  | loc_Inexact Lt => (inject_Z m * P < v)%Q /\ (v < (inject_Z m + (1 # 2)) * P)%Q
  | loc_Inexact Eq => (v == (inject_Z m + (1 # 2)) * P)%Q
  | loc_Inexact Gt => ((inject_Z m + (1 # 2)) * P < v)%Q /\ (v < (inject_Z m + 1) * P)%Q
  end.

(** [r] is a double that is not negative and differs from the real
    [0 <= v] by the error of one rounding to nearest at most: half of
    [eps * v], or half of [eta] near zero. *)
Definition approx (r : float) (v : Q) : Prop :=
  sign_is false r
  /\ (to_Q r - v <= (1 # 2) * (eps * v + eta))%Q
  /\ (v - to_Q r <= (1 # 2) * (eps * v + eta))%Q.

(** Twenty-five candles that all close at 0.1. *)
Definition tenth_window : list kline :=
  map (fun t => flat_kline (Z.of_nat t)
                  {| dec_neg := false; dec_num := 1; dec_places := 1 |})
      (seq 1 25).

(** * Lemmas *)

(** Opens a method down to the attribute reads and client calls it makes. *)
Ltac run_method m :=
  unfold m, bind, getattr, get_asset, get_trade_amount, lift, ret,
    client_get_klines, client_order_market_buy, client_order_market_sell.

Section ListFacts.

Context {A : Type}.

Lemma StronglySorted_snoc (R : A -> A -> Prop) (l : list A) (a : A) :
  StronglySorted R l ->
  Forall (fun x => R x a) l ->
  StronglySorted R (l ++ [a]).
Proof.
  induction 1 as [| x l Hs IH Hx]; intros Ha; simpl.
  - constructor; constructor.
  - inversion Ha as [| ? ? Hxa Hla]; subst.
    constructor.
    + apply IH; assumption.
    + apply Forall_app; split; [assumption | constructor; [assumption | constructor]].
Qed.

Lemma StronglySorted_rev (R : A -> A -> Prop) (l : list A) :
  StronglySorted R l -> StronglySorted (fun x y => R y x) (rev l).
Proof.
  induction 1 as [| x l Hs IH Hx]; simpl.
  - constructor.
  - apply StronglySorted_snoc; [exact IH |].
    apply Forall_rev. exact Hx.
Qed.

Lemma StronglySorted_app_inv (R : A -> A -> Prop) (l1 l2 : list A) :
  StronglySorted R (l1 ++ l2) ->
  forall x y : A, In x l1 -> In y l2 -> R x y.
Proof.
  induction l1 as [| a l1 IH]; simpl; intros Hs x y Hx Hy.
  - contradiction.
  - inversion Hs as [| ? ? Hs' Hall]; subst.
    destruct Hx as [Hx | Hx].
    + subst x. rewrite Forall_forall in Hall. apply Hall.
      apply in_or_app. right. exact Hy.
    + apply (IH Hs' x y Hx Hy).
Qed.

(** Reading indices [s, s+n) of a list that has them all. *)
Lemma comprehension_seq_ok {B : Type} (f : A -> B) (l : list A) :
  forall (n s : nat),
    (s + n <= List.length l)%nat ->
    comprehension (fun i => rbind (getitem l i) (fun k => Ok (f k))) (seq s n)
    = Ok (map f (firstn n (skipn s l))).
Proof.
  induction n as [| n IH]; intros s Hlen; simpl.
  - reflexivity.
  - unfold getitem at 1.
    destruct (nth_error l s) as [a |] eqn:Hnth.
    + simpl. rewrite IH by lia. simpl.
      destruct (skipn s l) as [| b rest] eqn:Hskip.
      * exfalso.
        assert (Hl : List.length (skipn s l) = (List.length l - s)%nat) by apply length_skipn.
        rewrite Hskip in Hl. simpl in Hl. lia.
      * assert (Hb : nth_error (skipn s l) 0 = Some a).
        { rewrite nth_error_skipn. rewrite Nat.add_0_r. exact Hnth. }
        rewrite Hskip in Hb. simpl in Hb. inversion Hb; subst b.
        assert (Hrest : skipn (S s) l = rest).
        { replace (S s) with (1 + s)%nat by lia.
          rewrite <- skipn_skipn. rewrite Hskip. reflexivity. }
        change (match l with [] => [] | _ :: l0 => skipn s l0 end)
          with (skipn (S s) l).
        rewrite Hrest. reflexivity.
    + apply nth_error_None in Hnth. lia.
Qed.

(** Reading indices [s, s+n) of a list that ends inside that range. *)
Lemma comprehension_seq_short {B : Type} (f : A -> B) (l : list A) :
  forall (n s : nat),
    (s <= List.length l)%nat ->
    (List.length l < s + n)%nat ->
    comprehension (fun i => rbind (getitem l i) (fun k => Ok (f k))) (seq s n)
    = Raise IndexError.
Proof.
  induction n as [| n IH]; intros s Hlo Hhi; simpl.
  - lia.
  - unfold getitem at 1.
    destruct (nth_error l s) as [a |] eqn:Hnth.
    + simpl.
      assert (Hs : (s < List.length l)%nat).
      { apply nth_error_Some. rewrite Hnth. discriminate. }
      rewrite IH by lia. reflexivity.
    + reflexivity.
Qed.

End ListFacts.

(** What [get_klines] does once the attributes exist, the interval code is
    a key of the table and the exchange answers with a window. *)
Lemma get_klines_run (ex : Exchange) (w : World) (limit_ : Z) (c : Client)
  (code : string) (interval : interval_token) (window : list kline) :
  client (bot w) = Some c ->
  time_interval (bot w) = Some code ->
  dict_getitem kline_intervals code = Ok interval ->
  ex_get_klines ex (sent w) (asset (bot w)) interval limit_ = Ok window ->
  get_klines ex limit_ w
  = (Ok (rev window), log (GetKlines (asset (bot w)) interval limit_) w).
Proof.
  intros Hc Ht Hd Hx.
  run_method get_klines.
  rewrite Hc. cbv beta iota. rewrite Ht. cbv beta iota.
  rewrite Hd. cbv beta iota. rewrite Hx. reflexivity.
Qed.

(** An exception raised by the exchange on the kline request passes
    through [get_klines] unchanged. *)
Lemma get_klines_exchange_error (ex : Exchange) (w : World) (limit_ : Z)
  (c : Client) (code : string) (interval : interval_token) (e : exn) :
  client (bot w) = Some c ->
  time_interval (bot w) = Some code ->
  dict_getitem kline_intervals code = Ok interval ->
  ex_get_klines ex (sent w) (asset (bot w)) interval limit_ = Raise e ->
  get_klines ex limit_ w
  = (Raise e, log (GetKlines (asset (bot w)) interval limit_) w).
Proof.
  intros Hc Ht Hd Hx.
  run_method get_klines.
  rewrite Hc. cbv beta iota. rewrite Ht. cbv beta iota.
  rewrite Hd. cbv beta iota. rewrite Hx. reflexivity.
Qed.

Lemma dict_getitem_missing {V : Type} (d : list (string * V)) (key : string) :
  ~ In key (map fst d) -> dict_getitem d key = Raise (KeyError key).
Proof.
  induction d as [| [k v] d IH]; intros Hnot; simpl.
  - reflexivity.
  - destruct (String.eqb key k) eqn:Heq.
    + apply String.eqb_eq in Heq. exfalso. apply Hnot. left. symmetry. exact Heq.
    + apply IH. intros Hin. apply Hnot. right. exact Hin.
Qed.

(** The keys of the table are the eight interval codes. *)
Lemma kline_intervals_keys (code : string) :
  In code ["15m"; "30m"; "1H"; "2H"; "4H"; "6H"; "12H"; "1D"]%string
  <-> exists interval : interval_token,
        dict_getitem kline_intervals code = Ok interval.
Proof.
  split.
  - intros Hin. simpl in Hin.
    repeat (destruct Hin as [Hin | Hin];
            [subst code; eexists; reflexivity |]).
    contradiction.
  - intros [interval Hd].
    destruct (in_dec string_dec code
                ["15m"; "30m"; "1H"; "2H"; "4H"; "6H"; "12H"; "1D"]%string)
      as [Hin | Hnot]; [exact Hin |].
    rewrite (dict_getitem_missing kline_intervals code Hnot) in Hd.
    discriminate Hd.
Qed.

Lemma get_bbands_run (ex : Exchange) (w w' : World) (klines : list kline) :
  get_klines ex 25 w = (Ok klines, w') ->
  get_bbands ex w = (rbind (last_20_closes klines) lower_band, w').
Proof.
  intros Hk. unfold get_bbands, bind, lift. rewrite Hk.
  destruct (last_20_closes klines); reflexivity.
Qed.

(** ** Rounding errors of the operations on doubles

    Every operation of [PyFloat] returns the exact result rounded once to
    the nearest double.  The lemmas below follow [binary_round_aux]
    through its shifts and bound that rounding error over the rationals,
    for results that are not negative and far below the overflow
    threshold: the double returned for an exact result [v] is within
    [(eps * v + eta) / 2] of [v]. *)

(** *** Powers of two *)
Lemma pw_pos (e : Z) : (0 < pw e)%Q.
Proof. apply Qpower_0_lt. reflexivity. Qed.

Lemma pw_add (a b : Z) : (pw (a + b) == pw a * pw b)%Q.
Proof. apply Qpower_plus. discriminate. Qed.

Lemma pw_le (a b : Z) : a <= b -> (pw a <= pw b)%Q.
Proof. intros H. apply Qpower_le_compat_l; [exact H | discriminate]. Qed.

Lemma pw_le_inv (a b : Z) : (pw a <= pw b)%Q -> a <= b.
Proof. intros H. apply (Qpower_le_compat_l_inv (2#1)); [exact H | reflexivity]. Qed.

Lemma pw_Z (e : Z) : 0 <= e -> (pw e == inject_Z (2 ^ e))%Q.
Proof. intros H. unfold pw. rewrite (Zpower_Qpower 2 e H). reflexivity. Qed.

Lemma pw_0 : (pw 0 == 1)%Q.
Proof. reflexivity. Qed.

(** The value of a finite double, by its mantissa and exponent. *)
Lemma to_Q_finite (s : bool) (m : positive) (e : Z) :
  (to_Q (S754_finite s m e)
   == (if s then - (inject_Z (Z.pos m) * pw e) else inject_Z (Z.pos m) * pw e))%Q.
Proof.
  unfold to_Q. destruct (0 <=? e) eqn:He.
  - apply Z.leb_le in He.
    assert (H : (inject_Z (Z.pos m * 2 ^ e) == inject_Z (Z.pos m) * pw e)%Q).
    { rewrite inject_Z_mult, (pw_Z e He). reflexivity. }
    destruct s; rewrite H; reflexivity.
  - apply Z.leb_gt in He.
    assert (H : (Z.pos m # Z.to_pos (2 ^ (- e)) == inject_Z (Z.pos m) * pw e)%Q).
    { rewrite Qmake_Qdiv. unfold Qdiv.
      rewrite Z2Pos.id by (apply Z.pow_pos_nonneg; lia).
      replace e with (- (- e)) at 2 by lia.
      unfold pw. rewrite Qpower_opp. fold (pw (- e)).
      rewrite (pw_Z (- e)) by lia. reflexivity. }
    destruct s; rewrite H; reflexivity.
Qed.

(** [digits2_pos p] is the number of binary digits of [p]. *)
Lemma digits2_pos_bounds (p : positive) :
  2 ^ (Z.pos (digits2_pos p) - 1) <= Z.pos p < 2 ^ Z.pos (digits2_pos p).
Proof.
  induction p as [p IH | p IH |]; simpl digits2_pos.
  - rewrite Pos2Z.inj_succ.
    replace (Z.succ (Z.pos (digits2_pos p)) - 1) with (Z.succ (Z.pos (digits2_pos p) - 1)) by lia.
    rewrite !Z.pow_succ_r by lia. lia.
  - rewrite Pos2Z.inj_succ.
    replace (Z.succ (Z.pos (digits2_pos p)) - 1) with (Z.succ (Z.pos (digits2_pos p) - 1)) by lia.
    rewrite !Z.pow_succ_r by lia. lia.
  - simpl. lia.
Qed.

(** *** Truncation of the mantissa

    Shifting right by one bit halves the mantissa, rounding down. *)
Lemma shr_1_div (mrs : shr_record) :
  0 <= shr_m mrs -> shr_m (shr_1 mrs) = shr_m mrs / 2.
Proof.
  destruct mrs as [m r s]. simpl. intros Hm.
  destruct m as [| p | p]; [reflexivity | | lia].
  destruct p as [p | p |]; simpl.
  - rewrite (Pos2Z.inj_xI p). apply (Z.div_unique _ 2 _ 1); lia.
  - rewrite (Pos2Z.inj_xO p). apply (Z.div_unique _ 2 _ 0); lia.
  - reflexivity.
Qed.

Lemma iter_shr_1_div (p : positive) :
  forall mrs : shr_record,
    0 <= shr_m mrs ->
    shr_m (iter_pos shr_1 p mrs) = shr_m mrs / 2 ^ Z.pos p.
Proof.
  induction p as [p IH | p IH |]; intros mrs Hm; simpl iter_pos;
    try (assert (Hp : 0 < 2 ^ Z.pos p) by (apply Z.pow_pos_nonneg; lia)).
  - assert (H1 : 0 <= shr_m (shr_1 mrs)).
    { rewrite shr_1_div by exact Hm. apply Z.div_pos; lia. }
    assert (H2 : 0 <= shr_m (iter_pos shr_1 p (shr_1 mrs))).
    { rewrite IH by exact H1. apply Z.div_pos; [exact H1 | apply Z.pow_pos_nonneg; lia]. }
    rewrite IH by exact H2. rewrite IH by exact H1. rewrite shr_1_div by exact Hm.
    rewrite !Z.div_div by lia.
    assert (E : 2 ^ Z.pos p~1 = 2 * 2 ^ Z.pos p * 2 ^ Z.pos p).
    { rewrite (Pos2Z.inj_xI p).
      replace (2 * Z.pos p + 1) with (1 + Z.pos p + Z.pos p) by lia.
      rewrite !Z.pow_add_r by lia. rewrite Z.pow_1_r. reflexivity. }
    rewrite E. f_equal. ring.
  - assert (H2 : 0 <= shr_m (iter_pos shr_1 p mrs)).
    { rewrite IH by exact Hm. apply Z.div_pos; [exact Hm | apply Z.pow_pos_nonneg; lia]. }
    rewrite IH by exact H2. rewrite IH by exact Hm.
    rewrite Z.div_div by lia.
    assert (E : 2 ^ Z.pos p~0 = 2 ^ Z.pos p * 2 ^ Z.pos p).
    { rewrite (Pos2Z.inj_xO p).
      replace (2 * Z.pos p) with (Z.pos p + Z.pos p) by lia.
      apply Z.pow_add_r; lia. }
    rewrite E. reflexivity.
  - rewrite shr_1_div by exact Hm. reflexivity.
Qed.

Lemma fexp_eq (x : Z) : fexp prec emax x = Z.max (x - 53) (-1074).
Proof. reflexivity. Qed.

Lemma shr_record_of_loc_m (m : Z) (l : location) :
  shr_m (shr_record_of_loc m l) = m.
Proof. destruct l as [| c]; [reflexivity | destruct c; reflexivity]. Qed.

Lemma loc_of_shr_record_of_loc (m : Z) (l : location) :
  loc_of_shr_record (shr_record_of_loc m l) = l.
Proof. destruct l as [| c]; [reflexivity | destruct c; reflexivity]. Qed.

(** [shr_fexp] truncates the mantissa to the exponent the format allows
    for a value of that size. *)
Lemma shr_fexp_spec (mz ez : Z) (l : location) :
  0 <= mz ->
  exists (mrs : shr_record) (e1 : Z),
    shr_fexp prec emax mz ez l = (mrs, e1)
    /\ e1 = Z.max ez (fexp prec emax (Zdigits2 mz + ez))
    /\ shr_m mrs = mz / 2 ^ (e1 - ez)
    /\ (e1 = ez -> loc_of_shr_record mrs = l).
Proof.
  intros Hm. unfold shr_fexp, shr.
  remember (fexp prec emax (Zdigits2 mz + ez)) as fe eqn:Hfe.
  destruct (fe - ez) as [| p | p] eqn:Hn.
  - exists (shr_record_of_loc mz l), ez.
    split; [reflexivity |]. split; [lia |].
    split.
    + rewrite shr_record_of_loc_m, Z.sub_diag. simpl. rewrite Z.div_1_r. reflexivity.
    + intros _. apply loc_of_shr_record_of_loc.
  - exists (iter_pos shr_1 p (shr_record_of_loc mz l)), (ez + Z.pos p).
    split; [reflexivity |]. split; [lia |].
    split.
    + rewrite iter_shr_1_div by (rewrite shr_record_of_loc_m; exact Hm).
      rewrite shr_record_of_loc_m. f_equal. f_equal. lia.
    + intros H. lia.
  - exists (shr_record_of_loc mz l), ez.
    split; [reflexivity |]. split; [lia |].
    split.
    + rewrite shr_record_of_loc_m, Z.sub_diag. simpl. rewrite Z.div_1_r. reflexivity.
    + intros _. apply loc_of_shr_record_of_loc.
Qed.

(** One unit in the last place of a positive value is at most [eps] times
    the value, unless the exponent is the least one of the format. *)
Lemma pw_fexp (p e : Z) :
  0 < p ->
  (pw (fexp prec emax (Zdigits2 p + e)) <= eps * (inject_Z p * pw e))%Q
  \/ fexp prec emax (Zdigits2 p + e) = -1074.
Proof.
  intros Hp. rewrite fexp_eq.
  destruct (Z.max_spec (Zdigits2 p + e - 53) (-1074)) as [[Hlt Hmax] | [Hle Hmax]];
    rewrite Hmax; [right; reflexivity | left].
  destruct p as [| p | p]; try lia. simpl Zdigits2.
  pose proof (digits2_pos_bounds p) as [Hlo _].
  set (d := Z.pos (digits2_pos p)) in *.
  assert (Hd : 1 <= d) by (unfold d; lia).
  replace (d + e - 53) with ((-52) + ((d - 1) + e)) by lia.
  rewrite pw_add, pw_add, (pw_Z (d - 1)) by lia.
  assert (H : (inject_Z (2 ^ (d - 1)) <= inject_Z (Z.pos p))%Q) by (rewrite <- Zle_Qle; exact Hlo).
  pose proof (pw_pos e) as Hpe.
  assert (He : (pw (-52) == eps)%Q) by reflexivity.
  rewrite He. unfold eps in *.
  assert (Hq : (0 <= inject_Z (2 ^ (d - 1)))%Q).
  { change 0%Q with (inject_Z 0). rewrite <- Zle_Qle. apply Z.pow_nonneg. lia. }
  nra.
Qed.

(** *** One rounding

    Rounding keeps the truncated mantissa or takes the next one. *)
Lemma round_nearest_even_bounds (m : Z) (l : location) :
  m <= round_nearest_even m l <= m + 1
  /\ (l = loc_Exact -> round_nearest_even m l = m).
Proof.
  unfold round_nearest_even. split.
  - destruct l as [| c]; [lia |]. destruct c; [destruct (Z.even m); lia | lia | lia].
  - intros H. subst l. reflexivity.
Qed.

Lemma eps_pos : (0 < eps)%Q.
Proof. reflexivity. Qed.

Lemma eta_pos : (0 < eta)%Q.
Proof. apply pw_pos. Qed.

Lemma located_unit (v : Q) (m : Z) (P P' : Q) (l : location) :
  (P == P')%Q -> located v m P l -> located v m P' l.
Proof.
  intros E. destruct l as [| c]; [| destruct c]; cbv beta iota delta [located];
    rewrite E; intros H; exact H.
Qed.

(** The round and sticky bits kept while shifting locate the exact value
    above the truncated mantissa. *)
Lemma shr_1_located (v P : Q) (mrs : shr_record) :
  (0 < P)%Q -> 0 <= shr_m mrs ->
  located v (shr_m mrs) P (loc_of_shr_record mrs) ->
  located v (shr_m (shr_1 mrs)) (2 * P) (loc_of_shr_record (shr_1 mrs)).
Proof.
  intros HP Hm. destruct mrs as [m r s].
  cbv beta iota delta [shr_m] in Hm.
  destruct m as [| p | p]; [| | lia].
  - destruct r, s;
      cbv beta iota zeta delta [located loc_of_shr_record shr_1 shr_m orb];
      change (inject_Z 0) with 0%Q; intros H; lra.
  - destruct p as [p | p |].
    + assert (E : (inject_Z (Z.pos p~1) == 2 * inject_Z (Z.pos p) + 1)%Q).
      { rewrite (Pos2Z.inj_xI p), inject_Z_plus, inject_Z_mult. reflexivity. }
      destruct r, s;
        cbv beta iota zeta delta [located loc_of_shr_record shr_1 shr_m orb];
        rewrite E; intros H; lra.
    + assert (E : (inject_Z (Z.pos p~0) == 2 * inject_Z (Z.pos p))%Q).
      { rewrite (Pos2Z.inj_xO p), inject_Z_mult. reflexivity. }
      destruct r, s;
        cbv beta iota zeta delta [located loc_of_shr_record shr_1 shr_m orb];
        rewrite E; intros H; lra.
    + destruct r, s;
        cbv beta iota zeta delta [located loc_of_shr_record shr_1 shr_m orb];
        change (inject_Z 0) with 0%Q; change (inject_Z 1) with 1%Q; intros H; lra.
Qed.

Lemma iter_shr_1_m_nonneg (p : positive) (mrs : shr_record) :
  0 <= shr_m mrs -> 0 <= shr_m (iter_pos shr_1 p mrs).
Proof.
  intros H. rewrite iter_shr_1_div by exact H.
  apply Z.div_pos; [exact H | apply Z.pow_pos_nonneg; lia].
Qed.

Lemma iter_shr_1_located (p : positive) :
  forall (mrs : shr_record) (v P : Q),
    (0 < P)%Q -> 0 <= shr_m mrs ->
    located v (shr_m mrs) P (loc_of_shr_record mrs) ->
    located v (shr_m (iter_pos shr_1 p mrs)) (pw (Z.pos p) * P)
      (loc_of_shr_record (iter_pos shr_1 p mrs)).
Proof.
  induction p as [p IH | p IH |]; intros mrs v P HP Hm H; simpl iter_pos.
  - pose proof (pw_pos (Z.pos p)) as Hpp.
    assert (H1 : 0 <= shr_m (shr_1 mrs)).
    { rewrite shr_1_div by exact Hm. apply Z.div_pos; lia. }
    pose proof (iter_shr_1_m_nonneg p _ H1) as H2.
    apply (located_unit _ _ (pw (Z.pos p) * (pw (Z.pos p) * (2 * P)))).
    { rewrite (Pos2Z.inj_xI p).
      replace (2 * Z.pos p + 1) with (Z.pos p + (Z.pos p + 1)) by lia.
      rewrite !pw_add. assert (E : (pw 1 == 2)%Q) by reflexivity. rewrite E. ring. }
    apply IH; [nra | exact H2 |].
    apply IH; [lra | exact H1 |].
    apply shr_1_located; assumption.
  - pose proof (pw_pos (Z.pos p)) as Hpp.
    pose proof (iter_shr_1_m_nonneg p _ Hm) as H2.
    apply (located_unit _ _ (pw (Z.pos p) * (pw (Z.pos p) * P))).
    { rewrite (Pos2Z.inj_xO p).
      replace (2 * Z.pos p) with (Z.pos p + Z.pos p) by lia.
      rewrite !pw_add. ring. }
    apply IH; [nra | exact H2 |].
    apply IH; [lra | exact Hm | exact H].
  - apply (located_unit _ _ (2 * P)).
    { assert (E : (pw 1 == 2)%Q) by reflexivity. rewrite E. reflexivity. }
    apply shr_1_located; assumption.
Qed.

Lemma shr_fexp_located (mz ez : Z) (l : location) (v : Q) :
  0 <= mz ->
  located v mz (pw ez) l ->
  located v (shr_m (fst (shr_fexp prec emax mz ez l)))
    (pw (snd (shr_fexp prec emax mz ez l)))
    (loc_of_shr_record (fst (shr_fexp prec emax mz ez l))).
Proof.
  intros Hm H. unfold shr_fexp, shr.
  destruct (fexp prec emax (Zdigits2 mz + ez) - ez) as [| p | p] eqn:Hn; simpl fst; simpl snd.
  - rewrite shr_record_of_loc_m, loc_of_shr_record_of_loc. exact H.
  - apply (located_unit _ _ (pw (Z.pos p) * pw ez)).
    { rewrite Z.add_comm, pw_add. reflexivity. }
    apply iter_shr_1_located; [apply pw_pos | |].
    + rewrite shr_record_of_loc_m. exact Hm.
    + rewrite shr_record_of_loc_m, loc_of_shr_record_of_loc. exact H.
  - rewrite shr_record_of_loc_m, loc_of_shr_record_of_loc. exact H.
Qed.

Lemma Zdigits2_le (m k : Z) : 0 <= k -> 0 <= m < 2 ^ k -> Zdigits2 m <= k.
Proof.
  intros Hk [H0 H1]. destruct m as [| p | p]; [simpl; lia | | lia].
  simpl Zdigits2. pose proof (digits2_pos_bounds p) as [Hlo _].
  assert (H : 2 ^ (Z.pos (digits2_pos p) - 1) < 2 ^ k) by lia.
  apply Z.pow_lt_mono_r_iff in H; lia.
Qed.

Lemma Zdigits2_pow2 (k : Z) : 0 <= k -> Zdigits2 (2 ^ k) = k + 1.
Proof.
  intros Hk. assert (Hp : 0 < 2 ^ k) by (apply Z.pow_pos_nonneg; lia).
  destruct (2 ^ k) as [| p | p] eqn:E; try lia.
  simpl Zdigits2. pose proof (digits2_pos_bounds p) as [Hlo Hhi].
  rewrite <- E in Hlo, Hhi.
  apply Z.pow_le_mono_r_iff in Hlo; [| lia | lia].
  apply Z.pow_lt_mono_r_iff in Hhi; lia.
Qed.

Lemma Zdigits2_bound (m : Z) : 0 <= m -> m < 2 ^ Zdigits2 m \/ m = 0.
Proof.
  intros H. destruct m as [| p | p]; [right; reflexivity | left | lia].
  simpl Zdigits2. apply digits2_pos_bounds.
Qed.

Lemma located_bounds (v : Q) (m : Z) (P : Q) (l : location) :
  (0 < P)%Q -> located v m P l ->
  (inject_Z m * P <= v)%Q /\ (v <= inject_Z m * P + P)%Q
  /\ (l = loc_Exact -> (v == inject_Z m * P)%Q).
Proof.
  intros HP. destruct l as [| c]; [| destruct c]; cbv beta iota delta [located]; intros H.
  - split; [lra | split; [lra | intros _; exact H]].
  - split; [lra | split; [lra | intros E; discriminate E]].
  - split; [lra | split; [lra | intros E; discriminate E]].
  - split; [lra | split; [lra | intros E; discriminate E]].
Qed.

(** Rounding to nearest: the mantissa chosen is within half a unit of the
    exact result. *)
Lemma round_nearest_even_located (v : Q) (m : Z) (P : Q) (l : location) :
  (0 < P)%Q -> located v m P l ->
  (inject_Z (round_nearest_even m l) * P - v <= (1 # 2) * P)%Q
  /\ (v - inject_Z (round_nearest_even m l) * P <= (1 # 2) * P)%Q
  /\ (l = loc_Exact -> (inject_Z (round_nearest_even m l) * P == v)%Q).
Proof.
  intros HP.
  assert (E1 : (inject_Z (m + 1) == inject_Z m + 1)%Q) by (rewrite inject_Z_plus; reflexivity).
  destruct l as [| c]; [| destruct c];
    cbv beta iota delta [located round_nearest_even]; intros H.
  - split; [lra | split; [lra | intros _; symmetry; exact H]].
  - destruct (Z.even m); [| rewrite E1];
      (split; [lra | split; [lra | intros E; discriminate E]]).
  - split; [lra | split; [lra | intros E; discriminate E]].
  - rewrite E1. split; [lra | split; [lra | intros E; discriminate E]].
Qed.

(** The rounding step of every operation, to the nearest double.
    [mz * 2^ez] is the truncated result and [l] locates the exact result
    [v] above it; the double returned is within half a unit in the last
    place of [v]. *)
Lemma round_aux_nearest (s : bool) (mz ez : Z) (l : location) (v : Q) :
  0 <= mz ->
  located v mz (pw ez) l ->
  (l = loc_Exact \/ (pw ez <= eps * v + eta)%Q) ->
  (v <= pw 900)%Q ->
  exists R : Q,
    (0 <= R)%Q
    /\ sign_is s (binary_round_aux prec emax s mz ez l)
    /\ (to_Q (binary_round_aux prec emax s mz ez l) == if s then - R else R)%Q
    /\ (R - v <= (1 # 2) * (eps * v + eta))%Q
    /\ (v - R <= (1 # 2) * (eps * v + eta))%Q.
Proof.
  intros Hmz Hloc Hcond Hbig.
  destruct (shr_fexp_spec mz ez l Hmz) as (mrs1 & e1 & Hs1 & He1 & Hm1 & Hl1).
  pose proof (shr_fexp_located mz ez l v Hmz Hloc) as Hloc1.
  rewrite Hs1 in Hloc1. simpl fst in Hloc1. simpl snd in Hloc1.
  set (fe1 := fexp prec emax (Zdigits2 mz + ez)) in *.
  assert (Hfe1 : fe1 = Z.max (Zdigits2 mz + ez - 53) (-1074)) by (unfold fe1; apply fexp_eq).
  set (m1 := shr_m mrs1) in *.
  assert (Hm1pos : 0 <= m1).
  { rewrite Hm1. apply Z.div_pos; [exact Hmz | apply Z.pow_pos_nonneg; lia]. }
  pose proof (pw_pos ez) as HP0. pose proof (pw_pos e1) as HP1.
  destruct (located_bounds v mz (pw ez) l HP0 Hloc) as (Hlo & Hhi & Hex).
  destruct (round_nearest_even_bounds m1 (loc_of_shr_record mrs1)) as [Hm2 Hm2x].
  destruct (round_nearest_even_located v m1 (pw e1) _ HP1 Hloc1) as (N1 & N2 & N3).
  set (m2 := round_nearest_even m1 (loc_of_shr_record mrs1)) in *.
  assert (Hm2pos : 0 <= m2) by lia.
  destruct (shr_fexp_spec m2 e1 loc_Exact Hm2pos) as (mrs3 & e3 & Hs3 & He3 & Hm3 & _).
  set (fe3 := fexp prec emax (Zdigits2 m2 + e1)) in *.
  assert (Hfe3 : fe3 = Z.max (Zdigits2 m2 + e1 - 53) (-1074)) by (unfold fe3; apply fexp_eq).
  set (m3 := shr_m mrs3) in *.
  assert (Hres : binary_round_aux prec emax s mz ez l
                 = match m3 with
                   | 0 => S754_zero s
                   | Z.pos m => if e3 <=? emax - prec then S754_finite s m e3
                                else S754_infinity s
                   | Z.neg _ => S754_nan
                   end).
  { unfold binary_round_aux. rewrite Hs1. fold m1. fold m2. rewrite Hs3. reflexivity. }
  set (P0 := pw ez) in *. set (V := (inject_Z mz * P0)%Q) in *.
  set (P1 := pw e1) in *. set (A2 := (inject_Z m2 * P1)%Q) in *.
  pose proof eps_pos as Heps. pose proof eta_pos as Heta.
  assert (HV : (0 <= V)%Q).
  { unfold V. apply Qmult_le_0_compat;
      [change 0%Q with (inject_Z 0); rewrite <- Zle_Qle; exact Hmz
      | apply Qlt_le_weak; exact HP0]. }
  (* one unit of the rounded mantissa is small *)
  assert (K1 : (P1 <= eps * v + eta)%Q \/ (A2 == v)%Q).
  { destruct (Z.eq_dec e1 fe1) as [E | E].
    - left. destruct (Z.eq_dec mz 0) as [Z0 | Z0].
      + assert (fe1 = -1074) by (rewrite Z0 in Hfe1; simpl Zdigits2 in Hfe1; lia).
        unfold P1. rewrite E, H. fold eta. unfold eps. lra.
      + destruct (pw_fexp mz ez ltac:(lia)) as [Hb | Hb]; fold fe1 in Hb.
        * unfold P1. rewrite E. fold P0 in Hb. fold V in Hb. unfold eps in *. lra.
        * unfold P1. rewrite E, Hb. fold eta. unfold eps. lra.
    - assert (He : e1 = ez) by lia.
      destruct Hcond as [Hl | Hc].
      + right. apply N3. rewrite (Hl1 He). exact Hl.
      + left. unfold P1. rewrite He. exact Hc. }
  (* the mantissa has 53 bits at most, or is 2^53 *)
  assert (Hm1lt : m1 < 2 ^ 53).
  { destruct (Zdigits2_bound mz Hmz) as [Hd | Z0].
    - rewrite Hm1. apply Z.div_lt_upper_bound; [apply Z.pow_pos_nonneg; lia |].
      rewrite <- Z.pow_add_r by lia.
      apply Z.lt_le_trans with (2 ^ Zdigits2 mz); [exact Hd |].
      apply Z.pow_le_mono_r; lia.
    - rewrite Hm1, Z0. rewrite Z.div_0_l; [lia |].
      apply Z.pow_nonzero; lia. }
  assert (He1min : -1074 <= e1) by lia.
  assert (K2 : (e3 = e1 /\ m3 = m2) \/ (e3 = e1 + 1 /\ m2 = 2 ^ 53 /\ m3 = 2 ^ 52)).
  { destruct (Z.eq_dec m2 (2 ^ 53)) as [E | E].
    - right. assert (Hd : Zdigits2 m2 = 54) by (rewrite E; apply (Zdigits2_pow2 53); lia).
      assert (E3 : e3 = e1 + 1) by lia.
      split; [exact E3 |]. split; [exact E |].
      rewrite Hm3, E3, E. replace (e1 + 1 - e1) with 1 by lia. reflexivity.
    - left. assert (Hd : Zdigits2 m2 <= 53) by (apply Zdigits2_le; lia).
      assert (E3 : e3 = e1) by lia.
      split; [exact E3 |]. rewrite Hm3, E3, Z.sub_diag. simpl. apply Z.div_1_r. }
  set (P3 := pw e3) in *.
  assert (HRA : (inject_Z m3 * P3 == A2)%Q /\ (P3 <= 2 * P1)%Q).
  { destruct K2 as [(E3 & E4) | (E3 & E4 & E5)].
    - unfold P3, A2, P1. rewrite E3, E4. split; [reflexivity | fold P1; lra].
    - unfold P3, A2. rewrite E3, E4, E5, Z.add_comm, pw_add. fold P1.
      assert (Ep : (pw 1 == 2)%Q) by reflexivity. rewrite Ep.
      change (2 ^ 53) with (2 * 2 ^ 52). rewrite inject_Z_mult.
      change (inject_Z 2) with 2%Q. split; [ring | lra]. }
  destruct HRA as [HRA HP3].
  exists A2.
  assert (HA2 : (0 <= A2)%Q).
  { unfold A2. apply Qmult_le_0_compat;
      [change 0%Q with (inject_Z 0); rewrite <- Zle_Qle; exact Hm2pos | lra]. }
  assert (Heta900 : (eta <= pw 900)%Q) by (apply pw_le; lia).
  set (B := pw 900) in *.
  assert (Hshape : m3 = 0 \/ exists p, m3 = Z.pos p /\ (e3 <=? emax - prec) = true).
  { destruct m3 as [| p | p] eqn:Em3; [left; reflexivity | right |].
    - exists p. split; [reflexivity |].
      apply Z.leb_le. unfold emax, prec.
      assert (Hm2ne : m2 <> 0).
      { intros Z0. destruct K2 as [(_ & E4) | (_ & E4 & _)]; [lia |].
        rewrite Z0 in E4. discriminate E4. }
      assert (HP1B : (P1 <= 2 * B)%Q).
      { destruct K1 as [K | K].
        - unfold eps in *. lra.
        - assert (H1 : (1 <= inject_Z m2)%Q).
          { change 1%Q with (inject_Z 1). rewrite <- Zle_Qle. lia. }
          assert (P1 <= A2)%Q by (unfold A2; nra). lra. }
      assert (H902 : (P3 <= pw 902)%Q).
      { assert (E : (pw 902 == 4 * B)%Q).
        { unfold B. change 902 with (2 + 900). rewrite pw_add. reflexivity. }
        rewrite E. lra. }
      apply pw_le_inv in H902. lia.
    - exfalso. destruct K2 as [(_ & E4) | (_ & _ & E5)]; [lia | discriminate E5]. }
  split; [exact HA2 |].
  split; [| split; [| split]].
  - rewrite Hres. destruct Hshape as [Z0 | (p & Ep & Hle)].
    + rewrite Z0. reflexivity.
    + rewrite Ep, Hle. reflexivity.
  - rewrite Hres. destruct Hshape as [Z0 | (p & Ep & Hle)].
    + rewrite Z0 in HRA |- *. unfold to_Q. destruct s; rewrite <- HRA; ring.
    + rewrite Ep in HRA |- *. rewrite Hle, to_Q_finite. fold P3.
      destruct s; rewrite <- HRA; reflexivity.
  - destruct K1 as [K | K]; unfold eps in *; lra.
  - destruct K1 as [K | K]; unfold eps in *; lra.
Qed.

Lemma iter_xO (m d : positive) : Z.pos (Pos.iter xO m d) = Z.pos m * 2 ^ Z.pos d.
Proof.
  induction d as [| d IH] using Pos.peano_ind.
  - simpl. lia.
  - rewrite Pos.iter_succ, Pos2Z.inj_succ, Z.pow_succ_r by lia.
    rewrite (Pos2Z.inj_xO (Pos.iter xO m d)), IH. ring.
Qed.

(** *** The operations

    [shl_align] lowers the exponent without changing the value. *)
Lemma shl_align_spec (mx : positive) (ex ex' : Z) :
  exists (mz : positive) (ez : Z),
    shl_align mx ex ex' = (mz, ez)
    /\ ez <= ex
    /\ Z.pos mz = Z.pos mx * 2 ^ (ex - ez)
    /\ (ex' <= ex -> ez = ex').
Proof.
  unfold shl_align. destruct (ex' - ex) as [| d | d] eqn:E.
  - exists mx, ex. rewrite Z.sub_diag. repeat split; lia.
  - exists mx, ex. rewrite Z.sub_diag. repeat split; lia.
  - exists (Pos.iter xO mx d), ex'. repeat split; try lia.
    rewrite iter_xO. f_equal. f_equal. lia.
Qed.

Lemma pw_shift (m e ez : Z) :
  ez <= e -> (inject_Z (m * 2 ^ (e - ez)) * pw ez == inject_Z m * pw e)%Q.
Proof.
  intros H. replace e with ((e - ez) + ez) at 2 by lia.
  rewrite pw_add, (pw_Z (e - ez)), inject_Z_mult by lia. ring.
Qed.

Lemma round_exact (s : bool) (mz ez : Z) :
  0 <= mz -> (inject_Z mz * pw ez <= pw 900)%Q ->
  exists R : Q,
    (0 <= R)%Q
    /\ sign_is s (binary_round_aux prec emax s mz ez loc_Exact)
    /\ (to_Q (binary_round_aux prec emax s mz ez loc_Exact) == if s then - R else R)%Q
    /\ (R - inject_Z mz * pw ez <= (1 # 2) * (eps * (inject_Z mz * pw ez) + eta))%Q
    /\ (inject_Z mz * pw ez - R <= (1 # 2) * (eps * (inject_Z mz * pw ez) + eta))%Q.
Proof.
  intros Hm Hb.
  apply (round_aux_nearest s mz ez loc_Exact (inject_Z mz * pw ez));
    [exact Hm | cbv beta iota delta [located]; reflexivity | left; reflexivity | exact Hb].
Qed.

(** Rounding an exact value [mx * 2^ex]. *)
Lemma binary_round_spec (s : bool) (mx : positive) (ex : Z) :
  (inject_Z (Z.pos mx) * pw ex <= pw 900)%Q ->
  exists R : Q,
    (0 <= R)%Q
    /\ sign_is s (binary_round prec emax s mx ex)
    /\ (to_Q (binary_round prec emax s mx ex) == if s then - R else R)%Q
    /\ (R - inject_Z (Z.pos mx) * pw ex
        <= (1 # 2) * (eps * (inject_Z (Z.pos mx) * pw ex) + eta))%Q
    /\ (inject_Z (Z.pos mx) * pw ex - R
        <= (1 # 2) * (eps * (inject_Z (Z.pos mx) * pw ex) + eta))%Q.
Proof.
  intros Hb. unfold binary_round.
  destruct (shl_align_spec mx ex (fexp prec emax (Z.pos (digits2_pos mx) + ex)))
    as (mz & ez & Hs & Hle & Hmz & _).
  rewrite Hs.
  assert (Hv : (inject_Z (Z.pos mz) * pw ez == inject_Z (Z.pos mx) * pw ex)%Q).
  { rewrite Hmz. apply pw_shift. exact Hle. }
  rewrite <- Hv in Hb.
  destruct (round_exact s (Z.pos mz) ez ltac:(lia) Hb) as (R & H0 & H1 & H2 & H3 & H4).
  rewrite Hv in H3, H4.
  exists R. repeat split; assumption.
Qed.

Lemma to_Q_opp (x : float) : (to_Q (SFopp x) == - to_Q x)%Q.
Proof.
  destruct x as [s | s | | s m e]; try reflexivity.
  simpl SFopp. rewrite !to_Q_finite. destruct s; simpl negb; cbv iota; ring.
Qed.

Lemma sign_false_cases (x : float) :
  sign_is false x ->
  x = S754_zero false \/ exists m e, x = S754_finite false m e.
Proof.
  destruct x as [s | s | | s m e]; simpl; intros H; try contradiction; subst s.
  - left. reflexivity.
  - right. exists m, e. reflexivity.
Qed.

Lemma approx_self (x : float) : sign_is false x -> approx x (to_Q x).
Proof.
  intros H. pose proof eta_pos.
  split; [exact H |].
  assert (0 <= to_Q x)%Q.
  { destruct (sign_false_cases x H) as [E | (m & e & E)]; subst x.
    - simpl. lra.
    - rewrite to_Q_finite. pose proof (pw_pos e).
      assert (0 < inject_Z (Z.pos m))%Q by (change 0%Q with (inject_Z 0); rewrite <- Zlt_Qlt; lia).
      nra. }
  unfold eps. split; lra.
Qed.

Lemma approx_eq (r : float) (v v' : Q) : (v == v')%Q -> approx r v -> approx r v'.
Proof.
  intros E (H1 & H2 & H3). split; [exact H1 |]. rewrite <- E. split; assumption.
Qed.

Lemma approx_zero : approx (S754_zero false) 0.
Proof.
  pose proof eta_pos. split; [reflexivity |]. unfold eps. simpl to_Q. split; lra.
Qed.

Lemma approx_round (r : float) (R v : Q) :
  sign_is false r -> (to_Q r == R)%Q ->
  (R - v <= (1 # 2) * (eps * v + eta))%Q ->
  (v - R <= (1 # 2) * (eps * v + eta))%Q ->
  approx r v.
Proof.
  intros H1 E H2 H3. split; [exact H1 |]. rewrite E. split; assumption.
Qed.

Lemma to_Q_pos (m : positive) (e : Z) : (0 < to_Q (S754_finite false m e))%Q.
Proof.
  rewrite to_Q_finite. pose proof (pw_pos e).
  assert (0 < inject_Z (Z.pos m))%Q by (change 0%Q with (inject_Z 0); rewrite <- Zlt_Qlt; lia).
  nra.
Qed.

Lemma aligned (m : positive) (e ez : Z) :
  ez <= e ->
  (inject_Z (Z.pos (fst (shl_align m e ez))) * pw ez == inject_Z (Z.pos m) * pw e)%Q.
Proof.
  intros H. destruct (shl_align_spec m e ez) as (mz & ez' & Hs & Hle & Hmz & He).
  rewrite Hs. simpl fst. rewrite Hmz, <- (He H). apply pw_shift. rewrite (He H). exact H.
Qed.

(** The sum of two doubles that are not negative. *)
Lemma add_spec (x y : float) :
  sign_is false x -> sign_is false y ->
  (to_Q x + to_Q y <= pw 900)%Q ->
  approx (add x y) (to_Q x + to_Q y).
Proof.
  intros Hx Hy Hb.
  destruct (sign_false_cases x Hx) as [Ex | (mx & ex & Ex)];
    destruct (sign_false_cases y Hy) as [Ey | (my & ey & Ey)]; subst x y.
  - apply (approx_eq _ 0); [simpl; ring | apply approx_zero].
  - apply (approx_eq _ (to_Q (S754_finite false my ey))); [change (to_Q (S754_zero false)) with 0%Q; ring |].
    apply approx_self. reflexivity.
  - apply (approx_eq _ (to_Q (S754_finite false mx ex))); [change (to_Q (S754_zero false)) with 0%Q; ring |].
    apply approx_self. reflexivity.
  - unfold add, SFadd. cbv zeta. unfold cond_Zopp.
    set (ez := Z.min ex ey).
    pose proof (aligned mx ex ez ltac:(lia)) as Ha.
    pose proof (aligned my ey ez ltac:(lia)) as Hb'.
    set (a := fst (shl_align mx ex ez)) in *.
    set (b := fst (shl_align my ey ez)) in *.
    change (Z.pos a + Z.pos b) with (Z.pos (a + b)).
    unfold binary_normalize.
    assert (Hv : (inject_Z (Z.pos (a + b)) * pw ez
                  == to_Q (S754_finite false mx ex) + to_Q (S754_finite false my ey))%Q).
    { rewrite !to_Q_finite, <- Ha, <- Hb', Pos2Z.inj_add, inject_Z_plus. ring. }
    rewrite <- Hv in Hb.
    destruct (binary_round_spec false (a + b) ez Hb) as (R & H0 & H1 & H2 & H3 & H4).
    apply (approx_eq _ _ _ Hv). exact (approx_round _ R _ H1 H2 H3 H4).
Qed.

Lemma sign_opp (r : float) : sign_is true r -> sign_is false (SFopp r).
Proof.
  destruct r as [s | s | | s m e]; simpl; intros H; try contradiction; subst s; reflexivity.
Qed.

(** The difference of two doubles that are not negative, whichever is
    the larger. *)
Lemma sub_spec (x y : float) :
  sign_is false x -> sign_is false y ->
  (to_Q x <= pw 900)%Q -> (to_Q y <= pw 900)%Q ->
  ((to_Q y <= to_Q x)%Q -> approx (sub x y) (to_Q x - to_Q y))
  /\ ((to_Q x < to_Q y)%Q -> approx (SFopp (sub x y)) (to_Q y - to_Q x)).
Proof.
  intros Hx Hy Hbx Hby.
  destruct (sign_false_cases x Hx) as [Ex | (mx & ex & Ex)];
    destruct (sign_false_cases y Hy) as [Ey | (my & ey & Ey)]; subst x y.
  - split; intros H.
    + apply (approx_eq _ 0); [simpl; ring | apply approx_zero].
    + simpl in H. lra.
  - pose proof (to_Q_pos my ey) as Hp. split; intros H.
    + change (to_Q (S754_zero false)) with 0%Q in H. lra.
    + apply (approx_eq _ (to_Q (S754_finite false my ey))); [change (to_Q (S754_zero false)) with 0%Q; ring |].
      apply approx_self. reflexivity.
  - pose proof (to_Q_pos mx ex) as Hp. split; intros H.
    + apply (approx_eq _ (to_Q (S754_finite false mx ex))); [change (to_Q (S754_zero false)) with 0%Q; ring |].
      apply approx_self. reflexivity.
    + change (to_Q (S754_zero false)) with 0%Q in H. lra.
  - unfold sub, SFsub. cbv zeta. unfold cond_Zopp.
    set (ez := Z.min ex ey).
    pose proof (aligned mx ex ez ltac:(lia)) as Ha.
    pose proof (aligned my ey ez ltac:(lia)) as Hb'.
    set (a := fst (shl_align mx ex ez)) in *.
    set (b := fst (shl_align my ey ez)) in *.
    set (X := to_Q (S754_finite false mx ex)) in *.
    set (Y := to_Q (S754_finite false my ey)) in *.
    assert (HX : (X == inject_Z (Z.pos a) * pw ez)%Q) by (unfold X; rewrite to_Q_finite, Ha; reflexivity).
    assert (HY : (Y == inject_Z (Z.pos b) * pw ez)%Q) by (unfold Y; rewrite to_Q_finite, Hb'; reflexivity).
    assert (Hv : (inject_Z (Z.pos a - Z.pos b) * pw ez == X - Y)%Q).
    { rewrite HX, HY. unfold Z.sub. rewrite inject_Z_plus, inject_Z_opp. ring. }
    pose proof (pw_pos ez) as Hpe.
    pose proof (to_Q_pos mx ex) as HXp. fold X in HXp.
    pose proof (to_Q_pos my ey) as HYp. fold Y in HYp.
    destruct (Z.pos a - Z.pos b) as [| p | p] eqn:Ez; unfold binary_normalize.
    + assert (E0 : (X - Y == 0)%Q) by (rewrite <- Hv; ring).
      split; intros H.
      * apply (approx_eq _ 0); [lra | apply approx_zero].
      * lra.
    + assert (Hpp : (0 < inject_Z (Z.pos p))%Q)
        by (change 0%Q with (inject_Z 0); rewrite <- Zlt_Qlt; lia).
      assert (Hgt : (0 < X - Y)%Q) by (rewrite <- Hv; nra).
      split; intros H; [| lra].
      assert (Hb : (inject_Z (Z.pos p) * pw ez <= pw 900)%Q) by (rewrite Hv; lra).
      destruct (binary_round_spec false p ez Hb) as (R & H0 & H1 & H2 & H3 & H4).
      apply (approx_eq _ _ _ Hv). exact (approx_round _ R _ H1 H2 H3 H4).
    + assert (Hpp : (0 < inject_Z (Z.pos p))%Q)
        by (change 0%Q with (inject_Z 0); rewrite <- Zlt_Qlt; lia).
      assert (Hv' : (inject_Z (Z.pos p) * pw ez == Y - X)%Q).
      { change (Z.neg p) with (- Z.pos p) in Hv. rewrite inject_Z_opp in Hv. lra. }
      assert (Hgt : (0 < Y - X)%Q) by (rewrite <- Hv'; nra).
      split; intros H; [lra |].
      assert (Hb : (inject_Z (Z.pos p) * pw ez <= pw 900)%Q) by (rewrite Hv'; lra).
      destruct (binary_round_spec true p ez Hb) as (R & H0 & H1 & H2 & H3 & H4).
      apply (approx_eq _ _ _ Hv').
      apply (approx_round _ R); [apply sign_opp; exact H1 | | exact H3 | exact H4].
      rewrite to_Q_opp, H2. ring.
Qed.

(** The product of two doubles that are not negative. *)
Lemma mul_spec (x y : float) :
  sign_is false x -> sign_is false y ->
  (to_Q x * to_Q y <= pw 900)%Q ->
  approx (mul x y) (to_Q x * to_Q y).
Proof.
  intros Hx Hy Hb.
  destruct (sign_false_cases x Hx) as [Ex | (mx & ex & Ex)];
    destruct (sign_false_cases y Hy) as [Ey | (my & ey & Ey)]; subst x y.
  - apply (approx_eq _ 0); [simpl; ring | apply approx_zero].
  - apply (approx_eq _ 0); [change (to_Q (S754_zero false)) with 0%Q; ring | apply approx_zero].
  - apply (approx_eq _ 0); [change (to_Q (S754_zero false)) with 0%Q; ring | apply approx_zero].
  - unfold mul, SFmul. simpl xorb.
    assert (Hv : (inject_Z (Z.pos (mx * my)) * pw (ex + ey)
                  == to_Q (S754_finite false mx ex) * to_Q (S754_finite false my ey))%Q).
    { rewrite !to_Q_finite, Pos2Z.inj_mul, inject_Z_mult, pw_add. ring. }
    rewrite <- Hv in Hb.
    destruct (round_exact false (Z.pos (mx * my)) (ex + ey) ltac:(lia) Hb)
      as (R & H0 & H1 & H2 & H3 & H4).
    apply (approx_eq _ _ _ Hv). exact (approx_round _ R _ H1 H2 H3 H4).
Qed.

(** The square of a finite double of either sign. *)
Lemma mul_self_spec (d : float) :
  is_finite d = true ->
  (to_Q d * to_Q d <= pw 900)%Q ->
  approx (mul d d) (to_Q d * to_Q d).
Proof.
  intros Hf Hb. destruct d as [s | s | | s m e]; try discriminate.
  - apply (approx_eq _ 0); [simpl; ring |]. unfold mul, SFmul.
    destruct s; apply approx_zero.
  - unfold mul, SFmul.
    assert (Hs : xorb s s = false) by (destruct s; reflexivity). rewrite Hs.
    assert (Hv : (inject_Z (Z.pos (m * m)) * pw (e + e)
                  == to_Q (S754_finite s m e) * to_Q (S754_finite s m e))%Q).
    { rewrite !to_Q_finite, Pos2Z.inj_mul, inject_Z_mult, pw_add. destruct s; ring. }
    rewrite <- Hv in Hb.
    destruct (round_exact false (Z.pos (m * m)) (e + e) ltac:(lia) Hb)
      as (R & H0 & H1 & H2 & H3 & H4).
    apply (approx_eq _ _ _ Hv). exact (approx_round _ R _ H1 H2 H3 H4).
Qed.

Lemma digits_pw (m : positive) (e : Z) :
  (pw (Z.pos (digits2_pos m) - 1 + e) <= inject_Z (Z.pos m) * pw e)%Q
  /\ (inject_Z (Z.pos m) * pw e < pw (Z.pos (digits2_pos m) + e))%Q.
Proof.
  pose proof (digits2_pos_bounds m) as [Hlo Hhi].
  set (d := Z.pos (digits2_pos m)) in *.
  assert (Hd : 1 <= d) by (unfold d; lia).
  rewrite !pw_add, (pw_Z (d - 1)), (pw_Z d) by lia.
  pose proof (pw_pos e) as Hpe.
  assert (H1 : (inject_Z (2 ^ (d - 1)) <= inject_Z (Z.pos m))%Q) by (rewrite <- Zle_Qle; exact Hlo).
  assert (H2 : (inject_Z (Z.pos m) < inject_Z (2 ^ d))%Q) by (rewrite <- Zlt_Qlt; exact Hhi).
  split.
  - apply Qmult_le_compat_r; [exact H1 | apply Qlt_le_weak; exact Hpe].
  - apply Qmult_lt_compat_r; [exact Hpe | exact H2].
Qed.

Lemma pw_eps (k : Z) : (pw (k - 53) == eps * pw (k - 1))%Q.
Proof.
  replace (k - 53) with ((-52) + (k - 1)) by lia. rewrite pw_add. reflexivity.
Qed.

(** The location [new_location] computes for the remainder [r] of a
    division by [my] is that of the exact quotient. *)
Lemma new_location_located (v P : Q) (q r my : Z) :
  (0 < P)%Q -> 0 < my -> 0 <= r < my ->
  (v * inject_Z my == (inject_Z my * inject_Z q + inject_Z r) * P)%Q ->
  located v q P (new_location my r).
Proof.
  intros HP Hmy Hr KE.
  assert (Hmyq : (0 < inject_Z my)%Q) by (change 0%Q with (inject_Z 0); rewrite <- Zlt_Qlt; lia).
  set (W := (v - inject_Z q * P)%Q).
  assert (HW : (W * inject_Z my == inject_Z r * P)%Q).
  { unfold W. transitivity (v * inject_Z my - inject_Z my * inject_Z q * P)%Q; [ring |].
    rewrite KE. ring. }
  assert (C0 : r = 0 -> (W == 0)%Q).
  { intros E. rewrite E in HW. apply (Qmult_inj_r _ _ (inject_Z my)); [lra |].
    rewrite HW. change (inject_Z 0) with 0%Q. ring. }
  assert (C1 : 0 < r -> (0 < W)%Q).
  { intros E. apply (Qmult_lt_r _ _ (inject_Z my) Hmyq). rewrite HW.
    assert (0 < inject_Z r)%Q by (change 0%Q with (inject_Z 0); rewrite <- Zlt_Qlt; lia).
    nra. }
  assert (C2 : (W < P)%Q).
  { apply (Qmult_lt_r _ _ (inject_Z my) Hmyq). rewrite HW.
    assert (inject_Z r < inject_Z my)%Q by (rewrite <- Zlt_Qlt; lia).
    nra. }
  assert (C3 : 2 * r < my -> (W < (1 # 2) * P)%Q).
  { intros E. apply (Qmult_lt_r _ _ (inject_Z my) Hmyq). rewrite HW.
    assert (2 * inject_Z r < inject_Z my)%Q.
    { change 2%Q with (inject_Z 2). rewrite <- inject_Z_mult, <- Zlt_Qlt. lia. }
    nra. }
  assert (C4 : 2 * r = my -> (W == (1 # 2) * P)%Q).
  { intros E. apply (Qmult_inj_r _ _ (inject_Z my)); [lra |]. rewrite HW.
    rewrite <- E, inject_Z_mult. change (inject_Z 2) with 2%Q. ring. }
  assert (C5 : my < 2 * r -> ((1 # 2) * P < W)%Q).
  { intros E. apply (Qmult_lt_r _ _ (inject_Z my) Hmyq). rewrite HW.
    assert (inject_Z my < 2 * inject_Z r)%Q.
    { change 2%Q with (inject_Z 2). rewrite <- inject_Z_mult, <- Zlt_Qlt. lia. }
    nra. }
  unfold new_location.
  assert (Hl : (if Z.even my then new_location_even my else new_location_odd my) r
               = if r =? 0 then loc_Exact
                 else if Z.even my then loc_Inexact (2 * r ?= my)
                      else loc_Inexact match 2 * r + 1 ?= my with
                                       | Gt => Gt
                                       | _ => Lt
                                       end).
  { unfold new_location_even, new_location_odd.
    destruct (Z.even my); destruct (r =? 0); reflexivity. }
  rewrite Hl. clear Hl.
  destruct (Z.eqb_spec r 0) as [Er | Er].
  - cbv beta iota delta [located]. pose proof (C0 Er). unfold W in *. lra.
  - pose proof (C1 ltac:(lia)) as H1.
    destruct (Z.even my) eqn:Hev.
    + destruct (Z.compare_spec (2 * r) my) as [E | E | E]; cbv beta iota delta [located].
      * pose proof (C4 E). unfold W in *. lra.
      * pose proof (C3 E). unfold W in *. lra.
      * pose proof (C5 E). unfold W in *. lra.
    + assert (Hodd : 2 * r <> my).
      { intros E. rewrite <- E, Z.even_mul in Hev. discriminate Hev. }
      destruct (Z.compare_spec (2 * r + 1) my) as [E | E | E]; cbv beta iota delta [located].
      * pose proof (C3 ltac:(lia)). unfold W in *. lra.
      * pose proof (C3 ltac:(lia)). unfold W in *. lra.
      * pose proof (C5 ltac:(lia)). unfold W in *. lra.
Qed.

(** The quotient of a double that is not negative by a positive one;
    [v] is the exact quotient. *)
Lemma div_spec (x : float) (my : positive) (ey : Z) (v : Q) :
  sign_is false x ->
  (v * to_Q (S754_finite false my ey) == to_Q x)%Q ->
  (v <= pw 900)%Q ->
  approx (div x (S754_finite false my ey)) v.
Proof.
  intros Hx Hv Hb. pose proof (to_Q_pos my ey) as HY.
  destruct (sign_false_cases x Hx) as [Ex | (mx & ex & Ex)]; subst x.
  - change (to_Q (S754_zero false)) with 0%Q in Hv.
    apply (approx_eq _ 0); [| apply approx_zero].
    destruct (Qmult_integral _ _ Hv) as [E | E]; [symmetry; exact E | lra].
  - unfold div, SFdiv, SFdiv_core_binary. cbv zeta. simpl xorb. simpl Zdigits2.
    set (d1 := Z.pos (digits2_pos mx)). set (d2 := Z.pos (digits2_pos my)).
    set (D := d1 + ex - (d2 + ey)).
    set (e' := Z.min (fexp prec emax D) (ex - ey)).
    set (s := ex - ey - e').
    assert (Hs : 0 <= s) by (unfold s, e'; lia).
    set (m' := match s with
               | 0 => Z.pos mx
               | Z.pos _ => Z.shiftl (Z.pos mx) s
               | Z.neg _ => 0
               end).
    assert (Hm' : m' = Z.pos mx * 2 ^ s).
    { unfold m'. destruct s as [| p | p] eqn:Es; [simpl; lia | | lia].
      apply Z.shiftl_mul_pow2. lia. }
    pose proof (Z_div_mod m' (Z.pos my) ltac:(lia)) as Hdm.
    destruct (Z.div_eucl m' (Z.pos my)) as [q r]. destruct Hdm as [Hdm Hr].
    assert (Hq : 0 <= q) by nia.
    set (l := new_location (Z.pos my) r).
    (* the exact quotient in units of 2^e' *)
    set (Pq := pw e'). pose proof (pw_pos e') as HPq. fold Pq in HPq.
    set (myq := inject_Z (Z.pos my)).
    assert (Hmyq : (0 < myq)%Q) by (unfold myq; change 0%Q with (inject_Z 0); rewrite <- Zlt_Qlt; lia).
    assert (Hrq : (0 <= inject_Z r)%Q /\ (inject_Z r + 1 <= myq)%Q).
    { split.
      - change 0%Q with (inject_Z 0). rewrite <- Zle_Qle. lia.
      - unfold myq. change 1%Q with (inject_Z 1). rewrite <- inject_Z_plus, <- Zle_Qle. lia. }
    assert (KE : (v * myq == (myq * inject_Z q + inject_Z r) * Pq)%Q).
    { rewrite !to_Q_finite in Hv.
      assert (E1 : (inject_Z m' * pw (e' + ey) == inject_Z (Z.pos mx) * pw ex)%Q).
      { rewrite Hm'. replace s with (ex - (e' + ey)) by (unfold s; lia).
        apply pw_shift. unfold s in Hs. lia. }
      rewrite <- E1, pw_add in Hv. fold Pq in Hv. fold myq in Hv.
      pose proof (pw_pos ey) as Hpey.
      assert (E2 : (v * myq * pw ey == inject_Z m' * Pq * pw ey)%Q).
      { transitivity (v * (myq * pw ey))%Q; [ring |]. rewrite Hv. ring. }
      apply Qmult_inj_r in E2; [| lra].
      rewrite E2, Hdm, inject_Z_plus, inject_Z_mult. fold myq. ring. }
    assert (Hloc : located v q Pq l).
    { apply new_location_located; [exact HPq | lia | lia | exact KE]. }
    destruct (located_bounds v q Pq l HPq Hloc) as (Hlo & _ & _).
    assert (Hcond : l = loc_Exact \/ (Pq <= eps * v + eta)%Q).
    { right. pose proof eta_pos as Heta.
      assert (Hv0 : (0 <= v)%Q).
      { assert (0 <= inject_Z q)%Q by (change 0%Q with (inject_Z 0); rewrite <- Zle_Qle; lia).
        nra. }
      assert (He' : e' <= fexp prec emax D) by (unfold e'; lia).
      rewrite fexp_eq in He'.
      destruct (Z_le_gt_dec e' (-1074)) as [Hc | Hc].
      - assert (Pq <= eta)%Q by (apply pw_le; exact Hc). unfold eps. lra.
      - assert (H1 : (Pq <= eps * pw (D - 1))%Q).
        { rewrite <- pw_eps. apply pw_le. lia. }
        assert (H2 : (pw (D - 1) <= v)%Q).
        { destruct (digits_pw mx ex) as [Hx1 _]. destruct (digits_pw my ey) as [_ Hy2].
          fold d1 in Hx1. fold d2 in Hy2. rewrite !to_Q_finite in Hv.
          rewrite <- Hv in Hx1.
          replace (d1 - 1 + ex) with ((D - 1) + (d2 + ey)) in Hx1 by (unfold D; lia).
          rewrite pw_add in Hx1.
          pose proof (pw_pos (D - 1)) as HpD.
          set (Y := (inject_Z (Z.pos my) * pw ey)%Q) in *.
          rewrite to_Q_finite in HY. fold Y in HY.
          apply (Qmult_le_r _ _ Y HY).
          apply Qle_trans with (pw (D - 1) * pw (d2 + ey))%Q; [| exact Hx1].
          apply Qmult_le_l; [exact HpD | apply Qlt_le_weak; exact Hy2]. }
        unfold eps in *. lra. }
    destruct (round_aux_nearest false q e' l v Hq Hloc Hcond Hb)
      as (R & H0 & H1 & H2 & H3 & H4).
    exact (approx_round _ R _ H1 H2 H3 H4).
Qed.

Lemma sq_le (a b : Q) : (0 <= b)%Q -> (a * a <= b * b)%Q -> (a <= b)%Q.
Proof.
  intros Hb H. destruct (Qlt_le_dec b a) as [Hlt | Hle]; [exfalso; nra | exact Hle].
Qed.

(** The square root of a double that is at most [B^2] is at most [B], up
    to two roundings.  The root itself is not rational: the rounding step
    is followed on a rational that lies where [SFsqrt_core_binary]
    locates the root. *)
Lemma sqrt_upper (x : float) (B : Q) :
  sign_is false x -> (0 <= B)%Q -> (to_Q x <= B * B)%Q -> (B <= pw 400)%Q ->
  sign_is false (sqrt x)
  /\ (to_Q (sqrt x) <= (B * (1 + eps) + eta) * (1 + eps) + eta)%Q.
Proof.
  intros Hx HB Hv Hb. pose proof eta_pos as Heta.
  destruct (sign_false_cases x Hx) as [Ex | (mx & ex & Ex)]; subst x.
  - split; [reflexivity |]. simpl. unfold eps. lra.
  - unfold sqrt, SFsqrt, SFsqrt_core_binary. cbv zeta. simpl Zdigits2.
    set (d := Z.pos (digits2_pos mx)).
    set (k := Z.div2 (d + ex + 1)).
    set (e' := Z.min (fexp prec emax k) (Z.div2 ex)).
    set (s := ex - 2 * e').
    assert (Hk : 2 * k <= d + ex + 1).
    { unfold k. rewrite Z.div2_div. pose proof (Z.mul_div_le (d + ex + 1) 2). lia. }
    assert (Hs : 0 <= s).
    { unfold s, e'. pose proof (Z.mul_div_le ex 2). rewrite Z.div2_div. lia. }
    set (m' := match s with
               | 0 => Z.pos mx
               | Z.pos _ => Z.shiftl (Z.pos mx) s
               | Z.neg _ => 0
               end).
    assert (Hm' : m' = Z.pos mx * 2 ^ s).
    { unfold m'. destruct s as [| p | p] eqn:Es; [simpl; lia | | lia].
      apply Z.shiftl_mul_pow2. lia. }
    assert (Hm'0 : 0 <= m') by (rewrite Hm'; apply Z.mul_nonneg_nonneg; [lia | apply Z.pow_nonneg; lia]).
    pose proof (Z.sqrtrem_spec m' Hm'0) as Hsq.
    destruct (Z.sqrtrem m') as [q r]. destruct Hsq as [Hsq Hr].
    assert (Hq : 0 <= q) by lia.
    set (Pq := pw e'). pose proof (pw_pos e') as HPq. fold Pq in HPq.
    set (X := to_Q (S754_finite false mx ex)) in *.
    assert (HX : (X == inject_Z m' * Pq * Pq)%Q).
    { unfold X. rewrite to_Q_finite, Hm'.
      replace s with (ex - (e' + e')) by (unfold s; lia).
      rewrite <- (pw_shift (Z.pos mx) ex (e' + e')) by (unfold s in Hs; lia).
      rewrite pw_add. fold Pq. ring. }
    set (qq := inject_Z q).
    assert (Hqq : (0 <= qq)%Q) by (unfold qq; change 0%Q with (inject_Z 0); rewrite <- Zle_Qle; lia).
    assert (Hm1 : (qq * qq <= inject_Z m')%Q).
    { unfold qq. rewrite <- inject_Z_mult, <- Zle_Qle. lia. }
    set (Vq := (qq * Pq)%Q).
    assert (HVq0 : (0 <= Vq)%Q) by (unfold Vq; nra).
    assert (HVqX : (Vq * Vq <= X)%Q).
    { rewrite HX. unfold Vq.
      setoid_replace (qq * Pq * (qq * Pq))%Q with (qq * qq * (Pq * Pq))%Q by ring.
      setoid_replace (inject_Z m' * Pq * Pq)%Q with (inject_Z m' * (Pq * Pq))%Q by ring.
      apply Qmult_le_compat_r; [exact Hm1 | nra]. }
    assert (HVqB : (Vq <= B)%Q) by (apply sq_le; [exact HB | lra]).
    assert (H400 : (pw 400 <= pw 898)%Q) by (apply pw_le; lia).
    assert (Heta898 : (eta <= pw 898)%Q) by (apply pw_le; lia).
    assert (H900 : (pw 900 == 4 * pw 898)%Q).
    { change 900 with (2 + 898). rewrite pw_add. reflexivity. }
    pose proof (pw_pos 898) as H898.
    destruct (Z.eqb_spec r 0) as [Hr0 | Hr0].
    + destruct (round_aux_nearest false q e' loc_Exact Vq Hq) as (R & H0 & H1 & H2 & H3 & H4).
      * cbv beta iota delta [located]. reflexivity.
      * left. reflexivity.
      * rewrite H900. lra.
      * split; [exact H1 |]. rewrite H2. unfold eps in *. lra.
    + set (l := loc_Inexact (if r <=? q then Lt else Gt)).
      set (v := (if r <=? q then Vq + (1 # 4) * Pq else Vq + (3 # 4) * Pq)%Q).
      assert (Hvb : (Vq <= v)%Q /\ (v <= Vq + Pq)%Q) by (unfold v; destruct (r <=? q); split; lra).
      assert (Hloc : located v q (pw e') l).
      { unfold l, v. fold Pq.
        destruct (r <=? q); cbv beta iota delta [located]; fold qq; unfold Vq; split; lra. }
      assert (HP : (Pq <= eta)%Q \/ (Pq <= eps * Vq)%Q).
      { assert (He' : e' <= fexp prec emax k) by (unfold e'; lia).
        rewrite fexp_eq in He'.
        destruct (Z_le_gt_dec e' (-1074)) as [Hc | Hc].
        - left. apply pw_le. exact Hc.
        - right. set (t := k - 1 - e').
          assert (Ht : 0 <= t) by (unfold t; lia).
          assert (H2t : 2 ^ t * 2 ^ t <= m').
          { rewrite Hm', <- Z.pow_add_r by lia.
            pose proof (digits2_pos_bounds mx) as [Hlo _]. fold d in Hlo.
            assert (Hd : 1 <= d) by (unfold d; lia).
            apply Z.le_trans with (2 ^ (d - 1) * 2 ^ s);
              [| apply Z.mul_le_mono_nonneg_r; [apply Z.pow_nonneg; lia | exact Hlo]].
            rewrite <- Z.pow_add_r by lia.
            apply Z.pow_le_mono_r; [lia |]. unfold t, s. lia. }
          assert (Hpt : 0 < 2 ^ t) by (apply Z.pow_pos_nonneg; lia).
          assert (Hqt : 2 ^ t <= q) by nia.
          assert (E : (pw (k - 53) == eps * (inject_Z (2 ^ t) * Pq))%Q).
          { rewrite pw_eps. replace (k - 1) with (t + e') by (unfold t; lia).
            rewrite pw_add, (pw_Z t Ht). reflexivity. }
          apply Qle_trans with (pw (k - 53)); [apply pw_le; lia |].
          rewrite E. unfold Vq.
          assert (inject_Z (2 ^ t) <= qq)%Q by (unfold qq; rewrite <- Zle_Qle; exact Hqt).
          unfold eps. nra. }
      assert (Hcond : (Pq <= eps * v + eta)%Q).
      { unfold eps in *. destruct HP as [HP | HP]; lra. }
      assert (Hsmall : (v <= B + (eps * B + eta))%Q).
      { unfold eps in *. destruct HP as [HP | HP]; lra. }
      destruct (round_aux_nearest false q e' l v Hq Hloc) as (R & H0 & H1 & H2 & H3 & H4).
      * right. fold Pq. exact Hcond.
      * rewrite H900. unfold eps in *. lra.
      * split; [exact H1 |]. rewrite H2. unfold eps in *. lra.
Qed.

(** * The claims *)

(** ** C1: the order and number of the candles [get_klines] returns *)

(** C1, as stated, fails.  The exchange answers a request for two candles
    with two candles in ascending order of time, and [get_klines] returns
    them newest first, which is not ascending. *)
Lemma two_candles_come_back_newest_first :
  ascending two_candles
  /\ fst (get_klines (fixed_exchange two_candles (Ok tt)) 2
            (ready_world (of_Z 250) "15m"))
     = Ok [kline_at 2; kline_at 1]
  /\ ~ ascending [kline_at 2; kline_at 1].
Proof.
  split; [| split].
  - repeat constructor.
  - reflexivity.
  - intros H. inversion H as [| a l Hs Hall]; subst.
    inversion Hall as [| b l' Hlt Hrest]; subst.
    vm_compute in Hlt. discriminate Hlt.
Qed.

(** C1, amended.  For every interval code of the table and every limit,
    when the exchange answers with a window, [get_klines] returns that
    window reversed: as many candles as the exchange sent ([limit_] of them
    when the exchange sent [limit_]), and in strictly descending order of
    time, newest first, when the exchange sent them oldest first. *)
Theorem get_klines_newest_first (ex : Exchange) (w : World) (limit_ : Z)
  (c : Client) (code : string) (interval : interval_token)
  (window : list kline) :
  client (bot w) = Some c ->
  time_interval (bot w) = Some code ->
  dict_getitem kline_intervals code = Ok interval ->
  ex_get_klines ex (sent w) (asset (bot w)) interval limit_ = Ok window ->
  get_klines ex limit_ w
  = (Ok (rev window), log (GetKlines (asset (bot w)) interval limit_) w)
  /\ List.length (rev window) = List.length window
  /\ (Z.of_nat (List.length window) = limit_ ->
      Z.of_nat (List.length (rev window)) = limit_)
  /\ (ascending window -> descending (rev window)).
Proof.
  intros Hc Ht Hd Hx.
  split; [| split; [| split]].
  - eapply get_klines_run; eassumption.
  - apply length_rev.
  - rewrite length_rev. trivial.
  - intros Hasc. unfold descending. unfold ascending in Hasc.
    apply (StronglySorted_rev _ _ Hasc).
Qed.

Lemma get_klines_newest_first_witness :
  get_klines (fixed_exchange two_candles (Ok tt)) 2 (ready_world (of_Z 250) "1H")
  = (Ok (rev two_candles),
     log (GetKlines (Some "BTCUSDT"%string) KLINE_INTERVAL_1HOUR 2)
       (ready_world (of_Z 250) "1H"))
  /\ List.length (rev two_candles) = List.length two_candles
  /\ (Z.of_nat (List.length two_candles) = 2 ->
      Z.of_nat (List.length (rev two_candles)) = 2)
  /\ (ascending two_candles -> descending (rev two_candles)).
Proof.
  apply (get_klines_newest_first
           (fixed_exchange two_candles (Ok tt)) (ready_world (of_Z 250) "1H") 2
           {| api_key := "key"; secret_key := "secret" |} "1H"
           KLINE_INTERVAL_1HOUR two_candles);
    reflexivity.
Defined.

(** ** C6: an interval code outside the table *)

(** C6.  For every interval code that is not one of the eight keys,
    [get_klines] raises, and the session it leaves, the log of requests
    included, is the one it started from: nothing was sent.  With a
    connected client the exception is the [KeyError] of the table lookup,
    which the specification calls InvalidIntervalError. *)
Theorem get_klines_unsupported_interval (ex : Exchange) (w : World)
  (limit_ : Z) (code : string) :
  time_interval (bot w) = Some code ->
  ~ In code ["15m"; "30m"; "1H"; "2H"; "4H"; "6H"; "12H"; "1D"]%string ->
  exists e : exn,
    get_klines ex limit_ w = (Raise e, w)
    /\ sent (snd (get_klines ex limit_ w)) = sent w
    /\ (client (bot w) <> None -> e = KeyError code).
Proof.
  intros Ht Hnot.
  assert (Hd : dict_getitem kline_intervals code = Raise (KeyError code)).
  { apply dict_getitem_missing. exact Hnot. }
  run_method get_klines.
  destruct (client (bot w)) as [c |] eqn:Hc.
  - exists (KeyError code). cbv beta iota. rewrite Ht. cbv beta iota.
    rewrite Hd. cbv beta iota.
    split; [reflexivity | split; [reflexivity | trivial]].
  - exists (AttributeError "client"). cbv beta iota.
    split; [reflexivity | split; [reflexivity |]].
    intros Hne. exfalso. apply Hne. reflexivity.
Qed.

Lemma get_klines_unsupported_interval_witness :
  exists e : exn,
    get_klines (fixed_exchange two_candles (Ok tt)) 25 (ready_world (of_Z 250) "5m")
    = (Raise e, ready_world (of_Z 250) "5m")
    /\ sent (snd (get_klines (fixed_exchange two_candles (Ok tt)) 25
                    (ready_world (of_Z 250) "5m")))
       = sent (ready_world (of_Z 250) "5m")
    /\ (client (bot (ready_world (of_Z 250) "5m")) <> None -> e = KeyError "5m").
Proof.
  apply (get_klines_unsupported_interval
           (fixed_exchange two_candles (Ok tt)) (ready_world (of_Z 250) "5m")
           25 "5m").
  - reflexivity.
  - simpl. intros H.
    repeat (destruct H as [H | H]; [discriminate H |]). exact H.
Defined.

(** ** C5: fewer than twenty candles *)

(** C5.  When [get_klines] hands [get_bbands] fewer than twenty candles,
    gathering the closes raises [IndexError] at the first missing index,
    and [get_bbands] raises it in turn: no band value is produced.  The
    specification calls this failure InsufficientDataError. *)
Theorem get_bbands_short_window (ex : Exchange) (w w' : World)
  (klines : list kline) :
  get_klines ex 25 w = (Ok klines, w') ->
  (List.length klines < 20)%nat ->
  last_20_closes klines = Raise IndexError
  /\ get_bbands ex w = (Raise IndexError, w').
Proof.
  intros Hk Hlen.
  assert (Hcl : last_20_closes klines = Raise IndexError).
  { unfold last_20_closes.
    apply (comprehension_seq_short (fun k => float_of_decimal (kl_close k))); lia. }
  split; [exact Hcl |].
  rewrite (get_bbands_run ex w w' klines Hk). rewrite Hcl. reflexivity.
Qed.

Lemma get_bbands_short_window_witness :
  last_20_closes (rev two_candles) = Raise IndexError
  /\ get_bbands (fixed_exchange two_candles (Ok tt)) (ready_world (of_Z 250) "1D")
     = (Raise IndexError,
        log (GetKlines (Some "BTCUSDT"%string) KLINE_INTERVAL_1DAY 25)
          (ready_world (of_Z 250) "1D")).
Proof.
  apply (get_bbands_short_window
           (fixed_exchange two_candles (Ok tt)) (ready_world (of_Z 250) "1D")).
  - reflexivity.
  - simpl. lia.
Defined.

(** ** C2: which twenty of the twenty-five candles are used *)

(** C2, as stated, fails.  On that window the closes [get_bbands] gathers
    contain the close of the most recent candle and not the close of the
    oldest one, and the band it returns is not the band of the oldest
    twenty closes. *)
Lemma newest_candle_is_used :
  ascending window_25
  /\ fst (get_klines (fixed_exchange window_25 (Ok tt)) 25
            (ready_world (of_Z 250) "15m"))
     = Ok (rev window_25)
  /\ exists closes : list float,
       last_20_closes (rev window_25) = Ok closes
       /\ In (close_price (kline_at 25)) closes
       /\ ~ In (close_price (kline_at 1)) closes
       /\ fst (get_bbands (fixed_exchange window_25 (Ok tt))
                 (ready_world (of_Z 250) "15m"))
          <> lower_band (map close_price (firstn 20 window_25)).
Proof.
  split; [| split].
  - unfold ascending, window_25. simpl.
    repeat (constructor; [| repeat (constructor; [reflexivity |]); constructor]).
    constructor.
  - reflexivity.
  - eexists. split; [vm_compute; reflexivity |].
    split; [| split].
    + vm_compute. left. reflexivity.
    + intros H. vm_compute in H.
      repeat (destruct H as [H | H]; [discriminate H |]). exact H.
    + vm_compute. intros H. discriminate H.
Qed.

(** C2, amended.  When the exchange answers the request for 25 candles
    with 25 candles, oldest first, the closes [get_bbands] gathers are
    those of the last 20 candles of the window, read backwards, and the
    band is computed from them.  In a window sent oldest first these are
    the 20 most recent candles, newest first: each of them is more recent
    than each of the 5 candles left out. *)
Theorem get_bbands_uses_newest_20 (ex : Exchange) (w : World) (c : Client)
  (code : string) (interval : interval_token) (window : list kline) :
  client (bot w) = Some c ->
  time_interval (bot w) = Some code ->
  dict_getitem kline_intervals code = Ok interval ->
  ex_get_klines ex (sent w) (asset (bot w)) interval 25 = Ok window ->
  List.length window = 25%nat ->
  last_20_closes (rev window) = Ok (map close_price (rev (skipn 5 window)))
  /\ get_bbands ex w
     = (lower_band (map close_price (rev (skipn 5 window))),
        log (GetKlines (asset (bot w)) interval 25) w)
  /\ (ascending window ->
      forall old new : kline,
        In old (firstn 5 window) -> In new (skipn 5 window) ->
        kl_open_time old < kl_open_time new).
Proof.
  intros Hc Ht Hd Hx Hlen.
  assert (Hcl : last_20_closes (rev window)
                = Ok (map close_price (rev (skipn 5 window)))).
  { unfold last_20_closes.
    rewrite (comprehension_seq_ok (fun k => float_of_decimal (kl_close k)))
      by (rewrite length_rev; lia).
    rewrite skipn_O, firstn_rev, Hlen. reflexivity. }
  split; [exact Hcl |].
  split.
  - rewrite (get_bbands_run ex w _ (rev window)
               (get_klines_run ex w 25 c code interval window Hc Ht Hd Hx)).
    rewrite Hcl. reflexivity.
  - intros Hasc old new Hold Hnew. unfold ascending in Hasc.
    rewrite <- (firstn_skipn 5 window) in Hasc.
    apply (StronglySorted_app_inv _ _ _ Hasc old new Hold Hnew).
Qed.

Lemma get_bbands_uses_newest_20_witness :
  last_20_closes (rev window_25) = Ok (map close_price (rev (skipn 5 window_25)))
  /\ get_bbands (fixed_exchange window_25 (Ok tt)) (ready_world (of_Z 250) "4H")
     = (lower_band (map close_price (rev (skipn 5 window_25))),
        log (GetKlines (Some "BTCUSDT"%string) KLINE_INTERVAL_4HOUR 25)
          (ready_world (of_Z 250) "4H"))
  /\ (ascending window_25 ->
      forall old new : kline,
        In old (firstn 5 window_25) -> In new (skipn 5 window_25) ->
        kl_open_time old < kl_open_time new).
Proof.
  apply (get_bbands_uses_newest_20
           (fixed_exchange window_25 (Ok tt)) (ready_world (of_Z 250) "4H")
           {| api_key := "key"; secret_key := "secret" |} "4H"
           KLINE_INTERVAL_4HOUR window_25);
    reflexivity.
Defined.

(** ** C3: the band of the closes 1, 2, ..., 20 *)

(** C3, as stated, fails in its last figure.  For the closes 1 to 20 the
    band before rounding lies strictly between -1.032562595 and
    -1.032562594, and the value returned is not the double written
    -1.03256260. *)
Lemma band_of_1_to_20_is_not_60 :
  (exists ma sd : float,
     simple_ma closes_1_to_20 = Ok ma
     /\ standard_deviation closes_1_to_20 ma = Ok sd
     /\ (-1032562595 # 1000000000 < to_Q (sub ma (mul sd (of_Z 2))))%Q
     /\ (to_Q (sub ma (mul sd (of_Z 2))) < -1032562594 # 1000000000)%Q)
  /\ lower_band closes_1_to_20 <> Ok (of_ratio true 103256260 100000000).
Proof.
  split.
  - eexists. eexists.
    split; [vm_compute; reflexivity |].
    split; [vm_compute; reflexivity |].
    split; vm_compute; reflexivity.
  - vm_compute. intros H. discriminate H.
Qed.

(** C3, amended.  For the closes 1 to 20 the mean is exactly 10.5, the
    standard deviation is within one millionth of 5.766281, and the band
    returned, 10.5 - 2 * stddev rounded to 8 decimals, is the double
    written -1.03256259.  [get_bbands] returns it for a window whose
    twenty most recent closes are these. *)
Theorem lower_band_1_to_20 :
  simple_ma closes_1_to_20 = Ok (of_ratio false 21 2)
  /\ (to_Q (of_ratio false 21 2) == 21 # 2)%Q
  /\ (exists sd : float,
        standard_deviation closes_1_to_20 (of_ratio false 21 2) = Ok sd
        /\ (5766280 # 1000000 < to_Q sd)%Q
        /\ (to_Q sd < 5766282 # 1000000)%Q)
  /\ lower_band closes_1_to_20 = Ok (of_ratio true 103256259 100000000)
  /\ last_20_closes (rev falling_window) = Ok closes_1_to_20
  /\ fst (get_bbands (fixed_exchange falling_window (Ok tt))
            (ready_world (of_Z 250) "15m"))
     = Ok (of_ratio true 103256259 100000000).
Proof.
  split; [vm_compute; reflexivity |].
  split; [vm_compute; reflexivity |].
  split.
  { eexists. split; [vm_compute; reflexivity |].
    split; vm_compute; reflexivity. }
  split; [vm_compute; reflexivity |].
  split; vm_compute; reflexivity.
Qed.

(** ** C4: twenty equal closes *)

Lemma sub_diag (c : float) : is_finite c = true -> sub c c = pzero.
Proof.
  destruct c as [s | s | | s m e]; simpl; intros Hfin; try discriminate Hfin.
  - destruct s; reflexivity.
  - unfold sub, SFsub. rewrite Z.sub_diag. reflexivity.
Qed.

Lemma sub_pzero_r (c : float) : is_finite c = true -> sub c pzero = c.
Proof.
  destruct c as [s | s | | s m e]; simpl; intros Hfin; try discriminate Hfin.
  - destruct s; reflexivity.
  - reflexivity.
Qed.

Lemma comprehension_repeat {A B : Type} (f : A -> result B) (x : A) (y : B)
  (n : nat) :
  f x = Ok y -> comprehension f (repeat x n) = Ok (repeat y n).
Proof.
  intros Hf. induction n as [| n IH]; simpl.
  - reflexivity.
  - rewrite Hf, IH. reflexivity.
Qed.

(** The deviations of twenty equal closes from a mean equal to them. *)
Lemma standard_deviation_constant (c : float) :
  is_finite c = true -> standard_deviation (repeat c 20) c = Ok pzero.
Proof.
  intros Hfin. unfold standard_deviation, squared_list.
  rewrite (comprehension_repeat (fun close => pow2 (sub close c)) c pzero).
  - reflexivity.
  - rewrite (sub_diag c Hfin). reflexivity.
Qed.

(** C4, as stated, fails.  Every close is the double 1/1024, the mean is
    1/1024 and the standard deviation is zero, but the value returned is
    the double written 0.00097656: the band is rounded to 8 decimals. *)
Lemma constant_close_is_rounded :
  last_20_closes (rev level_window) = Ok (repeat (of_ratio false 1 1024) 20)
  /\ simple_ma (repeat (of_ratio false 1 1024) 20) = Ok (of_ratio false 1 1024)
  /\ fst (get_bbands (fixed_exchange level_window (Ok tt))
            (ready_world (of_Z 250) "15m"))
     = Ok (of_ratio false 97656 100000000)
  /\ of_ratio false 97656 100000000 <> of_ratio false 1 1024.
Proof.
  split; [vm_compute; reflexivity |].
  split; [vm_compute; reflexivity |].
  split; [vm_compute; reflexivity |].
  vm_compute. intros H. discriminate H.
Qed.

(** When the mean computed from twenty equal closes is the close itself,
    the standard deviation is zero and the band is the close rounded to
    8 decimals. *)
Remark get_bbands_exact_mean (ex : Exchange) (w w' : World)
  (klines : list kline) (c : float) :
  get_klines ex 25 w = (Ok klines, w') ->
  last_20_closes klines = Ok (repeat c 20) ->
  is_finite c = true ->
  simple_ma (repeat c 20) = Ok c ->
  standard_deviation (repeat c 20) c = Ok pzero
  /\ get_bbands ex w = (Ok (round c 8), w').
Proof.
  intros Hk Hcl Hfin Hma.
  split; [apply standard_deviation_constant; exact Hfin |].
  rewrite (get_bbands_run ex w w' klines Hk). rewrite Hcl.
  unfold rbind at 1. unfold lower_band. rewrite Hma. unfold rbind at 1.
  rewrite (standard_deviation_constant c Hfin). unfold rbind.
  replace (mul pzero (of_Z 2)) with pzero by reflexivity.
  rewrite (sub_pzero_r c Hfin). reflexivity.
Qed.

(** In general the mean of twenty equal closes is not the close: the
    running sum is rounded at every step.  The bounds below follow the
    rounding errors through the computation of the band. *)

Lemma approx_nonneg (r : float) (v : Q) : approx r v -> (0 <= to_Q r)%Q.
Proof.
  intros (H & _). destruct (sign_false_cases r H) as [E | (m & e & E)]; subst r.
  - simpl. lra.
  - apply Qlt_le_weak. apply to_Q_pos.
Qed.

Lemma sign_false_nonneg (r : float) : sign_is false r -> (0 <= to_Q r)%Q.
Proof.
  intros H. apply (approx_nonneg r (to_Q r)). apply approx_self. exact H.
Qed.

Lemma eta_small : (eta <= 1 # 1267650600228229401496703205376)%Q.
Proof.
  assert (H : (pw (-100) == 1 # 1267650600228229401496703205376)%Q) by reflexivity.
  rewrite <- H. apply pw_le. lia.
Qed.

(** One more term added to a running sum of [k] copies of a value. *)
Lemma add_step (acc c : float) (k u : Q) :
  sign_is false acc -> sign_is false c ->
  (to_Q c <= pw 100)%Q ->
  (0 <= k <= 19)%Q -> (0 <= u <= 500)%Q ->
  (to_Q acc <= k * to_Q c + u * (eps * to_Q c) + k * eta)%Q ->
  (k * to_Q c - u * (eps * to_Q c) - k * eta <= to_Q acc)%Q ->
  sign_is false (add acc c)
  /\ (to_Q (add acc c)
      <= (k + 1) * to_Q c + (u + (k + 1) * (1 # 2) + (1 # 100)) * (eps * to_Q c)
         + (k + 1) * eta)%Q
  /\ ((k + 1) * to_Q c - (u + (k + 1) * (1 # 2) + (1 # 100)) * (eps * to_Q c)
      - (k + 1) * eta
      <= to_Q (add acc c))%Q.
Proof.
  intros Ha Hc Hb Hk Hu Hup Hdn.
  pose proof (sign_false_nonneg c Hc) as HC.
  pose proof (sign_false_nonneg acc Ha) as HS.
  pose proof eta_pos as Heta. pose proof eta_small as Hes.
  set (C := to_Q c) in *. set (S := to_Q acc) in *.
  assert (H100 : (pw 100 == 1267650600228229401496703205376)%Q) by reflexivity.
  assert (H900 : (pw 105 <= pw 900)%Q) by (apply pw_le; lia).
  assert (H105 : (pw 105 == 32 * pw 100)%Q).
  { change 105 with (5 + 100). rewrite pw_add. reflexivity. }
  assert (HkC : (0 <= k * C)%Q /\ (k * C <= 19 * C)%Q) by (split; nra).
  assert (HuC : (0 <= u * C)%Q /\ (u * C <= 500 * C)%Q) by (split; nra).
  assert (Hke : (0 <= k * eta)%Q /\ (k * eta <= 19 * eta)%Q) by (split; nra).
  set (kC := (k * C)%Q) in *. set (uC := (u * C)%Q) in *.
  set (ke := (k * eta)%Q) in *.
  assert (Hup' : (S <= kC + eps * uC + ke)%Q).
  { unfold kC, uC, ke. setoid_replace (eps * (u * C))%Q with (u * (eps * C))%Q by ring.
    exact Hup. }
  assert (Hdn' : (kC - eps * uC - ke <= S)%Q).
  { unfold kC, uC, ke. setoid_replace (eps * (u * C))%Q with (u * (eps * C))%Q by ring.
    exact Hdn. }
  assert (Hsum : (S + C <= pw 900)%Q).
  { unfold eps in *. lra. }
  destruct (add_spec acc c Ha Hc Hsum) as (H1 & H2 & H3).
  fold C in H2, H3. fold S in H2, H3.
  split; [exact H1 |].
  set (S' := to_Q (add acc c)) in *.
  split.
  - setoid_replace ((k + 1) * C + (u + (k + 1) * (1 # 2) + (1 # 100)) * (eps * C)
                    + (k + 1) * eta)%Q
      with (kC + C + eps * uC + (1 # 2) * eps * kC + (51 # 100) * eps * C + ke + eta)%Q
      by (unfold kC, uC, ke; ring).
    unfold eps in *. lra.
  - setoid_replace ((k + 1) * C - (u + (k + 1) * (1 # 2) + (1 # 100)) * (eps * C)
                    - (k + 1) * eta)%Q
      with (kC + C - eps * uC - (1 # 2) * eps * kC - (51 # 100) * eps * C - ke - eta)%Q
      by (unfold kC, uC, ke; ring).
    unfold eps in *. lra.
Qed.

Lemma sum_snoc (c : float) (j : nat) :
  sum (repeat c (S j)) = add (sum (repeat c j)) c.
Proof.
  unfold sum. change (repeat c (S j)) with (c :: repeat c j).
  rewrite repeat_cons, fold_left_app. reflexivity.
Qed.

(** The running sum of [j] copies of a non-negative double, [j <= 20]. *)
Lemma sum_repeat (c : float) (j : nat) :
  sign_is false c -> (to_Q c <= pw 100)%Q -> (j <= 20)%nat ->
  sign_is false (sum (repeat c j))
  /\ (to_Q (sum (repeat c j))
      <= inject_Z (Z.of_nat j) * to_Q c
         + ((inject_Z (Z.of_nat j) * inject_Z (Z.of_nat j) + inject_Z (Z.of_nat j)) * (1 # 4)
            + inject_Z (Z.of_nat j) * (1 # 100)) * (eps * to_Q c)
         + inject_Z (Z.of_nat j) * eta)%Q
  /\ (inject_Z (Z.of_nat j) * to_Q c
      - ((inject_Z (Z.of_nat j) * inject_Z (Z.of_nat j) + inject_Z (Z.of_nat j)) * (1 # 4)
         + inject_Z (Z.of_nat j) * (1 # 100)) * (eps * to_Q c)
      - inject_Z (Z.of_nat j) * eta
      <= to_Q (sum (repeat c j)))%Q.
Proof.
  intros Hc Hb. induction j as [| j IH]; intros Hj.
  - split; [reflexivity |].
    change (sum (repeat c 0)) with pzero. change (to_Q pzero) with 0%Q.
    change (inject_Z (Z.of_nat 0)) with 0%Q. split; lra.
  - destruct (IH ltac:(lia)) as (I1 & I2 & I3). rewrite sum_snoc.
    assert (Hk : (0 <= inject_Z (Z.of_nat j) <= 19)%Q).
    { change 0%Q with (inject_Z 0). change 19%Q with (inject_Z 19).
      rewrite <- !Zle_Qle. lia. }
    assert (Hs : (inject_Z (Z.of_nat (S j)) == inject_Z (Z.of_nat j) + 1)%Q).
    { rewrite Nat2Z.inj_succ. unfold Z.succ. rewrite inject_Z_plus. reflexivity. }
    set (k := inject_Z (Z.of_nat j)) in *.
    assert (Hkk : (0 <= k * k <= 19 * k)%Q) by (split; nra).
    destruct (add_step (sum (repeat c j)) c k
                ((k * k + k) * (1 # 4) + k * (1 # 100))
                I1 Hc Hb Hk ltac:(lra) I2 I3)
      as (A1 & A2 & A3).
    split; [exact A1 |]. rewrite Hs. split.
    + eapply Qle_trans; [exact A2 |]. apply Qle_lteq. right. ring.
    + eapply Qle_trans; [| exact A3]. apply Qle_lteq. right. ring.
Qed.

Lemma sum_20 (c : float) :
  sign_is false c -> (to_Q c <= pw 100)%Q ->
  sign_is false (sum (repeat c 20))
  /\ (to_Q (sum (repeat c 20))
      <= 20 * to_Q c + (526 # 5) * (eps * to_Q c) + 20 * eta)%Q
  /\ (20 * to_Q c - (526 # 5) * (eps * to_Q c) - 20 * eta
      <= to_Q (sum (repeat c 20)))%Q.
Proof.
  intros Hc Hb. destruct (sum_repeat c 20 Hc Hb ltac:(lia)) as (H1 & H2 & H3).
  split; [exact H1 |].
  change (inject_Z (Z.of_nat 20)) with 20%Q in *.
  split.
  - eapply Qle_trans; [exact H2 |]. apply Qle_lteq. right. ring.
  - eapply Qle_trans; [| exact H3]. apply Qle_lteq. right. ring.
Qed.

Lemma sign_finite (s : bool) (r : float) : sign_is s r -> is_finite r = true.
Proof. destruct r; simpl; intros H; try contradiction; reflexivity. Qed.

Lemma sign_not_inf (s : bool) (r : float) : sign_is s r -> is_inf r = false.
Proof. destruct r; simpl; intros H; try contradiction; reflexivity. Qed.

Lemma sign_not_nan (s : bool) (r : float) : sign_is s r -> is_nan r = false.
Proof. destruct r; simpl; intros H; try contradiction; reflexivity. Qed.

Lemma finite_opp (r : float) : is_finite (SFopp r) = is_finite r.
Proof. destruct r; reflexivity. Qed.

Lemma div_20_spec (x : float) :
  sign_is false x -> (to_Q x <= pw 100)%Q ->
  truediv x (of_Z 20) = Ok (div x (of_Z 20))
  /\ approx (div x (of_Z 20)) ((1 # 20) * to_Q x).
Proof.
  intros Hx Hb. split; [reflexivity |].
  change (of_Z 20) with (S754_finite false 5629499534213120 (-48)).
  pose proof (sign_false_nonneg x Hx) as H0.
  assert (H900 : (pw 100 <= pw 900)%Q) by (apply pw_le; lia).
  apply div_spec; [exact Hx | | lra].
  assert (E : (to_Q (S754_finite false 5629499534213120 (-48)) == 20)%Q) by reflexivity.
  rewrite E. ring.
Qed.

(** The arithmetic of [get_bbands] on twenty equal closes: the band is
    the rounding to 8 decimals of a double that lies within a few units
    in the last place of the close. *)
Lemma lower_band_near (c : float) :
  sign_is false c ->
  (1 # 200000000 <= to_Q c)%Q -> (to_Q c <= 1000001)%Q ->
  exists x : float,
    lower_band (repeat c 20) = Ok (round x 8)
    /\ sign_is false x
    /\ (to_Q c - (37 # 2) * (eps * to_Q c) - (1 # 1237940039285380274899124224) <= to_Q x)%Q
    /\ (to_Q x <= to_Q c + 7 * (eps * to_Q c) + (1 # 1237940039285380274899124224))%Q.
Proof.
  intros Hc Hlo Hhi.
  pose proof eta_pos as Heta. pose proof eta_small as Hes.
  assert (H100 : (pw 100 == 1267650600228229401496703205376)%Q) by reflexivity.
  assert (H900 : (pw 100 <= pw 900)%Q) by (apply pw_le; lia).
  assert (H400 : (pw 100 <= pw 400)%Q) by (apply pw_le; lia).
  set (C := to_Q c) in *.
  (* the mean *)
  destruct (sum_20 c Hc ltac:(fold C; lra)) as (S1 & S2 & S3).
  set (s20 := sum (repeat c 20)) in *. fold C in S2, S3.
  destruct (div_20_spec s20 S1 ltac:(unfold eps in *; lra)) as (Hma & M1 & M2 & M3).
  set (ma := div s20 (of_Z 20)) in *.
  set (S := to_Q s20) in *. set (MA := to_Q ma) in *.
  assert (HMA : (C - (29 # 5) * (eps * C) - 2 * eta <= MA)%Q
                /\ (MA <= C + (29 # 5) * (eps * C) + 2 * eta)%Q).
  { unfold eps in *. split; lra. }
  destruct HMA as [HMA1 HMA2].
  (* the deviation of a close from the mean *)
  destruct (sub_spec c ma Hc M1 ltac:(fold C; lra) ltac:(fold MA; unfold eps in *; lra))
    as [Hd1 Hd2].
  fold C in Hd1, Hd2. fold MA in Hd1, Hd2.
  set (d := sub c ma) in *. set (D := to_Q d) in *.
  set (Bd := ((59 # 10) * (eps * C) + 3 * eta)%Q).
  assert (HBd : (0 <= Bd)%Q /\ (Bd <= 1)%Q) by (unfold Bd, eps; split; lra).
  assert (Hd : is_finite d = true /\ (D * D <= Bd * Bd)%Q).
  { destruct (Qlt_le_dec C MA) as [Hlt | Hle].
    - destruct (Hd2 Hlt) as (G1 & G2 & G3).
      pose proof (sign_false_nonneg _ G1) as G0.
      rewrite to_Q_opp in G0, G2, G3. fold D in G0, G2, G3.
      split; [rewrite <- finite_opp; exact (sign_finite _ _ G1) |].
      assert (- D <= Bd)%Q by (unfold Bd, eps in *; lra). nra.
    - destruct (Hd1 Hle) as (G1 & G2 & G3).
      pose proof (sign_false_nonneg _ G1) as G0. fold D in G0, G2, G3.
      split; [exact (sign_finite _ _ G1) |].
      assert (D <= Bd)%Q by (unfold Bd, eps in *; lra). nra. }
  destruct Hd as [Hdf HDD].
  assert (HBB : (0 <= Bd * Bd)%Q /\ (Bd * Bd <= 1)%Q) by (split; nra).
  assert (HDD0 : (0 <= D * D)%Q) by nra.
  set (DD := (D * D)%Q) in *. set (BB := (Bd * Bd)%Q) in *.
  (* its square *)
  destruct (mul_self_spec d Hdf ltac:(fold D; fold DD; lra)) as (Q1 & Q2 & Q3).
  set (sq := mul d d) in *. fold D in Q2, Q3. fold DD in Q2, Q3.
  set (Qs := to_Q sq) in *.
  assert (Hpow : pow2 (sub c ma) = Ok sq).
  { unfold pow2. fold d. fold sq. rewrite (sign_not_inf _ _ Q1), Bool.andb_false_r.
    reflexivity. }
  assert (Hsql : squared_list (repeat c 20) ma = Ok (repeat sq 20)).
  { unfold squared_list.
    apply (comprehension_repeat (fun close => pow2 (sub close ma)) c sq 20 Hpow). }
  (* the variance *)
  destruct (sum_20 sq Q1 ltac:(fold Qs; unfold eps in *; lra)) as (T1 & T2 & T3).
  set (t20 := sum (repeat sq 20)) in *. fold Qs in T2, T3.
  destruct (div_20_spec t20 T1 ltac:(unfold eps in *; lra)) as (Hvar & V1 & V2 & V3).
  set (var := div t20 (of_Z 20)) in *.
  set (T := to_Q t20) in *. set (VAR := to_Q var) in *.
  (* the standard deviation *)
  set (hh := pw (-535)).
  assert (Hhh : (hh * hh == 16 * eta)%Q).
  { unfold hh, eta. rewrite <- pw_add. change (-535 + -535) with (4 + -1074).
    rewrite pw_add. reflexivity. }
  assert (Hh0 : (0 < hh)%Q) by apply pw_pos.
  assert (Hh1 : (hh <= 1 # 1267650600228229401496703205376)%Q).
  { assert (E : (pw (-100) == 1 # 1267650600228229401496703205376)%Q) by reflexivity.
    rewrite <- E. apply pw_le. lia. }
  set (B := ((1001 # 1000) * Bd + hh)%Q).
  assert (HBh : (0 <= Bd * hh)%Q) by nra.
  assert (HBsq : (B * B == (1002001 # 1000000) * BB + (2002 # 1000) * (Bd * hh) + hh * hh)%Q)
    by (unfold B, BB; ring).
  destruct (sqrt_upper var B V1) as (R1 & R2).
  { unfold B. lra. }
  { fold VAR. rewrite HBsq, Hhh. unfold eps in *. lra. }
  { unfold B. lra. }
  set (sd := sqrt var) in *. set (SD := to_Q sd) in *.
  assert (Hsqrt : math_sqrt var = Ok sd).
  { unfold math_sqrt. fold sd. rewrite (sign_not_nan _ _ R1). reflexivity. }
  assert (Hsd : standard_deviation (repeat c 20) ma = Ok sd).
  { unfold standard_deviation. rewrite Hsql. unfold rbind at 1.
    fold t20. rewrite Hvar. unfold rbind. exact Hsqrt. }
  pose proof (sign_false_nonneg _ R1) as R0. fold SD in R0.
  (* twice the standard deviation, and the band *)
  set (y2 := S754_finite false 4503599627370496 (-51)).
  assert (Ey2 : (to_Q y2 == 2)%Q) by reflexivity.
  assert (Hy2 : sign_is false y2) by reflexivity.
  destruct (mul_spec sd y2 R1 Hy2) as (W1 & W2 & W3).
  { fold SD. rewrite Ey2. unfold B, Bd, eps in *. lra. }
  rewrite Ey2 in W2, W3. fold SD in W2, W3.
  set (w := mul sd y2) in *. set (W := to_Q w) in *.
  pose proof (sign_false_nonneg _ W1) as W0. fold W in W0.
  assert (HW : (W <= 12 * (eps * C) + 3 * hh)%Q).
  { unfold B, Bd, eps in *. lra. }
  destruct (sub_spec ma w M1 W1 ltac:(fold MA; unfold eps in *; lra)
              ltac:(fold W; unfold eps in *; lra)) as [Hx _].
  fold MA in Hx. fold W in Hx.
  destruct (Hx ltac:(unfold eps in *; lra)) as (X1 & X2 & X3).
  exists (sub ma w). split; [| split; [exact X1 |]].
  - unfold lower_band, simple_ma. fold s20. rewrite Hma. unfold rbind at 1.
    rewrite Hsd. unfold rbind. reflexivity.
  - set (X := to_Q (sub ma w)) in *. unfold eps in *. split; lra.
Qed.

Lemma round_half_even_near (num den n : Z) :
  0 < den ->
  (2 * n - 1) * den < 2 * num -> 2 * num < (2 * n + 1) * den ->
  round_half_even num den = n.
Proof.
  intros Hden Hlo Hhi. unfold round_half_even.
  pose proof (Z.div_mod num den ltac:(lia)) as Hdm.
  pose proof (Z.mod_pos_bound num den Hden) as Hmod.
  set (q := num / den) in *. set (r := num mod den) in *.
  assert (Hq : q = n - 1 \/ q = n) by nia.
  destruct (Z.compare_spec (2 * r) den) as [E | E | E]; nia.
Qed.

(** A positive double within half a unit of the 8th decimal of
    [n / 10^8] rounds to the double nearest to [n / 10^8]. *)
Lemma round_near (x : float) (n : positive) :
  sign_is false x ->
  (2 * inject_Z (Z.pos n) - 1 < 200000000 * to_Q x)%Q ->
  (200000000 * to_Q x < 2 * inject_Z (Z.pos n) + 1)%Q ->
  round x 8 = of_ratio false (Z.pos n) 100000000.
Proof.
  intros Hx Hlo Hhi.
  assert (Hn : (1 <= inject_Z (Z.pos n))%Q).
  { change 1%Q with (inject_Z 1). rewrite <- Zle_Qle. lia. }
  destruct (sign_false_cases x Hx) as [E | (m & e & E)]; subst x.
  - change (to_Q (S754_zero false)) with 0%Q in Hlo. lra.
  - unfold round. change (10 ^ Z.of_N 8) with 100000000.
    change (Z.to_pos 100000000) with 100000000%positive.
    rewrite to_Q_finite in Hlo, Hhi.
    assert (Hgoal : (if 0 <=? e then Z.pos m * 2 ^ e * 100000000
                     else round_half_even (Z.pos m * 100000000) (2 ^ (- e))) = Z.pos n);
      [| rewrite Hgoal; reflexivity].
    destruct (Z.leb_spec 0 e) as [He | He].
    + rewrite (pw_Z e He), <- inject_Z_mult in Hlo, Hhi.
      set (I := Z.pos m * 2 ^ e) in *.
      change 200000000%Q with (inject_Z 200000000) in Hlo, Hhi.
      change 2%Q with (inject_Z 2) in Hlo, Hhi.
      change 1%Q with (inject_Z 1) in Hlo, Hhi.
      unfold Qminus in Hlo.
      repeat (rewrite <- inject_Z_mult in Hlo || rewrite <- inject_Z_plus in Hlo
              || rewrite <- inject_Z_opp in Hlo).
      repeat (rewrite <- inject_Z_mult in Hhi || rewrite <- inject_Z_plus in Hhi).
      rewrite <- Zlt_Qlt in Hlo, Hhi. lia.
    + set (dZ := 2 ^ (- e)).
      assert (HdZ : 0 < dZ) by (apply Z.pow_pos_nonneg; lia).
      assert (HdQ : (0 < inject_Z dZ)%Q) by (change 0%Q with (inject_Z 0); rewrite <- Zlt_Qlt; exact HdZ).
      assert (Hp : (pw e * inject_Z dZ == 1)%Q).
      { unfold dZ. rewrite <- (pw_Z (- e)) by lia. rewrite <- pw_add.
        replace (e + - e) with 0 by lia. apply pw_0. }
      set (X := (inject_Z (Z.pos m) * pw e)%Q) in *.
      assert (HX : (X * inject_Z dZ == inject_Z (Z.pos m))%Q).
      { unfold X. rewrite <- Qmult_assoc, Hp. ring. }
      apply round_half_even_near; [exact HdZ | |].
      * apply (Qmult_lt_r _ _ (inject_Z dZ) HdQ) in Hlo.
        assert (H : ((2 * inject_Z (Z.pos n) - 1) * inject_Z dZ
                     < 200000000 * inject_Z (Z.pos m))%Q).
        { rewrite <- HX. eapply Qlt_le_trans; [exact Hlo |]. apply Qle_lteq. right. ring. }
        change 200000000%Q with (inject_Z 200000000) in H.
        change 2%Q with (inject_Z 2) in H. change 1%Q with (inject_Z 1) in H.
        unfold Qminus in H.
        repeat (rewrite <- inject_Z_mult in H || rewrite <- inject_Z_plus in H
                || rewrite <- inject_Z_opp in H).
        rewrite <- Zlt_Qlt in H. lia.
      * apply (Qmult_lt_r _ _ (inject_Z dZ) HdQ) in Hhi.
        assert (H : (200000000 * inject_Z (Z.pos m)
                     < (2 * inject_Z (Z.pos n) + 1) * inject_Z dZ)%Q).
        { rewrite <- HX. eapply Qle_lt_trans; [| exact Hhi]. apply Qle_lteq. right. ring. }
        change 200000000%Q with (inject_Z 200000000) in H.
        change 2%Q with (inject_Z 2) in H. change 1%Q with (inject_Z 1) in H.
        repeat (rewrite <- inject_Z_mult in H || rewrite <- inject_Z_plus in H).
        rewrite <- Zlt_Qlt in H. lia.
Qed.

Lemma round_half_even_le (num den : Z) :
  0 < den -> round_half_even num den <= num / den + 1.
Proof.
  intros Hden. unfold round_half_even.
  destruct (2 * (num mod den) ?= den); [destruct (Z.even (num / den)) | |]; lia.
Qed.

(** A non-negative double below 1000000 that rounding to 8 decimals leaves
    unchanged is zero or the double nearest to some [n / 10^8]. *)
Lemma round_fixed (c : float) :
  sign_is false c -> (to_Q c < 1000000)%Q -> round c 8 = c ->
  c = pzero
  \/ exists n : positive,
       Z.pos n <= 100000000000000 /\ c = of_ratio false (Z.pos n) 100000000.
Proof.
  intros Hc Hb Hr.
  destruct (sign_false_cases c Hc) as [E | (m & e & E)]; subst c; [left; reflexivity |].
  right. unfold round in Hr. change (10 ^ Z.of_N 8) with 100000000 in Hr.
  change (Z.to_pos 100000000) with 100000000%positive in Hr.
  rewrite to_Q_finite in Hb.
  set (n' := if 0 <=? e then Z.pos m * 2 ^ e * 100000000
             else round_half_even (Z.pos m * 100000000) (2 ^ (- e))) in *.
  assert (Hn' : n' <= 100000000000000).
  { unfold n'. destruct (Z.leb_spec 0 e) as [He | He].
    - rewrite (pw_Z e He), <- inject_Z_mult in Hb.
      change 1000000%Q with (inject_Z 1000000) in Hb. rewrite <- Zlt_Qlt in Hb. lia.
    - set (dZ := 2 ^ (- e)).
      assert (HdZ : 0 < dZ) by (apply Z.pow_pos_nonneg; lia).
      assert (HdQ : (0 < inject_Z dZ)%Q)
        by (change 0%Q with (inject_Z 0); rewrite <- Zlt_Qlt; exact HdZ).
      assert (Hp : (pw e * inject_Z dZ == 1)%Q).
      { unfold dZ. rewrite <- (pw_Z (- e)) by lia. rewrite <- pw_add.
        replace (e + - e) with 0 by lia. apply pw_0. }
      apply (Qmult_lt_r _ _ (inject_Z dZ) HdQ) in Hb.
      assert (H : (inject_Z (Z.pos m) < 1000000 * inject_Z dZ)%Q).
      { eapply Qle_lt_trans; [| exact Hb]. apply Qle_lteq. right.
        rewrite <- Qmult_assoc, Hp. ring. }
      change 1000000%Q with (inject_Z 1000000) in H.
      rewrite <- inject_Z_mult, <- Zlt_Qlt in H.
      pose proof (round_half_even_le (Z.pos m * 100000000) dZ HdZ) as Hle.
      pose proof (Z.mul_div_le (Z.pos m * 100000000) dZ HdZ) as Hq.
      assert (Z.pos m * 100000000 / dZ < 100000000000000) by nia.
      lia. }
  destruct n' as [| n | n]; try discriminate Hr.
  exists n. split; [exact Hn' | symmetry; exact Hr].
Qed.

Lemma of_ratio_approx (n : positive) :
  Z.pos n <= 100000000000000 ->
  approx (of_ratio false (Z.pos n) 100000000)
         (inject_Z (Z.pos n) * (1 # 100000000)).
Proof.
  intros Hn. unfold of_ratio.
  assert (HnQ : (inject_Z (Z.pos n) <= 100000000000000)%Q).
  { change 100000000000000%Q with (inject_Z 100000000000000). rewrite <- Zle_Qle. exact Hn. }
  assert (H0 : (0 < inject_Z (Z.pos n))%Q)
    by (change 0%Q with (inject_Z 0); rewrite <- Zlt_Qlt; lia).
  assert (H100 : (pw 100 == 1267650600228229401496703205376)%Q) by reflexivity.
  assert (H900 : (pw 100 <= pw 900)%Q) by (apply pw_le; lia).
  apply div_spec; [reflexivity | | lra].
  assert (E : (to_Q (S754_finite false 100000000 0) == 100000000)%Q) by reflexivity.
  rewrite E, to_Q_finite, pw_0. ring.
Qed.

(** Twenty closes equal to the double nearest to [n / 10^8]: the band is
    that double. *)
Lemma lower_band_8_decimals (n : positive) :
  Z.pos n <= 100000000000000 ->
  lower_band (repeat (of_ratio false (Z.pos n) 100000000) 20)
  = Ok (of_ratio false (Z.pos n) 100000000).
Proof.
  intros Hn. destruct (of_ratio_approx n Hn) as (C1 & C2 & C3).
  set (c := of_ratio false (Z.pos n) 100000000) in *.
  assert (HnQ : (1 <= inject_Z (Z.pos n))%Q /\ (inject_Z (Z.pos n) <= 100000000000000)%Q).
  { change 100000000000000%Q with (inject_Z 100000000000000).
    change 1%Q with (inject_Z 1). rewrite <- !Zle_Qle. lia. }
  destruct HnQ as [Hn1 Hn2].
  pose proof eta_pos as Heta. pose proof eta_small as Hes.
  set (NQ := inject_Z (Z.pos n)) in *. set (C := to_Q c) in *.
  destruct (lower_band_near c C1) as (x & Hx & X1 & X2 & X3).
  { fold C. unfold eps in *. lra. }
  { fold C. unfold eps in *. lra. }
  rewrite Hx. f_equal. fold C in X2, X3.
  apply round_near; [exact X1 | |]; fold NQ; unfold eps in *; lra.
Qed.

Lemma lower_band_zero : lower_band (repeat pzero 20) = Ok pzero.
Proof. vm_compute. reflexivity. Qed.

Lemma lower_band_fixed (c : float) :
  sign_is false c -> (to_Q c < 1000000)%Q -> round c 8 = c ->
  lower_band (repeat c 20) = Ok c.
Proof.
  intros Hc Hb Hr.
  destruct (round_fixed c Hc Hb Hr) as [E | (n & Hn & E)]; subst c.
  - apply lower_band_zero.
  - apply lower_band_8_decimals. exact Hn.
Qed.

(** C4, amended.  When the twenty closes gathered all equal a double [c]
    that is zero or positive, below 1000000, and that rounding to 8
    decimals leaves unchanged, [get_bbands] returns exactly [c].  The
    mean and the standard deviation computed on the way need not be [c]
    and zero. *)
Theorem get_bbands_constant_close (ex : Exchange) (w w' : World)
  (klines : list kline) (c : float) :
  get_klines ex 25 w = (Ok klines, w') ->
  last_20_closes klines = Ok (repeat c 20) ->
  sign_is false c -> (to_Q c < 1000000)%Q -> round c 8 = c ->
  get_bbands ex w = (Ok c, w').
Proof.
  intros Hk Hcl Hc Hb Hr.
  rewrite (get_bbands_run ex w w' klines Hk). rewrite Hcl.
  unfold rbind at 1. rewrite (lower_band_fixed c Hc Hb Hr). reflexivity.
Qed.

Lemma get_bbands_constant_close_witness :
  get_bbands (fixed_exchange tenth_window (Ok tt)) (ready_world (of_Z 250) "2H")
  = (Ok (of_ratio false 1 10),
     log (GetKlines (Some "BTCUSDT"%string) KLINE_INTERVAL_2HOUR 25)
       (ready_world (of_Z 250) "2H")).
Proof.
  apply (get_bbands_constant_close
           (fixed_exchange tenth_window (Ok tt)) (ready_world (of_Z 250) "2H")
           _ (rev tenth_window) (of_ratio false 1 10));
    vm_compute; reflexivity.
Defined.

(** The mean need not be [c]: with items added from left to right, twenty
    closes of 0.1 sum to 2.0000000000000004, their mean is not the double
    0.1 and the standard deviation computed is not zero.  The band is
    still 0.1 after rounding. *)
Remark get_bbands_tenths :
  simple_ma (repeat (of_ratio false 1 10) 20) <> Ok (of_ratio false 1 10)
  /\ (exists ma sd : float,
        simple_ma (repeat (of_ratio false 1 10) 20) = Ok ma
        /\ standard_deviation (repeat (of_ratio false 1 10) 20) ma = Ok sd
        /\ is_zero sd = false)
  /\ lower_band (repeat (of_ratio false 1 10) 20) = Ok (of_ratio false 1 10).
Proof.
  split; [vm_compute; intros H; discriminate H |].
  split; [| vm_compute; reflexivity].
  eexists. eexists.
  split; [vm_compute; reflexivity |].
  split; vm_compute; reflexivity.
Qed.

(** Some bound on the close is needed.  The double written
    3355456.62370843 is unchanged by rounding to 8 decimals, but the
    rounding errors of the mean and of the standard deviation move the
    band of twenty such closes to 3355456.62370842. *)
Remark get_bbands_large_price :
  sign_is false (of_ratio false 335545662370843 100000000)
  /\ round (of_ratio false 335545662370843 100000000) 8
     = of_ratio false 335545662370843 100000000
  /\ lower_band (repeat (of_ratio false 335545662370843 100000000) 20)
     = Ok (of_ratio false 335545662370842 100000000)
  /\ of_ratio false 335545662370842 100000000
     <> of_ratio false 335545662370843 100000000.
Proof.
  split; [reflexivity |].
  split; [vm_compute; reflexivity |].
  split; [vm_compute; reflexivity |].
  vm_compute. intros H. discriminate H.
Qed.

(** ** C9: the quantity bought *)

(** The quotient of two positive doubles is not negative. *)
Lemma binary_round_aux_positive (m e : Z) (l : location) :
  match binary_round_aux prec emax false m e l with
  | S754_zero s | S754_infinity s | S754_finite s _ _ => s = false
  | S754_nan => True
  end.
Proof.
  unfold binary_round_aux.
  destruct (shr_fexp prec emax m e l) as [mrs' e'].
  destruct (shr_fexp prec emax _ e' loc_Exact) as [mrs'' e''].
  destruct (shr_m mrs''); [reflexivity | | exact I].
  destruct (e'' <=? emax - prec); reflexivity.
Qed.

Lemma div_positive (ma mp : positive) (ea ep : Z) :
  match div (S754_finite false ma ea) (S754_finite false mp ep) with
  | S754_zero s | S754_infinity s | S754_finite s _ _ => s = false
  | S754_nan => True
  end.
Proof.
  unfold div, SFdiv.
  destruct (SFdiv_core_binary prec emax (Z.pos ma) ea (Z.pos mp) ep)
    as [[mz ez] lz].
  apply binary_round_aux_positive.
Qed.

(** [int] of a finite double that is not negative is the floor of its
    exact value. *)
Lemma to_int_floor (x : float) :
  is_finite x = true ->
  match x with
  | S754_zero s | S754_infinity s | S754_finite s _ _ => s = false
  | S754_nan => True
  end ->
  to_int x = Ok (Qfloor (to_Q x)).
Proof.
  destruct x as [s | s | | s m e]; simpl; intros Hfin Hs;
    try discriminate Hfin.
  - reflexivity.
  - subst s. destruct (0 <=? e) eqn:He.
    + rewrite Qfloor_Z. reflexivity.
    + apply Z.leb_gt in He. unfold Qfloor.
      rewrite Z2Pos.id by (apply Z.pow_pos_nonneg; lia).
      reflexivity.
Qed.

(** What [place_market_buy] does once the quotient has an integer part. *)
Lemma place_market_buy_run (ex : Exchange) (w : World) (c : Client)
  (a current_price q : float) (n : Z) :
  trade_amount (bot w) = Some a ->
  client (bot w) = Some c ->
  truediv a current_price = Ok q ->
  to_int q = Ok n ->
  place_market_buy ex current_price w
  = (ex_order_market_buy ex (sent w) (asset (bot w)) n,
     log (OrderMarketBuy (asset (bot w)) n) (with_amount n w)).
Proof.
  intros Ha Hc Hq Hn.
  run_method place_market_buy.
  rewrite Ha. cbv beta iota. rewrite Hq. cbv beta iota.
  rewrite Hn. cbv beta iota.
  unfold setattr_amount, with_amount, set_bot, log.
  simpl. rewrite Hc. reflexivity.
Qed.

(** C9, as stated, fails.  Both numbers are positive, their quotient
    overflows to infinity, [int] raises [OverflowError]: nothing is bought
    and no quantity is stored. *)
Lemma quotient_overflow_buys_nothing :
  (0 < to_Q huge_amount)%Q
  /\ (0 < to_Q tiny_price)%Q
  /\ place_market_buy (fixed_exchange [] (Ok tt)) tiny_price
       (ready_world huge_amount "15m")
     = (Raise OverflowError, ready_world huge_amount "15m").
Proof.
  split; [vm_compute; reflexivity |].
  split; vm_compute; reflexivity.
Qed.

(** C9, amended.  For every positive finite trade amount and price whose
    quotient, computed in double precision, is finite, [place_market_buy]
    stores and orders the floor of that quotient.  With 250 and 100 the
    quantity is 2. *)
Theorem place_market_buy_quantity (ex : Exchange) (w : World) (c : Client)
  (ma mp : positive) (ea ep : Z) :
  trade_amount (bot w) = Some (positive_float ma ea) ->
  client (bot w) = Some c ->
  is_finite (div (positive_float ma ea) (positive_float mp ep)) = true ->
  (place_market_buy ex (positive_float mp ep) w
   = (ex_order_market_buy ex (sent w) (asset (bot w))
        (floor_of_quotient (positive_float ma ea) (positive_float mp ep)),
      log (OrderMarketBuy (asset (bot w))
             (floor_of_quotient (positive_float ma ea) (positive_float mp ep)))
        (with_amount
           (floor_of_quotient (positive_float ma ea) (positive_float mp ep)) w))
   /\ amount (bot (snd (place_market_buy ex (positive_float mp ep) w)))
      = Some (floor_of_quotient (positive_float ma ea) (positive_float mp ep)))
  /\ floor_of_quotient (of_Z 250) (of_Z 100) = 2
  /\ sent (snd (place_market_buy ex (of_Z 100) (ready_world (of_Z 250) "15m")))
     = [OrderMarketBuy (Some "BTCUSDT"%string) 2].
Proof.
  intros Ha Hc Hfin.
  set (a := positive_float ma ea) in *.
  set (current_price := positive_float mp ep) in *.
  set (n := floor_of_quotient a current_price).
  assert (Hrun : place_market_buy ex current_price w
                 = (ex_order_market_buy ex (sent w) (asset (bot w)) n,
                    log (OrderMarketBuy (asset (bot w)) n) (with_amount n w))).
  { apply (place_market_buy_run ex w c a current_price (div a current_price) n).
    - exact Ha.
    - exact Hc.
    - reflexivity.
    - apply to_int_floor; [exact Hfin | apply div_positive]. }
  split; [split; [exact Hrun | rewrite Hrun; reflexivity] |].
  split; reflexivity.
Qed.

Lemma place_market_buy_quantity_witness :
  (place_market_buy (fixed_exchange [] (Ok tt)) (of_Z 100)
     (ready_world (of_Z 250) "15m")
   = (Ok tt,
      log (OrderMarketBuy (Some "BTCUSDT"%string) 2)
        (with_amount 2 (ready_world (of_Z 250) "15m")))
   /\ amount (bot (snd (place_market_buy (fixed_exchange [] (Ok tt)) (of_Z 100)
                          (ready_world (of_Z 250) "15m"))))
      = Some 2)
  /\ floor_of_quotient (of_Z 250) (of_Z 100) = 2
  /\ sent (snd (place_market_buy (fixed_exchange [] (Ok tt)) (of_Z 100)
                  (ready_world (of_Z 250) "15m")))
     = [OrderMarketBuy (Some "BTCUSDT"%string) 2].
Proof.
  apply (place_market_buy_quantity
           (fixed_exchange [] (Ok tt)) (ready_world (of_Z 250) "15m")
           {| api_key := "key"; secret_key := "secret" |}
           8796093022208000 7036874417766400 (-45) (-46));
    reflexivity.
Defined.

(** The floor is taken of the rounded quotient.  For the doubles just
    below 6 and just below 2 the exact quotient is below 3, the double
    quotient is 3.0, and 3 units are ordered. *)
Remark place_market_buy_rounded_quotient :
  (to_Q (positive_float 6755399441055743 (-50))
   / to_Q (positive_float 9007199254740991 (-52)) < 3)%Q
  /\ sent (snd (place_market_buy (fixed_exchange [] (Ok tt))
                  (positive_float 9007199254740991 (-52))
                  (ready_world (positive_float 6755399441055743 (-50)) "15m")))
     = [OrderMarketBuy (Some "BTCUSDT"%string) 3].
Proof.
  split; vm_compute; reflexivity.
Qed.

(** ** C8: a buy order the exchange refuses *)

(** C8, as stated, fails.  The exchange refuses the order and the
    exception reaches the caller, but the object is not what it was:
    [self.amount], which did not exist, now holds the quantity 2. *)
Lemma refused_buy_keeps_amount :
  fst (place_market_buy refusing_exchange (of_Z 100) (ready_world (of_Z 250) "15m"))
  = Raise (ExchangeError (-2010))
  /\ amount (bot (ready_world (of_Z 250) "15m")) = None
  /\ amount (bot after_refused_buy) = Some 2
  /\ bot after_refused_buy <> bot (ready_world (of_Z 250) "15m").
Proof.
  split; [reflexivity |].
  split; [reflexivity |].
  split; [reflexivity |].
  intros H. apply (f_equal amount) in H. discriminate H.
Qed.

(** C8, amended.  When the exchange answers the buy order with an
    exception, [place_market_buy] raises that exception, and [asset],
    [trade_amount], [client] and [time_interval] are unchanged; the
    quantity computed has been stored in [self.amount] and stays there. *)
Theorem place_market_buy_refused (ex : Exchange) (w : World) (c : Client)
  (a current_price q : float) (n : Z) (e : exn) :
  trade_amount (bot w) = Some a ->
  client (bot w) = Some c ->
  truediv a current_price = Ok q ->
  to_int q = Ok n ->
  ex_order_market_buy ex (sent w) (asset (bot w)) n = Raise e ->
  fst (place_market_buy ex current_price w) = Raise e
  /\ asset (bot (snd (place_market_buy ex current_price w))) = asset (bot w)
  /\ trade_amount (bot (snd (place_market_buy ex current_price w)))
     = trade_amount (bot w)
  /\ client (bot (snd (place_market_buy ex current_price w))) = client (bot w)
  /\ time_interval (bot (snd (place_market_buy ex current_price w)))
     = time_interval (bot w)
  /\ amount (bot (snd (place_market_buy ex current_price w))) = Some n
  /\ sent (snd (place_market_buy ex current_price w))
     = sent w ++ [OrderMarketBuy (asset (bot w)) n].
Proof.
  intros Ha Hc Hq Hn He.
  rewrite (place_market_buy_run ex w c a current_price q n Ha Hc Hq Hn).
  simpl. rewrite He. repeat split; reflexivity.
Qed.

Lemma place_market_buy_refused_witness :
  fst (place_market_buy refusing_exchange (of_Z 100) (ready_world (of_Z 250) "15m"))
  = Raise (ExchangeError (-2010))
  /\ asset (bot after_refused_buy) = asset (bot (ready_world (of_Z 250) "15m"))
  /\ trade_amount (bot after_refused_buy)
     = trade_amount (bot (ready_world (of_Z 250) "15m"))
  /\ client (bot after_refused_buy) = client (bot (ready_world (of_Z 250) "15m"))
  /\ time_interval (bot after_refused_buy)
     = time_interval (bot (ready_world (of_Z 250) "15m"))
  /\ amount (bot after_refused_buy) = Some 2
  /\ sent after_refused_buy
     = sent (ready_world (of_Z 250) "15m")
       ++ [OrderMarketBuy (asset (bot (ready_world (of_Z 250) "15m"))) 2].
Proof.
  apply (place_market_buy_refused
           refusing_exchange (ready_world (of_Z 250) "15m")
           {| api_key := "key"; secret_key := "secret" |}
           (of_Z 250) (of_Z 100) (div (of_Z 250) (of_Z 100)) 2
           (ExchangeError (-2010)));
    reflexivity.
Defined.

(** ** C7: selling without a position *)

(** C7, as stated, fails.  The only buy of the session was refused by the
    exchange, so no position was opened, and [place_market_sell] still
    sends a sell order, for the quantity the refused buy left behind. *)
Lemma sell_is_sent_after_refused_buy :
  fst (place_market_buy refusing_exchange (of_Z 100) (ready_world (of_Z 250) "15m"))
  = Raise (ExchangeError (-2010))
  /\ fst (place_market_sell refusing_exchange after_refused_buy) = Ok tt
  /\ sent (snd (place_market_sell refusing_exchange after_refused_buy))
     = [OrderMarketBuy (Some "BTCUSDT"%string) 2;
        OrderMarketSell (Some "BTCUSDT"%string) 2].
Proof.
  split; [reflexivity |].
  split; reflexivity.
Qed.

(** Away from [place_market_buy], a method leaves [self.amount] alone. *)
Lemma get_bbands_world (ex : Exchange) (w : World) :
  snd (get_bbands ex w) = snd (get_klines ex 25 w).
Proof.
  unfold get_bbands, bind, lift.
  destruct (get_klines ex 25 w) as [[e | klines] w']; [reflexivity |].
  destruct (last_20_closes klines); reflexivity.
Qed.

Lemma get_current_asset_price_world (ex : Exchange) (w : World) :
  snd (get_current_asset_price ex w) = snd (get_klines ex 1 w).
Proof.
  unfold get_current_asset_price, bind, lift, ret.
  destruct (get_klines ex 1 w) as [[e | klines] w']; [reflexivity |].
  destruct (getitem klines 0); reflexivity.
Qed.

Lemma get_klines_amount (ex : Exchange) (limit_ : Z) (w : World) :
  amount (bot (snd (get_klines ex limit_ w))) = amount (bot w).
Proof.
  run_method get_klines.
  destruct (client (bot w)); [| reflexivity].
  destruct (time_interval (bot w)) as [code |]; [| reflexivity].
  destruct (dict_getitem kline_intervals code) as [e | interval];
    [reflexivity |].
  destruct (ex_get_klines ex (sent w) (asset (bot w)) interval limit_);
    reflexivity.
Qed.

Lemma place_market_sell_amount (ex : Exchange) (w : World) :
  amount (bot (snd (place_market_sell ex w))) = amount (bot w).
Proof.
  run_method place_market_sell.
  destruct (client (bot w)); [| reflexivity].
  destruct (amount (bot w)) as [n |] eqn:Ham; [| simpl; exact Ham].
  destruct (ex_order_market_sell ex (sent w) (asset (bot w)) n);
    simpl; exact Ham.
Qed.

Lemma never_bought_amount (w : World) : never_bought w -> amount (bot w) = None.
Proof.
  induction 1 as [| k s w H IH | a t i w H IH | ex l w H IH | ex w H IH
                  | ex w H IH | ex w H IH].
  - reflexivity.
  - exact IH.
  - exact IH.
  - rewrite get_klines_amount. exact IH.
  - rewrite get_bbands_world, get_klines_amount. exact IH.
  - rewrite get_current_asset_price_world, get_klines_amount. exact IH.
  - rewrite place_market_sell_amount. exact IH.
Qed.

(** C7, amended.  In a session in which [place_market_buy] has not been
    called, [place_market_sell] raises and leaves the session, the log of
    requests included, as it was: no sell order is sent.  With a connected
    client the exception is [AttributeError] on [amount], which the
    specification calls NoOpenPositionError. *)
Theorem place_market_sell_before_any_buy (ex : Exchange) (w : World) :
  never_bought w ->
  exists e : exn,
    place_market_sell ex w = (Raise e, w)
    /\ sent (snd (place_market_sell ex w)) = sent w
    /\ (client (bot w) <> None -> e = AttributeError "amount").
Proof.
  intros Hnb. pose proof (never_bought_amount w Hnb) as Ham.
  run_method place_market_sell.
  destruct (client (bot w)) as [c |] eqn:Hc.
  - exists (AttributeError "amount"). cbv beta iota. rewrite Ham.
    split; [reflexivity | split; [reflexivity | trivial]].
  - exists (AttributeError "client"). cbv beta iota.
    split; [reflexivity | split; [reflexivity |]].
    intros Hne. exfalso. apply Hne. reflexivity.
Qed.

Lemma place_market_sell_before_any_buy_witness :
  exists e : exn,
    place_market_sell refusing_exchange (ready_world (of_Z 250) "15m")
    = (Raise e, ready_world (of_Z 250) "15m")
    /\ sent (snd (place_market_sell refusing_exchange
                    (ready_world (of_Z 250) "15m")))
       = sent (ready_world (of_Z 250) "15m")
    /\ (client (bot (ready_world (of_Z 250) "15m")) <> None ->
        e = AttributeError "amount").
Proof.
  apply (place_market_sell_before_any_buy
           refusing_exchange (ready_world (of_Z 250) "15m")).
  unfold ready_world.
  apply nb_setup_params. apply nb_connect. apply nb_fresh.
Defined.

(** ** C10: storing and reading back a user *)

(** Reading after an insertion: an older row of that name wins, else the
    new row is found if it has that name. *)
Lemma get_user_data_after_create (db : Database) (u p a s name : string) :
  get_user_data (create_user db u p a s) name
  = match get_user_data db name with
    | Some r => Some r
    | None => if String.eqb u name then Some (row u p a s) else None
    end.
Proof.
  unfold get_user_data, create_user, row. simpl.
  induction (user_data db) as [| r rows IH]; simpl.
  - reflexivity.
  - destruct (String.eqb (username r) name); [reflexivity | exact IH].
Qed.

(** A username that no stored row carries is not found. *)
Lemma get_user_data_absent (db : Database) (name : string) :
  (forall r : user_row, In r (user_data db) -> username r <> name) ->
  get_user_data db name = None.
Proof.
  unfold get_user_data.
  induction (user_data db) as [| r rows IH]; intros Hall; simpl.
  - reflexivity.
  - destruct (String.eqb (username r) name) eqn:Heq.
    + apply String.eqb_eq in Heq. exfalso.
      apply (Hall r); [left; reflexivity | exact Heq].
    + apply IH. intros r' Hr'. apply Hall. right. exact Hr'.
Qed.

(** C10.  In a table where no stored row carries that username, whatever
    other users it holds, [create_user] followed by [get_user_data] on
    the username returns the four values stored, unchanged; after a second
    [create_user] under the same username, whatever its other values,
    [get_user_data] still returns the first of the two rows. *)
Theorem get_user_data_create_user (db : Database) (u p a s p' a' s' : string) :
  (forall r : user_row, In r (user_data db) -> username r <> u) ->
  get_user_data (create_user db u p a s) u = Some (row u p a s)
  /\ get_user_data (create_user (create_user db u p a s) u p' a' s') u
     = Some (row u p a s).
Proof.
  intros Hnew.
  pose proof (get_user_data_absent db u Hnew) as Hnone.
  assert (Hone : get_user_data (create_user db u p a s) u = Some (row u p a s)).
  { rewrite get_user_data_after_create, Hnone, String.eqb_refl. reflexivity. }
  split; [exact Hone |].
  rewrite get_user_data_after_create, Hone. reflexivity.
Qed.

Lemma get_user_data_create_user_witness :
  get_user_data (create_user table_with_bob "alice" "hash1" "k1" "s1") "alice"
  = Some (row "alice" "hash1" "k1" "s1")
  /\ get_user_data
       (create_user (create_user table_with_bob "alice" "hash1" "k1" "s1")
          "alice" "hash2" "k2" "s2")
       "alice"
     = Some (row "alice" "hash1" "k1" "s1").
Proof.
  apply (get_user_data_create_user table_with_bob
           "alice" "hash1" "k1" "s1" "hash2" "k2" "s2").
  simpl. intros r [Hr | Hr]; [subst r; discriminate | contradiction].
Defined.

(** * Further properties of the code *)

(** ** The methods that read candles *)

Lemma get_klines_only_queried (ex : Exchange) (limit_ : Z) (w : World) :
  only_queried limit_ w (snd (get_klines ex limit_ w)).
Proof.
  unfold only_queried. run_method get_klines.
  destruct (client (bot w)); [| split; [reflexivity | left; reflexivity]].
  destruct (time_interval (bot w)) as [code |];
    [| split; [reflexivity | left; reflexivity]].
  destruct (dict_getitem kline_intervals code) as [e | interval];
    [split; [reflexivity | left; reflexivity] |].
  destruct (ex_get_klines ex (sent w) (asset (bot w)) interval limit_);
    (split; [reflexivity | right; exists interval; reflexivity]).
Qed.

(** X1.  [get_klines], [get_bbands] and [get_current_asset_price] never
    change an attribute of the object and never send an order: each sends
    at most one request, the kline request for its number of candles (the
    given limit, 25 and 1), whatever the exchange answers and whether or
    not the method raises. *)
Theorem candle_readers_only_query (ex : Exchange) (limit_ : Z) (w : World) :
  only_queried limit_ w (snd (get_klines ex limit_ w))
  /\ only_queried 25 w (snd (get_bbands ex w))
  /\ only_queried 1 w (snd (get_current_asset_price ex w)).
Proof.
  split; [apply get_klines_only_queried |].
  split.
  - rewrite get_bbands_world. apply get_klines_only_queried.
  - rewrite get_current_asset_price_world. apply get_klines_only_queried.
Qed.

Lemma getitem_rev_snoc {A : Type} (l : list A) (a : A) :
  getitem (rev (l ++ [a])) 0 = Ok a.
Proof.
  rewrite rev_app_distr. reflexivity.
Qed.

(** X2.  [get_current_asset_price] returns the close, as a float, of the
    last candle of the window the exchange sent, which is the most recent
    one in a window sent oldest first, however many candles came back; an
    empty window raises [IndexError].  One request for 1 candle is sent
    either way. *)
Theorem get_current_asset_price_newest (ex : Exchange) (w : World)
  (c : Client) (code : string) (interval : interval_token)
  (window : list kline) :
  client (bot w) = Some c ->
  time_interval (bot w) = Some code ->
  dict_getitem kline_intervals code = Ok interval ->
  ex_get_klines ex (sent w) (asset (bot w)) interval 1 = Ok window ->
  (window = [] ->
   get_current_asset_price ex w
   = (Raise IndexError, log (GetKlines (asset (bot w)) interval 1) w))
  /\ (forall (older : list kline) (newest : kline),
        window = older ++ [newest] ->
        get_current_asset_price ex w
        = (Ok (close_price newest),
           log (GetKlines (asset (bot w)) interval 1) w)).
Proof.
  intros Hc Ht Hd Hx.
  pose proof (get_klines_run ex w 1 c code interval window Hc Ht Hd Hx) as Hk.
  split.
  - intros Hw. subst window.
    unfold get_current_asset_price, bind, lift, ret. rewrite Hk. reflexivity.
  - intros older newest Hw. subst window.
    unfold get_current_asset_price, bind, lift, ret. rewrite Hk.
    rewrite getitem_rev_snoc. reflexivity.
Qed.

Lemma get_current_asset_price_newest_witness :
  ([kline_at 1; kline_at 2] = [] ->
   get_current_asset_price (fixed_exchange two_candles (Ok tt))
     (ready_world (of_Z 250) "30m")
   = (Raise IndexError,
      log (GetKlines (Some "BTCUSDT"%string) KLINE_INTERVAL_30MINUTE 1)
        (ready_world (of_Z 250) "30m")))
  /\ (forall (older : list kline) (newest : kline),
        [kline_at 1; kline_at 2] = older ++ [newest] ->
        get_current_asset_price (fixed_exchange two_candles (Ok tt))
          (ready_world (of_Z 250) "30m")
        = (Ok (close_price newest),
           log (GetKlines (Some "BTCUSDT"%string) KLINE_INTERVAL_30MINUTE 1)
             (ready_world (of_Z 250) "30m"))).
Proof.
  apply (get_current_asset_price_newest
           (fixed_exchange two_candles (Ok tt)) (ready_world (of_Z 250) "30m")
           {| api_key := "key"; secret_key := "secret" |} "30m"
           KLINE_INTERVAL_30MINUTE [kline_at 1; kline_at 2]);
    reflexivity.
Defined.

(** X3.  When the exchange fails on the kline request a method sends,
    the method raises the exception of the exchange unchanged, after that
    one request and without touching the object: [get_klines] for the
    limit it was given, [get_bbands] for its request of 25 candles and
    [get_current_asset_price] for its request of 1 candle, whatever the
    exchange would answer to other requests. *)
Theorem kline_failure_is_raised (ex : Exchange) (w : World) (c : Client)
  (code : string) (interval : interval_token) :
  client (bot w) = Some c ->
  time_interval (bot w) = Some code ->
  dict_getitem kline_intervals code = Ok interval ->
  (forall (limit_ : Z) (e : exn),
     ex_get_klines ex (sent w) (asset (bot w)) interval limit_ = Raise e ->
     get_klines ex limit_ w
     = (Raise e, log (GetKlines (asset (bot w)) interval limit_) w))
  /\ (forall e : exn,
        ex_get_klines ex (sent w) (asset (bot w)) interval 25 = Raise e ->
        get_bbands ex w
        = (Raise e, log (GetKlines (asset (bot w)) interval 25) w))
  /\ (forall e : exn,
        ex_get_klines ex (sent w) (asset (bot w)) interval 1 = Raise e ->
        get_current_asset_price ex w
        = (Raise e, log (GetKlines (asset (bot w)) interval 1) w)).
Proof.
  intros Hc Ht Hd.
  assert (Hk : forall (limit_ : Z) (e : exn),
             ex_get_klines ex (sent w) (asset (bot w)) interval limit_
             = Raise e ->
             get_klines ex limit_ w
             = (Raise e, log (GetKlines (asset (bot w)) interval limit_) w)).
  { intros limit_ e Hx.
    apply (get_klines_exchange_error ex w limit_ c code interval e Hc Ht Hd Hx). }
  split; [exact Hk |].
  split.
  - intros e Hx. unfold get_bbands, bind. rewrite (Hk 25 e Hx). reflexivity.
  - intros e Hx. unfold get_current_asset_price, bind.
    rewrite (Hk 1 e Hx). reflexivity.
Qed.

(** An exchange that fails on the request for 25 candles only, then one
    that fails on the request for 1 candle only. *)
Lemma kline_failure_is_raised_witness :
  get_bbands (exchange_failing_on 25 (ExchangeError (-1003)) two_candles)
    (ready_world (of_Z 250) "6H")
  = (Raise (ExchangeError (-1003)),
     log (GetKlines (Some "BTCUSDT"%string) KLINE_INTERVAL_6HOUR 25)
       (ready_world (of_Z 250) "6H"))
  /\ get_current_asset_price
       (exchange_failing_on 1 (ExchangeError (-1003)) two_candles)
       (ready_world (of_Z 250) "6H")
     = (Raise (ExchangeError (-1003)),
        log (GetKlines (Some "BTCUSDT"%string) KLINE_INTERVAL_6HOUR 1)
          (ready_world (of_Z 250) "6H")).
Proof.
  split.
  - apply (proj1 (proj2 (kline_failure_is_raised
                           (exchange_failing_on 25 (ExchangeError (-1003))
                              two_candles)
                           (ready_world (of_Z 250) "6H")
                           {| api_key := "key"; secret_key := "secret" |} "6H"
                           KLINE_INTERVAL_6HOUR eq_refl eq_refl eq_refl))).
    reflexivity.
  - apply (proj2 (proj2 (kline_failure_is_raised
                           (exchange_failing_on 1 (ExchangeError (-1003))
                              two_candles)
                           (ready_world (of_Z 250) "6H")
                           {| api_key := "key"; secret_key := "secret" |} "6H"
                           KLINE_INTERVAL_6HOUR eq_refl eq_refl eq_refl))).
    reflexivity.
Defined.

(** X4.  Twenty candles are enough for [get_bbands]: when [get_klines]
    hands it at least twenty, the closes gathered are those of the first
    twenty, in order, and no [IndexError] is raised.  Nothing else is read:
    two lists of candles whose first twenty closes agree give the same
    result, whatever their other fields and their later candles. *)
Theorem get_bbands_reads_20_closes (ex : Exchange) (w w' : World)
  (klines : list kline) :
  get_klines ex 25 w = (Ok klines, w') ->
  (20 <= List.length klines)%nat ->
  last_20_closes klines = Ok (map close_price (firstn 20 klines))
  /\ get_bbands ex w = (lower_band (map close_price (firstn 20 klines)), w')
  /\ (forall (ex2 : Exchange) (w2 w2' : World) (klines2 : list kline),
        get_klines ex2 25 w2 = (Ok klines2, w2') ->
        (20 <= List.length klines2)%nat ->
        map kl_close (firstn 20 klines2) = map kl_close (firstn 20 klines) ->
        fst (get_bbands ex2 w2) = fst (get_bbands ex w)).
Proof.
  intros Hk Hlen.
  assert (Hcl : forall l : list kline,
             (20 <= List.length l)%nat ->
             last_20_closes l = Ok (map close_price (firstn 20 l))).
  { intros l Hl. unfold last_20_closes.
    rewrite (comprehension_seq_ok (fun k => float_of_decimal (kl_close k)))
      by lia.
    rewrite skipn_O. reflexivity. }
  split; [apply Hcl; exact Hlen |].
  split.
  - rewrite (get_bbands_run ex w w' klines Hk), (Hcl klines Hlen). reflexivity.
  - intros ex2 w2 w2' klines2 Hk2 Hlen2 Hsame.
    assert (Hcp : map close_price (firstn 20 klines2)
                  = map close_price (firstn 20 klines)).
    { unfold close_price.
      rewrite <- (map_map kl_close float_of_decimal (firstn 20 klines2)).
      rewrite <- (map_map kl_close float_of_decimal (firstn 20 klines)).
      rewrite Hsame. reflexivity. }
    rewrite (get_bbands_run ex w w' klines Hk), (Hcl klines Hlen).
    rewrite (get_bbands_run ex2 w2 w2' klines2 Hk2), (Hcl klines2 Hlen2).
    rewrite Hcp. reflexivity.
Qed.

Lemma get_bbands_reads_20_closes_witness :
  last_20_closes (rev window_25) = Ok (map close_price (firstn 20 (rev window_25)))
  /\ get_bbands (fixed_exchange window_25 (Ok tt)) (ready_world (of_Z 250) "12H")
     = (lower_band (map close_price (firstn 20 (rev window_25))),
        log (GetKlines (Some "BTCUSDT"%string) KLINE_INTERVAL_12HOUR 25)
          (ready_world (of_Z 250) "12H"))
  /\ (forall (ex2 : Exchange) (w2 w2' : World) (klines2 : list kline),
        get_klines ex2 25 w2 = (Ok klines2, w2') ->
        (20 <= List.length klines2)%nat ->
        map kl_close (firstn 20 klines2)
        = map kl_close (firstn 20 (rev window_25)) ->
        fst (get_bbands ex2 w2)
        = fst (get_bbands (fixed_exchange window_25 (Ok tt))
                 (ready_world (of_Z 250) "12H"))).
Proof.
  apply (get_bbands_reads_20_closes
           (fixed_exchange window_25 (Ok tt)) (ready_world (of_Z 250) "12H")).
  - reflexivity.
  - simpl. lia.
Defined.

(** ** The two order methods *)

(** What [place_market_sell] does once [self.amount] exists. *)
Lemma place_market_sell_run (ex : Exchange) (w : World) (c : Client) (n : Z) :
  client (bot w) = Some c ->
  amount (bot w) = Some n ->
  place_market_sell ex w
  = (ex_order_market_sell ex (sent w) (asset (bot w)) n,
     log (OrderMarketSell (asset (bot w)) n) w).
Proof.
  intros Hc Ham. run_method place_market_sell.
  rewrite Hc. cbv beta iota. rewrite Ham. reflexivity.
Qed.

(** X5.  [place_market_sell] sends one sell order, for the quantity held
    in [self.amount] and the current asset, and changes no attribute,
    whether the exchange accepts the order or not: [self.amount] is not
    cleared, and a second call sends the same order again. *)
Theorem place_market_sell_keeps_amount (ex : Exchange) (w : World)
  (c : Client) (n : Z) :
  client (bot w) = Some c ->
  amount (bot w) = Some n ->
  place_market_sell ex w
  = (ex_order_market_sell ex (sent w) (asset (bot w)) n,
     log (OrderMarketSell (asset (bot w)) n) w)
  /\ bot (snd (place_market_sell ex w)) = bot w
  /\ sent (snd (place_market_sell ex (snd (place_market_sell ex w))))
     = sent w ++ [OrderMarketSell (asset (bot w)) n;
                  OrderMarketSell (asset (bot w)) n].
Proof.
  intros Hc Ham.
  pose proof (place_market_sell_run ex w c n Hc Ham) as Hrun.
  split; [exact Hrun |].
  split; [rewrite Hrun; reflexivity |].
  rewrite Hrun. simpl.
  rewrite (place_market_sell_run ex
             (log (OrderMarketSell (asset (bot w)) n) w) c n Hc Ham).
  simpl. rewrite <- app_assoc. reflexivity.
Qed.

Lemma place_market_sell_keeps_amount_witness :
  place_market_sell refusing_exchange after_refused_buy
  = (ex_order_market_sell refusing_exchange (sent after_refused_buy)
       (asset (bot after_refused_buy)) 2,
     log (OrderMarketSell (asset (bot after_refused_buy)) 2) after_refused_buy)
  /\ bot (snd (place_market_sell refusing_exchange after_refused_buy))
     = bot after_refused_buy
  /\ sent (snd (place_market_sell refusing_exchange
                  (snd (place_market_sell refusing_exchange after_refused_buy))))
     = sent after_refused_buy
       ++ [OrderMarketSell (asset (bot after_refused_buy)) 2;
           OrderMarketSell (asset (bot after_refused_buy)) 2].
Proof.
  apply (place_market_sell_keeps_amount refusing_exchange after_refused_buy
           {| api_key := "key"; secret_key := "secret" |} 2);
    reflexivity.
Defined.

(** X6.  A [place_market_buy] that computed the quantity [n], followed by
    [place_market_sell], sends a buy order and then a sell order for that
    same [n] and the same asset, whatever the exchange answered to either:
    the sell does not depend on the buy having been accepted. *)
Theorem buy_then_sell_same_quantity (ex : Exchange) (w : World) (c : Client)
  (a current_price q : float) (n : Z) :
  trade_amount (bot w) = Some a ->
  client (bot w) = Some c ->
  truediv a current_price = Ok q ->
  to_int q = Ok n ->
  sent (snd (place_market_sell ex (snd (place_market_buy ex current_price w))))
  = sent w ++ [OrderMarketBuy (asset (bot w)) n;
               OrderMarketSell (asset (bot w)) n].
Proof.
  intros Ha Hc Hq Hn.
  rewrite (place_market_buy_run ex w c a current_price q n Ha Hc Hq Hn).
  simpl.
  rewrite (place_market_sell_run ex
             (log (OrderMarketBuy (asset (bot w)) n) (with_amount n w)) c n);
    [| exact Hc | reflexivity].
  simpl. rewrite <- app_assoc. reflexivity.
Qed.

Lemma buy_then_sell_same_quantity_witness :
  sent (snd (place_market_sell (fixed_exchange [] (Ok tt))
               (snd (place_market_buy (fixed_exchange [] (Ok tt)) (of_Z 100)
                       (ready_world (of_Z 250) "15m")))))
  = sent (ready_world (of_Z 250) "15m")
    ++ [OrderMarketBuy (asset (bot (ready_world (of_Z 250) "15m"))) 2;
        OrderMarketSell (asset (bot (ready_world (of_Z 250) "15m"))) 2].
Proof.
  apply (buy_then_sell_same_quantity
           (fixed_exchange [] (Ok tt)) (ready_world (of_Z 250) "15m")
           {| api_key := "key"; secret_key := "secret" |}
           (of_Z 250) (of_Z 100) (div (of_Z 250) (of_Z 100)) 2);
    reflexivity.
Defined.

(** X7.  [setup_params] does not reset [self.amount].  After a quantity
    has been stored, setting up another asset and then calling
    [place_market_sell] sends a sell order for the old quantity under the
    new asset. *)
Theorem sell_after_new_setup (ex : Exchange) (w : World) (c : Client) (n : Z)
  (asset_ : string) (trade_amount_ : float) (interval : string) :
  client (bot w) = Some c ->
  amount (bot w) = Some n ->
  amount (bot (snd (setup_params asset_ trade_amount_ interval w))) = Some n
  /\ sent (snd (place_market_sell ex
                  (snd (setup_params asset_ trade_amount_ interval w))))
     = sent w ++ [OrderMarketSell (Some asset_) n].
Proof.
  intros Hc Ham.
  split; [exact Ham |].
  rewrite (place_market_sell_run ex
             (snd (setup_params asset_ trade_amount_ interval w)) c n);
    [reflexivity | exact Hc | exact Ham].
Qed.

Lemma sell_after_new_setup_witness :
  amount (bot (snd (setup_params "ETHBTC" (of_Z 10) "1H" after_refused_buy)))
  = Some 2
  /\ sent (snd (place_market_sell refusing_exchange
                  (snd (setup_params "ETHBTC" (of_Z 10) "1H" after_refused_buy))))
     = sent after_refused_buy ++ [OrderMarketSell (Some "ETHBTC"%string) 2].
Proof.
  apply (sell_after_new_setup refusing_exchange after_refused_buy
           {| api_key := "key"; secret_key := "secret" |} 2
           "ETHBTC" (of_Z 10) "1H");
    reflexivity.
Defined.

(** X8.  [place_market_buy] raises before it stores or sends anything, and
    leaves the session as it was, when no quantity can be computed:
    [TypeError] when the trade amount is still [None], [ZeroDivisionError]
    when the price is a zero, [ValueError] when the quotient is NaN and
    [OverflowError] when it is infinite. *)
Theorem place_market_buy_no_quantity (ex : Exchange) (w : World)
  (current_price : float) :
  (trade_amount (bot w) = None ->
   place_market_buy ex current_price w = (Raise TypeError, w))
  /\ (forall a : float,
        trade_amount (bot w) = Some a ->
        (is_zero current_price = true ->
         place_market_buy ex current_price w = (Raise ZeroDivisionError, w))
        /\ (is_zero current_price = false ->
            is_nan (div a current_price) = true ->
            place_market_buy ex current_price w = (Raise ValueError, w))
        /\ (is_zero current_price = false ->
            is_inf (div a current_price) = true ->
            place_market_buy ex current_price w = (Raise OverflowError, w))).
Proof.
  split.
  - intros Ha. run_method place_market_buy. rewrite Ha. reflexivity.
  - intros a Ha. split; [| split].
    + intros Hz. run_method place_market_buy. rewrite Ha. cbv beta iota.
      unfold truediv. rewrite Hz. reflexivity.
    + intros Hz Hnan. run_method place_market_buy. rewrite Ha. cbv beta iota.
      unfold truediv. rewrite Hz. cbv beta iota.
      destruct (div a current_price); try discriminate Hnan. reflexivity.
    + intros Hz Hinf. run_method place_market_buy. rewrite Ha. cbv beta iota.
      unfold truediv. rewrite Hz. cbv beta iota.
      destruct (div a current_price); try discriminate Hinf. reflexivity.
Qed.

(** The four cases of X8 on sessions: no [setup_params]; a price of 0.0;
    an infinite amount at an infinite price; 1e300 at 1e-300. *)
Lemma place_market_buy_no_quantity_witness :
  place_market_buy refusing_exchange (of_Z 100) connected_world
  = (Raise TypeError, connected_world)
  /\ place_market_buy refusing_exchange pzero (ready_world (of_Z 250) "15m")
     = (Raise ZeroDivisionError, ready_world (of_Z 250) "15m")
  /\ place_market_buy refusing_exchange (S754_infinity false)
       (ready_world (S754_infinity false) "15m")
     = (Raise ValueError, ready_world (S754_infinity false) "15m")
  /\ place_market_buy refusing_exchange tiny_price (ready_world huge_amount "15m")
     = (Raise OverflowError, ready_world huge_amount "15m").
Proof.
  split; [| split; [| split]].
  - apply (proj1 (place_market_buy_no_quantity
                    refusing_exchange connected_world (of_Z 100))).
    reflexivity.
  - apply (proj1 (proj2 (place_market_buy_no_quantity refusing_exchange
                           (ready_world (of_Z 250) "15m") pzero)
                    (of_Z 250) eq_refl)).
    reflexivity.
  - apply (proj1 (proj2 (proj2 (place_market_buy_no_quantity refusing_exchange
                                  (ready_world (S754_infinity false) "15m")
                                  (S754_infinity false))
                           (S754_infinity false) eq_refl)));
      reflexivity.
  - apply (proj2 (proj2 (proj2 (place_market_buy_no_quantity refusing_exchange
                                  (ready_world huge_amount "15m") tiny_price)
                           huge_amount eq_refl)));
      vm_compute; reflexivity.
Defined.

(** X9.  Without [connect], [place_market_buy] stores the quantity in
    [self.amount] and only then raises [AttributeError] on [client]:
    nothing is sent, and the quantity stays. *)
Theorem place_market_buy_not_connected (ex : Exchange) (w : World)
  (a current_price q : float) (n : Z) :
  trade_amount (bot w) = Some a ->
  client (bot w) = None ->
  truediv a current_price = Ok q ->
  to_int q = Ok n ->
  place_market_buy ex current_price w
  = (Raise (AttributeError "client"), with_amount n w)
  /\ amount (bot (snd (place_market_buy ex current_price w))) = Some n
  /\ sent (snd (place_market_buy ex current_price w)) = sent w.
Proof.
  intros Ha Hc Hq Hn.
  assert (Hrun : place_market_buy ex current_price w
                 = (Raise (AttributeError "client"), with_amount n w)).
  { run_method place_market_buy.
    rewrite Ha. cbv beta iota. rewrite Hq. cbv beta iota.
    rewrite Hn. cbv beta iota.
    unfold setattr_amount, with_amount, set_bot. simpl. rewrite Hc.
    reflexivity. }
  split; [exact Hrun |].
  rewrite Hrun. split; reflexivity.
Qed.

Lemma place_market_buy_not_connected_witness :
  place_market_buy refusing_exchange (of_Z 100) (unconnected_world (of_Z 250))
  = (Raise (AttributeError "client"), with_amount 2 (unconnected_world (of_Z 250)))
  /\ amount (bot (snd (place_market_buy refusing_exchange (of_Z 100)
                         (unconnected_world (of_Z 250)))))
     = Some 2
  /\ sent (snd (place_market_buy refusing_exchange (of_Z 100)
                  (unconnected_world (of_Z 250))))
     = sent (unconnected_world (of_Z 250)).
Proof.
  apply (place_market_buy_not_connected refusing_exchange
           (unconnected_world (of_Z 250))
           (of_Z 250) (of_Z 100) (div (of_Z 250) (of_Z 100)) 2);
    reflexivity.
Defined.

Lemma to_Q_nonneg (x : float) :
  match x with
  | S754_zero s | S754_infinity s | S754_finite s _ _ => s = false
  | S754_nan => True
  end ->
  (0 <= to_Q x)%Q.
Proof.
  destruct x as [s | s | | s m e]; intros Hs;
    try (unfold to_Q, Qle; simpl; lia).
  subst s. unfold to_Q. destruct (0 <=? e) eqn:He.
  - change 0%Q with (inject_Z 0). rewrite <- Zle_Qle.
    apply Z.mul_nonneg_nonneg; [lia | apply Z.pow_nonneg; lia].
  - unfold Qle. simpl. lia.
Qed.

Lemma Qfloor_unit_interval (x : Q) : (0 <= x)%Q -> (x < 1)%Q -> Qfloor x = 0.
Proof.
  intros Hlo Hhi.
  assert (H0 : 0 <= Qfloor x).
  { change 0 with (Qfloor 0). apply Qfloor_resp_le. exact Hlo. }
  assert (H1 : Qfloor x < 1).
  { rewrite Zlt_Qlt. apply (Qle_lt_trans _ x); [apply Qfloor_le | exact Hhi]. }
  lia.
Qed.

(** X10.  A positive trade amount too small for one unit still places an
    order: when the double quotient of two positive numbers is below 1,
    [place_market_buy] stores 0 in [self.amount] and sends a buy order for
    0 units. *)
Theorem place_market_buy_zero_quantity (ex : Exchange) (w : World)
  (c : Client) (ma mp : positive) (ea ep : Z) :
  trade_amount (bot w) = Some (positive_float ma ea) ->
  client (bot w) = Some c ->
  is_finite (div (positive_float ma ea) (positive_float mp ep)) = true ->
  (to_Q (div (positive_float ma ea) (positive_float mp ep)) < 1)%Q ->
  place_market_buy ex (positive_float mp ep) w
  = (ex_order_market_buy ex (sent w) (asset (bot w)) 0,
     log (OrderMarketBuy (asset (bot w)) 0) (with_amount 0 w)).
Proof.
  intros Ha Hc Hfin Hlt.
  apply (place_market_buy_run ex w c (positive_float ma ea)
           (positive_float mp ep)
           (div (positive_float ma ea) (positive_float mp ep)) 0).
  - exact Ha.
  - exact Hc.
  - reflexivity.
  - rewrite (to_int_floor _ Hfin (div_positive ma mp ea ep)).
    rewrite Qfloor_unit_interval; [reflexivity | | exact Hlt].
    apply to_Q_nonneg. apply div_positive.
Qed.

Lemma place_market_buy_zero_quantity_witness :
  place_market_buy (fixed_exchange [] (Ok tt)) (of_Z 100)
    (ready_world (of_Z 50) "15m")
  = (Ok tt,
     log (OrderMarketBuy (Some "BTCUSDT"%string) 0)
       (with_amount 0 (ready_world (of_Z 50) "15m"))).
Proof.
  apply (place_market_buy_zero_quantity
           (fixed_exchange [] (Ok tt)) (ready_world (of_Z 50) "15m")
           {| api_key := "key"; secret_key := "secret" |}
           7036874417766400 7036874417766400 (-47) (-46));
    vm_compute; reflexivity.
Defined.

Lemma binary_round_aux_sign (s : bool) (m e : Z) (l : location) :
  match binary_round_aux prec emax s m e l with
  | S754_zero s' | S754_infinity s' | S754_finite s' _ _ => s' = s
  | S754_nan => True
  end.
Proof.
  unfold binary_round_aux.
  destruct (shr_fexp prec emax m e l) as [mrs' e'].
  destruct (shr_fexp prec emax _ e' loc_Exact) as [mrs'' e''].
  destruct (shr_m mrs''); [reflexivity | | exact I].
  destruct (e'' <=? emax - prec); reflexivity.
Qed.

Lemma div_negative (ma mp : positive) (ea ep : Z) :
  match div (negative_float ma ea) (positive_float mp ep) with
  | S754_zero s | S754_infinity s | S754_finite s _ _ => s = true
  | S754_nan => True
  end.
Proof.
  unfold div, SFdiv, negative_float, positive_float.
  destruct (SFdiv_core_binary prec emax (Z.pos ma) ea (Z.pos mp) ep)
    as [[mz ez] lz].
  apply (binary_round_aux_sign (xorb true false)).
Qed.

(** [int] of a finite double that is not positive is the ceiling of its
    exact value. *)
Lemma to_int_ceiling (x : float) :
  is_finite x = true ->
  match x with
  | S754_zero s | S754_infinity s | S754_finite s _ _ => s = true
  | S754_nan => True
  end ->
  to_int x = Ok (Qceiling (to_Q x)).
Proof.
  destruct x as [s | s | | s m e]; intros Hfin Hs;
    try discriminate Hfin.
  - reflexivity.
  - subst s. unfold to_int, to_Q, Qceiling. destruct (0 <=? e) eqn:He.
    + unfold Qfloor, Qopp, inject_Z. cbn [Qnum Qden].
      rewrite Z.opp_involutive, Z.div_1_r. reflexivity.
    + apply Z.leb_gt in He. unfold Qfloor, Qopp. cbn [Qnum Qden].
      rewrite Z.opp_involutive.
      rewrite Z2Pos.id by (apply Z.pow_pos_nonneg; lia).
      reflexivity.
Qed.

(** X11.  [int] truncates toward zero, so a negative trade amount is not
    floored: for a negative amount and a positive price whose double
    quotient is finite, [place_market_buy] stores and orders the ceiling
    of that quotient, a quantity that is never positive. *)
Theorem place_market_buy_negative_amount (ex : Exchange) (w : World)
  (c : Client) (ma mp : positive) (ea ep : Z) :
  trade_amount (bot w) = Some (negative_float ma ea) ->
  client (bot w) = Some c ->
  is_finite (div (negative_float ma ea) (positive_float mp ep)) = true ->
  place_market_buy ex (positive_float mp ep) w
  = (ex_order_market_buy ex (sent w) (asset (bot w))
       (Qceiling (to_Q (div (negative_float ma ea) (positive_float mp ep)))),
     log (OrderMarketBuy (asset (bot w))
            (Qceiling (to_Q (div (negative_float ma ea) (positive_float mp ep)))))
       (with_amount
          (Qceiling (to_Q (div (negative_float ma ea) (positive_float mp ep))))
          w))
  /\ Qceiling (to_Q (div (negative_float ma ea) (positive_float mp ep))) <= 0.
Proof.
  intros Ha Hc Hfin.
  pose proof (div_negative ma mp ea ep) as Hsign.
  split.
  - apply (place_market_buy_run ex w c (negative_float ma ea)
             (positive_float mp ep)
             (div (negative_float ma ea) (positive_float mp ep))).
    + exact Ha.
    + exact Hc.
    + reflexivity.
    + apply to_int_ceiling; [exact Hfin | exact Hsign].
  - destruct (div (negative_float ma ea) (positive_float mp ep))
      as [s | s | | s m e]; try discriminate Hfin.
    + vm_compute. discriminate.
    + simpl in Hsign. subst s.
      change 0 with (Qceiling 0). apply Qceiling_resp_le.
      unfold to_Q.
      assert (Hv : (0 <= to_Q (S754_finite false m e))%Q)
        by (apply to_Q_nonneg; reflexivity).
      unfold to_Q in Hv.
      destruct (0 <=? e); unfold Qle in *; simpl in *; lia.
Qed.

Lemma place_market_buy_negative_amount_witness :
  place_market_buy (fixed_exchange [] (Ok tt)) (of_Z 100)
    (ready_world (of_Z (-250)) "15m")
  = (Ok tt,
     log (OrderMarketBuy (Some "BTCUSDT"%string) (-2))
       (with_amount (-2) (ready_world (of_Z (-250)) "15m")))
  /\ -2 <= 0.
Proof.
  apply (place_market_buy_negative_amount
           (fixed_exchange [] (Ok tt)) (ready_world (of_Z (-250)) "15m")
           {| api_key := "key"; secret_key := "secret" |}
           8796093022208000 7036874417766400 (-45) (-46));
    reflexivity.
Defined.

(** ** [check_params] and [find_ticker] *)

(** X12.  [check_params] returns [True] exactly when the asset is a
    non-empty string and the trade amount is a float other than the two
    zeros, so that a negative amount or a NaN passes; otherwise it returns
    [None], never [False].  It reads nothing else and changes nothing. *)
Theorem check_params_true_iff (w : World) :
  (fst (check_params w) = Ok (Some true)
   <-> exists (s : string) (x : float),
         asset (bot w) = Some s /\ s <> ""%string
         /\ trade_amount (bot w) = Some x /\ is_zero x = false)
  /\ (fst (check_params w) = Ok (Some true) \/ fst (check_params w) = Ok None)
  /\ snd (check_params w) = w.
Proof.
  unfold check_params, bind, get_asset, get_trade_amount, ret. simpl.
  unfold truthy_asset, truthy_trade_amount.
  destruct (asset (bot w)) as [s |]; destruct (trade_amount (bot w)) as [x |];
    simpl.
  - destruct (String.eqb s "") eqn:Hs; destruct (is_zero x) eqn:Hx; simpl.
    + split; [| split; [right; reflexivity | reflexivity]].
      split; [intros H; discriminate H |].
      intros [s' [x' [Ha [_ [Ht Hz]]]]]. inversion Ht; subst x'. congruence.
    + split; [| split; [right; reflexivity | reflexivity]].
      split; [intros H; discriminate H |].
      intros [s' [x' [Ha [Hne _]]]]. inversion Ha; subst s'.
      apply String.eqb_eq in Hs. contradiction.
    + split; [| split; [right; reflexivity | reflexivity]].
      split; [intros H; discriminate H |].
      intros [s' [x' [Ha [_ [Ht Hz]]]]]. inversion Ht; subst x'. congruence.
    + split; [| split; [left; reflexivity | reflexivity]].
      split; [| reflexivity].
      intros _. exists s, x.
      apply String.eqb_neq in Hs. repeat split; assumption.
  - split; [| split; [right; rewrite andb_false_r; reflexivity | reflexivity]].
    rewrite andb_false_r.
    split; [intros H; discriminate H |].
    intros [s' [x' [_ [_ [Ht _]]]]]. discriminate Ht.
  - split; [| split; [right; reflexivity | reflexivity]].
    split; [intros H; discriminate H |].
    intros [s' [x' [Ha _]]]. discriminate Ha.
  - split; [| split; [right; reflexivity | reflexivity]].
    split; [intros H; discriminate H |].
    intros [s' [x' [Ha _]]]. discriminate Ha.
Qed.

(** X13.  [check_params] does not look at the interval.  After
    [setup_params] with a non-empty asset, a nonzero amount and an interval
    code outside the table, [check_params] returns [True] and [get_klines]
    still raises before any request is sent, with [KeyError] when the
    client is connected. *)
Theorem check_params_ignores_interval (ex : Exchange) (w : World)
  (asset_ : string) (trade_amount_ : float) (code : string) (limit_ : Z) :
  asset_ <> ""%string ->
  is_zero trade_amount_ = false ->
  ~ In code ["15m"; "30m"; "1H"; "2H"; "4H"; "6H"; "12H"; "1D"]%string ->
  fst (check_params (snd (setup_params asset_ trade_amount_ code w)))
  = Ok (Some true)
  /\ exists e : exn,
       get_klines ex limit_ (snd (setup_params asset_ trade_amount_ code w))
       = (Raise e, snd (setup_params asset_ trade_amount_ code w))
       /\ (client (bot w) <> None -> e = KeyError code).
Proof.
  intros Hne Hz Hnot.
  split.
  - unfold check_params, bind, get_asset, get_trade_amount, ret. simpl.
    unfold truthy_asset, truthy_trade_amount.
    apply String.eqb_neq in Hne. rewrite Hne, Hz. reflexivity.
  - assert (Hd : dict_getitem kline_intervals code = Raise (KeyError code)).
    { apply dict_getitem_missing. exact Hnot. }
    remember (snd (setup_params asset_ trade_amount_ code w)) as w' eqn:Hw'.
    assert (Ht : time_interval (bot w') = Some code) by (subst w'; reflexivity).
    assert (Hcl : client (bot w') = client (bot w)) by (subst w'; reflexivity).
    run_method get_klines.
    destruct (client (bot w')) as [c |] eqn:Hc.
    + exists (KeyError code). cbv beta iota. rewrite Ht. cbv beta iota.
      rewrite Hd. split; [reflexivity | trivial].
    + exists (AttributeError "client").
      split; [reflexivity |].
      intros Hconn. exfalso. apply Hconn. symmetry. exact Hcl.
Qed.

Lemma check_params_ignores_interval_witness :
  fst (check_params (snd (setup_params "BTCUSDT" (of_Z (-250)) "1h" connected_world)))
  = Ok (Some true)
  /\ exists e : exn,
       get_klines refusing_exchange 25
         (snd (setup_params "BTCUSDT" (of_Z (-250)) "1h" connected_world))
       = (Raise e, snd (setup_params "BTCUSDT" (of_Z (-250)) "1h" connected_world))
       /\ (client (bot connected_world) <> None -> e = KeyError "1h").
Proof.
  apply (check_params_ignores_interval refusing_exchange connected_world
           "BTCUSDT" (of_Z (-250)) "1h" 25).
  - discriminate.
  - reflexivity.
  - simpl. intros H.
    repeat (destruct H as [H | H]; [discriminate H |]). exact H.
Defined.

Lemma scan_tickers_from (selected_ticker : string) (all_tickers : list ticker)
  (found : bool) :
  fold_left
    (fun ticker_found ticker =>
       if String.eqb selected_ticker (tk_symbol ticker) then true
       else ticker_found)
    all_tickers found
  = found
    || existsb (fun ticker => String.eqb selected_ticker (tk_symbol ticker))
         all_tickers.
Proof.
  revert found. induction all_tickers as [| t l IH]; intros found; simpl.
  - rewrite orb_false_r. reflexivity.
  - rewrite IH. destruct (String.eqb selected_ticker (tk_symbol t));
      destruct found; reflexivity.
Qed.

Lemma scan_tickers_true (selected_ticker : string) (all_tickers : list ticker) :
  scan_tickers selected_ticker all_tickers = true
  <-> In selected_ticker (map tk_symbol all_tickers).
Proof.
  unfold scan_tickers. rewrite scan_tickers_from. simpl.
  rewrite existsb_exists, in_map_iff.
  split.
  - intros [t [Hin Heq]]. apply String.eqb_eq in Heq.
    exists t. split; [symmetry; exact Heq | exact Hin].
  - intros [t [Heq Hin]]. exists t.
    split; [exact Hin | apply String.eqb_eq; symmetry; exact Heq].
Qed.

(** X14.  With a connected client, [find_ticker] raises what the exchange
    raises on the listing request, and otherwise returns [True] exactly
    when the selected ticker is, character for character, the symbol of
    some entry of the listing, wherever it stands and however often;
    an empty listing gives [False].  The object is not changed. *)
Theorem find_ticker_listed (get_all_tickers : ticker_feed) (w : World)
  (c : Client) (selected_ticker : string) :
  client (bot w) = Some c ->
  match get_all_tickers (sent w) with
  | inl e => find_ticker get_all_tickers selected_ticker w = (Raise e, w)
  | inr all_tickers =>
      exists found : bool,
        find_ticker get_all_tickers selected_ticker w = (Ok found, w)
        /\ (found = true <-> In selected_ticker (map tk_symbol all_tickers))
  end.
Proof.
  intros Hc. unfold find_ticker, bind, getattr, ret. rewrite Hc.
  destruct (get_all_tickers (sent w)) as [e | all_tickers].
  - reflexivity.
  - exists (scan_tickers selected_ticker all_tickers).
    split; [reflexivity | apply scan_tickers_true].
Qed.

Lemma find_ticker_listed_witness :
  exists found : bool,
    find_ticker (fun _ => Ok two_tickers) "BTCUSDT" connected_world
    = (Ok found, connected_world)
    /\ (found = true <-> In "BTCUSDT"%string (map tk_symbol two_tickers)).
Proof.
  apply (find_ticker_listed (fun _ => Ok two_tickers) connected_world
           {| api_key := "key"; secret_key := "secret" |} "BTCUSDT").
  reflexivity.
Defined.

(** ** The two tables *)

Lemma find_first_match (name : string) (rows : list user_row) :
  (forall r : user_row,
     find (fun r' => String.eqb (username r') name) rows = Some r ->
     exists before after : list user_row,
       rows = before ++ r :: after
       /\ username r = name
       /\ (forall r' : user_row, In r' before -> username r' <> name))
  /\ (find (fun r' => String.eqb (username r') name) rows = None
      <-> forall r : user_row, In r rows -> username r <> name).
Proof.
  induction rows as [| r0 rows [IHsome IHnone]]; simpl.
  - split.
    + intros r H. discriminate H.
    + split; [intros _ r H; contradiction | reflexivity].
  - destruct (String.eqb (username r0) name) eqn:Heq.
    + apply String.eqb_eq in Heq. split.
      * intros r H. inversion H; subst r.
        exists [], rows. split; [reflexivity | split; [exact Heq |]].
        intros r' Hin. contradiction.
      * split; [intros H; discriminate H |].
        intros Hall. exfalso. apply (Hall r0); [left; reflexivity | exact Heq].
    + apply String.eqb_neq in Heq. split.
      * intros r H. destruct (IHsome r H) as [before [after [Hrows [Hname Hb]]]].
        exists (r0 :: before), after.
        split; [rewrite Hrows; reflexivity | split; [exact Hname |]].
        intros r' [Hr' | Hr']; [subst r'; exact Heq | apply Hb; exact Hr'].
      * split.
        -- intros H r [Hr | Hr]; [subst r; exact Heq |].
           apply (proj1 IHnone H r Hr).
        -- intros Hall. apply (proj2 IHnone).
           intros r Hr. apply Hall. right. exact Hr.
Qed.

(** X15.  What [get_user_data] returns is a row of the table whose
    username is exactly the one asked for, and the earliest such row: no
    row stored before it has that username.  It returns [None] exactly
    when no row of the table has that username. *)
Theorem get_user_data_first_match (db : Database) (name : string) :
  (forall r : user_row,
     get_user_data db name = Some r ->
     exists before after : list user_row,
       user_data db = before ++ r :: after
       /\ username r = name
       /\ (forall r' : user_row, In r' before -> username r' <> name))
  /\ (get_user_data db name = None
      <-> forall r : user_row, In r (user_data db) -> username r <> name).
Proof.
  unfold get_user_data. apply find_first_match.
Qed.

(** X16.  [create_user] never changes an answer already given: a username
    that [get_user_data] finds is still answered with the same row after
    any insertion, even one under that same username, and an insertion
    under one username leaves the answer for every other username as it
    was. *)
Theorem create_user_keeps_answers (db : Database) (u p a s name : string) :
  (forall r : user_row,
     get_user_data db name = Some r ->
     get_user_data (create_user db u p a s) name = Some r)
  /\ (u <> name ->
      get_user_data (create_user db u p a s) name = get_user_data db name).
Proof.
  split.
  - intros r Hr. rewrite get_user_data_after_create, Hr. reflexivity.
  - intros Hne. rewrite get_user_data_after_create.
    apply String.eqb_neq in Hne. rewrite Hne.
    destruct (get_user_data db name); reflexivity.
Qed.

(** X17.  Both tables only grow.  [create_user] and [log_trade] each add
    exactly one row at the end of their table, keep every row already
    stored at its position, and leave the other table alone, so that
    [log_trade] never changes what [get_user_data] returns. *)
Theorem tables_only_grow (db : Database)
  (u p a s : string) (d t z en ex_ g : string) :
  (forall (i : nat) (r : user_row),
     nth_error (user_data db) i = Some r ->
     nth_error (user_data (create_user db u p a s)) i = Some r)
  /\ List.length (user_data (create_user db u p a s))
     = S (List.length (user_data db))
  /\ trade_data (create_user db u p a s) = trade_data db
  /\ (forall (i : nat) (r : trade_row),
        nth_error (trade_data db) i = Some r ->
        nth_error (trade_data (log_trade db d t z en ex_ g)) i = Some r)
  /\ List.length (trade_data (log_trade db d t z en ex_ g))
     = S (List.length (trade_data db))
  /\ user_data (log_trade db d t z en ex_ g) = user_data db
  /\ (forall name : string,
        get_user_data (log_trade db d t z en ex_ g) name
        = get_user_data db name).
Proof.
  split; [| split; [| split; [| split; [| split; [| split]]]]].
  - intros i r Hi. unfold create_user. simpl.
    rewrite nth_error_app1; [exact Hi |].
    apply nth_error_Some. rewrite Hi. discriminate.
  - unfold create_user. simpl. rewrite length_app. simpl. lia.
  - reflexivity.
  - intros i r Hi. unfold log_trade. simpl.
    rewrite nth_error_app1; [exact Hi |].
    apply nth_error_Some. rewrite Hi. discriminate.
  - unfold log_trade. simpl. rewrite length_app. simpl. lia.
  - reflexivity.
  - reflexivity.
Qed.

Lemma create_users_tables (rows : list user_row) :
  forall db : Database,
    user_data (create_users db rows) = user_data db ++ rows
    /\ trade_data (create_users db rows) = trade_data db.
Proof.
  unfold create_users.
  induction rows as [| r rows IH]; intros db; simpl.
  - rewrite app_nil_r. split; reflexivity.
  - destruct (IH (create_user db (username r) (password r) (row_api_key r)
                    (row_secret_key r))) as [Hu Ht].
    rewrite Hu, Ht. unfold create_user. simpl.
    rewrite <- app_assoc. destruct r. split; reflexivity.
Qed.

Lemma find_app_first {A : Type} (f : A -> bool) (l1 l2 : list A) :
  find f (l1 ++ l2)
  = match find f l1 with
    | Some x => Some x
    | None => find f l2
    end.
Proof.
  induction l1 as [| x l1 IH]; simpl.
  - reflexivity.
  - destruct (f x); [reflexivity | exact IH].
Qed.

(** X18.  After any sequence of [create_user] calls the table holds the
    rows already there followed by the inserted rows, in the order of the
    calls and duplicates included, and [get_user_data] answers with the
    first row of that whole sequence that has the username asked for: a
    later insertion under a stored username is kept but never read. *)
Theorem create_users_first_wins (db : Database) (rows : list user_row)
  (name : string) :
  user_data (create_users db rows) = user_data db ++ rows
  /\ get_user_data (create_users db rows) name
     = match get_user_data db name with
       | Some r => Some r
       | None => find (fun r => String.eqb (username r) name) rows
       end.
Proof.
  destruct (create_users_tables rows db) as [Hu _].
  split; [exact Hu |].
  unfold get_user_data. rewrite Hu. apply find_app_first.
Qed.

(** ** The exceptions of [get_bbands] *)

Lemma mul_self_not_negative (x : float) : not_negative (mul x x).
Proof.
  destruct x as [s | s | | s m e]; simpl; try (destruct s; reflexivity);
    try exact I.
  unfold mul, SFmul. rewrite xorb_nilpotent.
  apply (binary_round_aux_sign false).
Qed.

Lemma binary_normalize_pos_not_negative (p : positive) (e : Z) :
  not_negative (binary_normalize prec emax (Z.pos p) e false).
Proof.
  unfold binary_normalize, binary_round.
  destruct (shl_align p e (fexp prec emax (Z.pos (digits2_pos p) + e)))
    as [mz ez].
  apply (binary_round_aux_sign false).
Qed.

Lemma add_not_negative (x y : float) :
  not_negative x -> not_negative y -> not_negative (add x y).
Proof.
  destruct x as [sx | sx | | sx mx ex]; destruct y as [sy | sy | | sy my ey];
    simpl; intros Hx Hy; subst; try reflexivity; try exact I.
  unfold add, SFadd. simpl.
  apply binary_normalize_pos_not_negative.
Qed.

Lemma sum_from_not_negative (l : list float) :
  forall acc : float,
    not_negative acc -> Forall not_negative l ->
    not_negative (fold_left add l acc).
Proof.
  induction l as [| x l IH]; intros acc Hacc Hall; simpl.
  - exact Hacc.
  - inversion Hall as [| ? ? Hx Hl]; subst.
    apply IH; [apply add_not_negative; assumption | exact Hl].
Qed.

Lemma div_20_not_negative (x : float) :
  not_negative x -> not_negative (div x (of_Z 20)).
Proof.
  replace (of_Z 20) with (S754_finite false 5629499534213120 (-48))
    by (vm_compute; reflexivity).
  destruct x as [s | s | | s m e]; simpl; intros Hx; subst;
    try reflexivity; try exact I.
  unfold div, SFdiv.
  destruct (SFdiv_core_binary prec emax (Z.pos m) e
              (Z.pos 5629499534213120) (-48)) as [[mz ez] lz].
  apply (binary_round_aux_sign false).
Qed.

Lemma shr_1_nonneg (mrs : shr_record) :
  0 <= shr_m mrs -> 0 <= shr_m (shr_1 mrs).
Proof.
  destruct mrs as [m r s]. simpl. intros Hm.
  destruct m as [| p | p]; [simpl; lia | | lia].
  destruct p; simpl; lia.
Qed.

Lemma iter_shr_1_nonneg (p : positive) :
  forall mrs : shr_record,
    0 <= shr_m mrs -> 0 <= shr_m (iter_pos shr_1 p mrs).
Proof.
  induction p as [p IH | p IH |]; intros mrs Hm; simpl.
  - apply IH. apply IH. apply shr_1_nonneg. exact Hm.
  - apply IH. apply IH. exact Hm.
  - apply shr_1_nonneg. exact Hm.
Qed.

Lemma shr_fexp_nonneg (m e : Z) (l : location) :
  0 <= m -> 0 <= shr_m (fst (shr_fexp prec emax m e l)).
Proof.
  intros Hm. unfold shr_fexp, shr.
  assert (H0 : 0 <= shr_m (shr_record_of_loc m l)).
  { destruct l as [| c]; [exact Hm | destruct c; exact Hm]. }
  destruct (fexp prec emax (Zdigits2 m + e) - e) as [| p | p]; simpl;
    [exact H0 | apply iter_shr_1_nonneg; exact H0 | exact H0].
Qed.

Lemma round_nearest_even_nonneg (m : Z) (l : location) :
  0 <= m -> 0 <= round_nearest_even m l.
Proof.
  intros Hm. unfold round_nearest_even.
  destruct l as [| c]; [exact Hm |].
  destruct c; [destruct (Z.even m); lia | exact Hm | lia].
Qed.

(** Rounding a mantissa that is not negative never produces a NaN. *)
Lemma binary_round_aux_not_nan (s : bool) (m e : Z) (l : location) :
  0 <= m -> is_nan (binary_round_aux prec emax s m e l) = false.
Proof.
  intros Hm. unfold binary_round_aux.
  pose proof (shr_fexp_nonneg m e l Hm) as H1.
  destruct (shr_fexp prec emax m e l) as [mrs' e']. simpl in H1.
  pose proof (shr_fexp_nonneg
                (round_nearest_even (shr_m mrs') (loc_of_shr_record mrs'))
                e' loc_Exact
                (round_nearest_even_nonneg _ _ H1)) as H2.
  destruct (shr_fexp prec emax _ e' loc_Exact) as [mrs'' e'']. simpl in H2.
  destruct (shr_m mrs'') as [| p | p]; [reflexivity | | lia].
  destruct (e'' <=? emax - prec); reflexivity.
Qed.

Lemma sqrtrem_nonneg (n : Z) : 0 <= fst (Z.sqrtrem n).
Proof.
  destruct n as [| p | p]; simpl; try lia.
  destruct (Pos.sqrtrem p) as [q r]. destruct r; simpl; lia.
Qed.

(** [math.sqrt] accepts every float that is not below zero. *)
Lemma math_sqrt_not_negative (x : float) :
  not_negative x -> exists r : float, math_sqrt x = Ok r.
Proof.
  intros Hx. unfold math_sqrt.
  destruct x as [s | s | | s m e]; simpl in Hx; subst.
  - eexists. reflexivity.
  - eexists. reflexivity.
  - eexists. reflexivity.
  - assert (Hn : is_nan (sqrt (S754_finite false m e)) = false).
    { unfold sqrt, SFsqrt, SFsqrt_core_binary.
      pose proof (sqrtrem_nonneg
                    match e - 2 * Z.min (fexp prec emax
                                           (Z.div2 (Zdigits2 (Z.pos m) + e + 1)))
                                        (Z.div2 e) with
                    | 0 => Z.pos m
                    | Z.pos _ =>
                        Z.shiftl (Z.pos m)
                          (e - 2 * Z.min (fexp prec emax
                                            (Z.div2 (Zdigits2 (Z.pos m) + e + 1)))
                                         (Z.div2 e))
                    | Z.neg _ => 0
                    end) as Hq.
      cbv zeta.
      destruct (Z.sqrtrem _) as [q r]. simpl in Hq.
      apply binary_round_aux_not_nan. exact Hq. }
    rewrite Hn. eexists. reflexivity.
Qed.

Lemma comprehension_inv {A B : Type} (f : A -> result B) (E : exn -> Prop)
  (P : B -> Prop) (l : list A) :
  (forall x : A, match f x with inl e => E e | inr y => P y end) ->
  match comprehension f l with
  | inl e => E e
  | inr ys => Forall P ys
  end.
Proof.
  intros Hf. induction l as [| x l IH]; simpl.
  - constructor.
  - pose proof (Hf x) as Hx. destruct (f x) as [e | y]; simpl; [exact Hx |].
    destruct (comprehension f l) as [e | ys]; simpl; [exact IH |].
    constructor; assumption.
Qed.

Lemma pow2_inv (x : float) :
  match pow2 x with
  | inl e => e = OverflowError
  | inr y => not_negative y
  end.
Proof.
  unfold pow2.
  destruct (is_finite x && is_inf (mul x x));
    [reflexivity | apply mul_self_not_negative].
Qed.

Lemma of_Z_20_not_zero : is_zero (of_Z 20) = false.
Proof. vm_compute. reflexivity. Qed.

Lemma standard_deviation_inv (closes : list float) (ma : float) :
  match standard_deviation closes ma with
  | inl e => e = OverflowError
  | inr _ => True
  end.
Proof.
  unfold standard_deviation, squared_list.
  pose proof (comprehension_inv
                (fun close => pow2 (sub close ma))
                (fun e' => e' = OverflowError) not_negative closes
                (fun x => pow2_inv _)) as Hsq.
  destruct (comprehension _ closes) as [e' | sq]; [exact Hsq |].
  unfold rbind at 1. unfold truediv. rewrite of_Z_20_not_zero.
  unfold rbind.
  assert (Hv : not_negative (div (sum sq) (of_Z 20))).
  { apply div_20_not_negative. unfold sum.
    apply sum_from_not_negative; [reflexivity | exact Hsq]. }
  destruct (math_sqrt_not_negative _ Hv) as [r Hr]. rewrite Hr. exact I.
Qed.

(** The arithmetic of [get_bbands] can only fail by overflow. *)
Lemma lower_band_raises_overflow (closes : list float) (e : exn) :
  lower_band closes = Raise e -> e = OverflowError.
Proof.
  unfold lower_band, simple_ma, truediv. rewrite of_Z_20_not_zero.
  unfold rbind at 1.
  pose proof (standard_deviation_inv closes (div (sum closes) (of_Z 20)))
    as Hsd.
  destruct (standard_deviation closes (div (sum closes) (of_Z 20)))
    as [e' | sd]; unfold rbind; intros H.
  - injection H as He. rewrite <- He. exact Hsd.
  - discriminate H.
Qed.

Lemma dict_getitem_raises_KeyError {V : Type} (d : list (string * V))
  (key : string) (e : exn) :
  dict_getitem d key = Raise e -> e = KeyError key.
Proof.
  induction d as [| [k v] d IH]; simpl.
  - intros H. inversion H. reflexivity.
  - destruct (String.eqb key k); [intros H; discriminate H | exact IH].
Qed.

Lemma last_20_closes_raises_IndexError (klines : list kline) (e : exn) :
  last_20_closes klines = Raise e -> e = IndexError.
Proof.
  unfold last_20_closes.
  pose proof (comprehension_inv
                (fun i => rbind (getitem klines i)
                            (fun k => Ok (float_of_decimal (kl_close k))))
                (fun e' => e' = IndexError) (fun _ => True) (seq 0 20)) as H.
  destruct (comprehension _ (seq 0 20)) as [e' | closes].
  - intros Heq. inversion Heq; subst e'. apply H.
    intros i. unfold getitem. destruct (nth_error klines i); simpl; trivial.
  - intros Heq. discriminate Heq.
Qed.

(** X19.  The exceptions [get_bbands] can raise.  When it raises, the
    exception is [AttributeError] on [client] or [time_interval],
    [KeyError] on the interval code, what the exchange raised on the kline
    request, [IndexError] for a short window, or [OverflowError] from the
    squares.  It never raises [ZeroDivisionError], [ValueError] or
    [TypeError] of its own: the variance handed to [math.sqrt] is never
    below zero. *)
Theorem get_bbands_exceptions (ex : Exchange) (w : World) (e : exn) :
  fst (get_bbands ex w) = Raise e ->
  e = AttributeError "client"
  \/ e = AttributeError "time_interval"
  \/ (exists code : string,
        time_interval (bot w) = Some code /\ e = KeyError code)
  \/ (exists interval : interval_token,
        ex_get_klines ex (sent w) (asset (bot w)) interval 25 = Raise e)
  \/ e = IndexError
  \/ e = OverflowError.
Proof.
  unfold get_bbands. unfold bind at 1.
  destruct (get_klines ex 25 w) as [[e' | klines] w'] eqn:Hk.
  - simpl. intros H. inversion H; subst e'. clear H.
    revert Hk. run_method get_klines.
    destruct (client (bot w)) as [c |];
      [| intros H; inversion H; left; reflexivity].
    destruct (time_interval (bot w)) as [code |];
      [| intros H; inversion H; right; left; reflexivity].
    destruct (dict_getitem kline_intervals code) as [e1 | interval] eqn:Hd.
    + intros H. inversion H; subst e1.
      right; right; left. exists code.
      split; [reflexivity | apply (dict_getitem_raises_KeyError _ _ _ Hd)].
    + destruct (ex_get_klines ex (sent w) (asset (bot w)) interval 25)
        as [e2 | window] eqn:Hx; intros H; inversion H; subst.
      right; right; right; left. exists interval. exact Hx.
  - unfold bind, lift.
    destruct (last_20_closes klines) as [e' | closes] eqn:Hcl.
    + simpl. intros H. inversion H; subst e'.
      right; right; right; right; left.
      apply (last_20_closes_raises_IndexError klines e Hcl).
    + simpl. intros H.
      right; right; right; right; right.
      apply (lower_band_raises_overflow closes e H).
Qed.

Lemma get_bbands_exceptions_witness :
  IndexError = AttributeError "client"
  \/ IndexError = AttributeError "time_interval"
  \/ (exists code : string,
        time_interval (bot (ready_world (of_Z 250) "1D")) = Some code
        /\ IndexError = KeyError code)
  \/ (exists interval : interval_token,
        ex_get_klines (fixed_exchange two_candles (Ok tt))
          (sent (ready_world (of_Z 250) "1D"))
          (asset (bot (ready_world (of_Z 250) "1D"))) interval 25
        = Raise IndexError)
  \/ IndexError = IndexError
  \/ IndexError = OverflowError.
Proof.
  apply (get_bbands_exceptions (fixed_exchange two_candles (Ok tt))
           (ready_world (of_Z 250) "1D") IndexError).
  reflexivity.
Defined.
